(** * tkr-npm-scan: version-range matching and classification engine

  A shallow embedding of the matching engine of the scanner, in its two
  implementations:

  - the Node.js implementation ([semver.js], [ioc.js] and [matcher.js] of
    [node/lib]);
  - the Go implementation ([go/pkg/ioc], [go/pkg/matcher]).

  Strings are sequences of 8-bit code units ([string] of the standard
  library).  Numbers produced by [parseInt] are integers ([Z]); the
  JavaScript values are doubles, which agree with them below 2^53. *)

From Stdlib Require Import ZArith Bool Ascii String List Lia.
From stdpp Require Import gmap strings list fin_maps.

Local Open Scope string_scope.
Local Open Scope Z_scope.

(** ** Primitives of the host languages on strings *)

Module Str.

Definition isEmpty (s : string) : bool :=
  match s with EmptyString => true | String _ _ => false end.

Definition code (c : ascii) : N := N_of_ascii c.

Definition isDigit (c : ascii) : bool :=
  ((48 <=? code c) && (code c <=? 57))%N.

Definition isUpper (c : ascii) : bool :=
  ((65 <=? code c) && (code c <=? 90))%N.

Definition isLower (c : ascii) : bool :=
  ((97 <=? code c) && (code c <=? 122))%N.

(** White space of ECMAScript ([String.prototype.trim], [\s]) among the
    8-bit code units: TAB, LF, VT, FF, CR, SP and NBSP. *)
Definition isSpaceJS (c : ascii) : bool :=
  ((9 <=? code c) && (code c <=? 13) || (code c =? 32) || (code c =? 160))%N.

(** The ASCII white space of Go (the table [asciiSpace] of
    [strings.TrimSpace]): TAB, LF, VT, FF, CR and SP. *)
Definition isSpaceGo (c : ascii) : bool :=
  ((9 <=? code c) && (code c <=? 13) || (code c =? 32))%N.

Fixpoint existsb (p : ascii -> bool) (s : string) : bool :=
  match s with
  | EmptyString => false
  | String c s' => p c || existsb p s'
  end.

Fixpoint dropWhile (p : ascii -> bool) (s : string) : string :=
  match s with
  | EmptyString => EmptyString
  | String c s' => if p c then dropWhile p s' else s
  end.

Fixpoint dropWhileEnd (p : ascii -> bool) (s : string) : string :=
  match s with
  | EmptyString => EmptyString
  | String c s' =>
      let t := dropWhileEnd p s' in
      if isEmpty t && p c then EmptyString else String c t
  end.

Definition trimWith (p : ascii -> bool) (s : string) : string :=
  dropWhileEnd p (dropWhile p s).

(** Longest prefix of characters satisfying [p], and the rest. *)
Fixpoint span (p : ascii -> bool) (s : string) : string * string :=
  match s with
  | EmptyString => (EmptyString, EmptyString)
  | String c s' =>
      if p c then let '(a, b) := span p s' in (String c a, b)
      else (EmptyString, s)
  end.

Fixpoint startsWith (pre s : string) : bool :=
  match pre, s with
  | EmptyString, _ => true
  | String a pre', String b s' => Ascii.eqb a b && startsWith pre' s'
  | String _ _, EmptyString => false
  end.

(** [s.slice(n)] for [0 <= n]. *)
Fixpoint slice (n : nat) (s : string) : string :=
  match n, s with
  | O, _ => s
  | S n', String _ s' => slice n' s'
  | S _, EmptyString => EmptyString
  end.

(** Go's [strings.TrimPrefix]. *)
Definition trimPrefix (s pre : string) : string :=
  if startsWith pre s then slice (String.length pre) s else s.

Definition consHead (c : ascii) (l : list string) : list string :=
  match l with
  | h :: t => String c h :: t
  | [] => [String c EmptyString]
  end.

(** [s.split(sep)] for a separator of one character. *)
Fixpoint splitChar (sep : ascii) (s : string) : list string :=
  match s with
  | EmptyString => [EmptyString]
  | String c s' =>
      if Ascii.eqb c sep then EmptyString :: splitChar sep s'
      else consHead c (splitChar sep s')
  end.

(** [s.split('||')]: the separators are found from left to right and do
    not overlap. *)
Fixpoint splitBars (s : string) : list string :=
  match s with
  | EmptyString => [EmptyString]
  | String c s' =>
      match s' with
      | String c' s'' =>
          if Ascii.eqb c "|" && Ascii.eqb c' "|"
          then EmptyString :: splitBars s''
          else consHead c (splitBars s')
      | EmptyString => [String c EmptyString]
      end
  end.

Definition digitValue (c : ascii) : Z := Z.of_N (code c) - 48.

(** [parseInt(s, 10)] on a string of decimal digits: the integer that the
    digits write.  JavaScript returns the double nearest to it, which is
    this integer below 2^53; no statement of this file depends on what is
    returned above. *)
Definition parseInt (s : string) : Z :=
  fold_left (fun acc c => 10 * acc + digitValue c) (list_ascii_of_string s) 0.

End Str.

(** ** The semver subset of the Node.js implementation ([semver.js]) *)

Module Semver.

Record Version : Type := mkVersion {
  major : Z;
  minor : Z;
  patch : Z;
  prerelease : option string
}.

(** Characters of the class [[a-zA-Z0-9.-]]. *)
Definition isTagChar (c : ascii) : bool :=
  Str.isLower c || Str.isUpper c || Str.isDigit c
  || Ascii.eqb c "." || Ascii.eqb c "-".

(** [version.replace(/^v/, '')] *)
Definition stripV (s : string) : string :=
  match s with
  | String "v" s' => s'
  | _ => s
  end.

(** The optional group [(?:-([a-zA-Z0-9.-]+))?], read as [match[4] || null]. *)
Definition prereleaseGroup (s : string) : option string :=
  match s with
  | String "-" s' =>
      let '(t, _) := Str.span isTagChar s' in
      if Str.isEmpty t then None else Some t
  | _ => None
  end.

(** [parse(version)]: [null] is [None]. *)
Definition parse (version : string) : option Version :=
  if Str.isEmpty version then None
  else
    let cleaned := stripV version in
    let '(d1, r1) := Str.span Str.isDigit cleaned in
    if Str.isEmpty d1 then None
    else match r1 with
    | String "." r1' =>
        let '(d2, r2) := Str.span Str.isDigit r1' in
        if Str.isEmpty d2 then None
        else match r2 with
        | String "." r2' =>
            let '(d3, r3) := Str.span Str.isDigit r2' in
            if Str.isEmpty d3 then None
            else Some {| major := Str.parseInt d1;
                         minor := Str.parseInt d2;
                         patch := Str.parseInt d3;
                         prerelease := prereleaseGroup r3 |}
        | _ => None
        end
    | _ => None
    end.

(** Truthiness of the [prerelease] field (a string or [null]). *)
Definition truthy (p : option string) : bool :=
  match p with
  | Some s => negb (Str.isEmpty s)
  | None => false
  end.

(** The class [[~^><=*x]]. *)
Definition isRangeOperator (c : ascii) : bool :=
  Ascii.eqb c "~" || Ascii.eqb c "^" || Ascii.eqb c ">" || Ascii.eqb c "<"
  || Ascii.eqb c "=" || Ascii.eqb c "*" || Ascii.eqb c "x".

Definition hasRangeOperator (s : string) : bool :=
  Str.existsb isRangeOperator s.

Definition isStarOrX (s : string) : bool :=
  String.eqb s "*" || String.eqb s "x".

(** The match of [/^(\d+)\.([x*]|(\d+)\.[x*])$/]: the first group, and the
    third one when the second is not a bare [x] or [*]. *)
Definition wildcardMatch (range : string) : option (string * option string) :=
  let '(d1, r1) := Str.span Str.isDigit range in
  if Str.isEmpty d1 then None
  else match r1 with
  | String "." r1' =>
      if isStarOrX r1' then Some (d1, None)
      else
        let '(d2, r2) := Str.span Str.isDigit r1' in
        if Str.isEmpty d2 then None
        else match r2 with
        | String "." r2' => if isStarOrX r2' then Some (d1, Some d2) else None
        | _ => None
        end
  | _ => None
  end.

Section WithCollation.

(** [String.prototype.localeCompare] of the host: the collation depends
    on the runtime and its locale, so it is a parameter of the model. *)
Variable localeCompare : string -> string -> Z.

Definition compare (a b : Version) : Z :=
  if negb (major a =? major b) then major a - major b
  else if negb (minor a =? minor b) then minor a - minor b
  else if negb (patch a =? patch b) then patch a - patch b
  else if truthy (prerelease a) && negb (truthy (prerelease b)) then -1
  else if negb (truthy (prerelease a)) && truthy (prerelease b) then 1
  else if truthy (prerelease a) && truthy (prerelease b) then
    match prerelease a, prerelease b with
    | Some ta, Some tb => localeCompare ta tb
    | _, _ => 0
    end
  else 0.

Definition equal (a b : string) : bool :=
  match parse a, parse b with
  | Some pa, Some pb => compare pa pb =? 0
  | _, _ => false
  end.

Definition satisfies (version range : string) : bool :=
  if Str.isEmpty version || Str.isEmpty range then false
  else match parse version with
  | None => false
  | Some v =>
    if negb (hasRangeOperator range) then
      match parse range with
      | Some r => compare v r =? 0
      | None => false
      end
    else if Str.startsWith "^" range then
      match parse (Str.slice 1 range) with
      | None => false
      | Some r =>
          if negb (major v =? major r) then false
          else if major r =? 0 then
            if negb (minor v =? minor r) then false
            else if minor r =? 0 then patch r <=? patch v
            else 0 <=? compare v r
          else 0 <=? compare v r
      end
    else if Str.startsWith "~" range then
      match parse (Str.slice 1 range) with
      | None => false
      | Some r =>
          if negb (major v =? major r) || negb (minor v =? minor r) then false
          else patch r <=? patch v
      end
    else if Str.startsWith ">=" range then
      match parse (Str.slice 2 range) with
      | Some r => 0 <=? compare v r
      | None => false
      end
    else if Str.startsWith "<=" range then
      match parse (Str.slice 2 range) with
      | Some r => compare v r <=? 0
      | None => false
      end
    else if Str.startsWith ">" range then
      match parse (Str.slice 1 range) with
      | Some r => 0 <? compare v r
      | None => false
      end
    else if Str.startsWith "<" range then
      match parse (Str.slice 1 range) with
      | Some r => compare v r <? 0
      | None => false
      end
    else if Str.startsWith "=" range then
      match parse (Str.slice 1 range) with
      | Some r => compare v r =? 0
      | None => false
      end
    else if isStarOrX range then true
    else match wildcardMatch range with
    | Some (g1, g3) =>
        if negb (major v =? Str.parseInt g1) then false
        else match g3 with
        | None => true
        | Some d => minor v =? Str.parseInt d
        end
    | None => false
    end
  end.

End WithCollation.

Definition isExactVersion (versionSpec : string) : bool :=
  if Str.isEmpty versionSpec then false
  else if hasRangeOperator versionSpec then false
  else match parse versionSpec with Some _ => true | None => false end.

End Semver.


(** ** The IoC table of the Node.js implementation ([ioc.js]) *)

Module NodeIoc.

Definition trim (s : string) : string := Str.trimWith Str.isSpaceJS s.

(** [s.replace(/^=\s*/, '')] *)
Definition stripEquals (s : string) : string :=
  match s with
  | String "=" s' => Str.dropWhile Str.isSpaceJS s'
  | _ => s
  end.

(** [versions.push(version)] on the array stored under [pkgName]: the array
    is shared with the map, so the push is an update of the map. *)
Definition push (pkgName version : string) (iocMap : gmap string (list string))
  : gmap string (list string) :=
  alter (fun versions => (versions ++ [version])%list) pkgName iocMap.

(** The body of [for (const versionPart of versionParts)]. *)
Definition addVersionPart (pkgName : string) (iocMap : gmap string (list string))
  (versionPart : string) : gmap string (list string) :=
  let version := trim (stripEquals versionPart) in
  if Str.isEmpty version then iocMap else push pkgName version iocMap.

(** The body of the loop over the lines of the CSV text. *)
Definition addLine (iocMap : gmap string (list string)) (rawLine : string)
  : gmap string (list string) :=
  let line := trim rawLine in
  if Str.isEmpty line then iocMap
  else match Str.splitChar "," line with
  | packageName :: versionSpec :: _ =>
      if Str.isEmpty packageName || Str.isEmpty versionSpec then iocMap
      else
        let pkgName := trim packageName in
        let versionParts := map trim (Str.splitBars versionSpec) in
        let iocMap1 :=
          match iocMap !! pkgName with
          | Some _ => iocMap
          | None => <[pkgName := []]> iocMap
          end in
        fold_left (addVersionPart pkgName) versionParts iocMap1
  | _ => iocMap
  end.

Definition newline : ascii := ascii_of_nat 10.

(** [parseIoCCsv(csvText)]: the header line is skipped. *)
Definition parseIoCCsv (csvText : string) : gmap string (list string) :=
  fold_left addLine (tail (Str.splitChar newline csvText)) ∅.

End NodeIoc.

(** ** The classifier of the Node.js implementation ([matcher.js]) *)

Module NodeMatcher.

Record Dependency : Type := mkDependency {
  name : string;
  versionSpec : string;
  type : string;
  filePath : string
}.

Record ResolvedPackage : Type := mkResolvedPackage {
  pkgName : string;
  pkgVersion : string;
  lockfilePath : string
}.

Record Match : Type := mkMatch {
  packageName : string;
  version : string;
  severity : string;
  location : string;
  declaredSpec : option string
}.

Section WithCollation.

Variable localeCompare : string -> string -> Z.

(** The loop over [iocVersions] of [matchDirectDependencies], which ends at
    the first version equal to the declared one. *)
Fixpoint directLoop (dep : Dependency) (cleanedSpec : string)
  (iocVersions : list string) : list Match :=
  match iocVersions with
  | [] => []
  | iocVersion :: rest =>
      if Semver.equal localeCompare cleanedSpec iocVersion
      then [mkMatch (name dep) iocVersion "DIRECT" (filePath dep) None]
      else directLoop dep cleanedSpec rest
  end.

Definition matchDirectDependencies (dependencies : list Dependency)
  (iocMap : gmap string (list string)) : list Match :=
  flat_map (fun dep =>
    match iocMap !! name dep with
    | None | Some [] => []
    | Some iocVersions =>
        if Semver.isExactVersion (versionSpec dep)
        then directLoop dep (Semver.stripV (versionSpec dep)) iocVersions
        else []
    end) dependencies.

(** The loop over [iocVersions] of [matchPotentialDependencies]: the [break]
    after the push ends it at the first version that satisfies the range. *)
Fixpoint potentialLoop (dep : Dependency) (iocVersions : list string)
  : list Match :=
  match iocVersions with
  | [] => []
  | iocVersion :: rest =>
      if Semver.satisfies localeCompare iocVersion (versionSpec dep)
      then [mkMatch (name dep) iocVersion "POTENTIAL" (filePath dep)
                    (Some (versionSpec dep))]
      else potentialLoop dep rest
  end.

Definition matchPotentialDependencies (dependencies : list Dependency)
  (iocMap : gmap string (list string)) : list Match :=
  flat_map (fun dep =>
    match iocMap !! name dep with
    | None | Some [] => []
    | Some iocVersions =>
        if Semver.isExactVersion (versionSpec dep) then []
        else potentialLoop dep iocVersions
    end) dependencies.

Fixpoint transitiveLoop (pkg : ResolvedPackage) (iocVersions : list string)
  : list Match :=
  match iocVersions with
  | [] => []
  | iocVersion :: rest =>
      if Semver.equal localeCompare (pkgVersion pkg) iocVersion
      then [mkMatch (pkgName pkg) (pkgVersion pkg) "TRANSITIVE"
                    (lockfilePath pkg) None]
      else transitiveLoop pkg rest
  end.

Definition matchTransitiveDependencies (resolvedPackages : list ResolvedPackage)
  (iocMap : gmap string (list string)) : list Match :=
  flat_map (fun pkg =>
    match iocMap !! pkgName pkg with
    | None | Some [] => []
    | Some iocVersions => transitiveLoop pkg iocVersions
    end) resolvedPackages.

End WithCollation.

End NodeMatcher.

(** ** The IoC database of the Go implementation ([go/pkg/ioc]) *)

Module GoIoc.

(** A Go string is a sequence of bytes, and [strings.TrimSpace] removes
    the white space of Unicode: the ASCII one, and the characters that UTF-8
    writes on two or three bytes, here with the bytes in decimal: U+0085 and
    U+00A0 (194 133, 194 160), U+1680 (225 154 128), U+2000 to U+200A
    (226 128 128 to 226 128 138), U+2028, U+2029 and U+202F (226 128 168,
    226 128 169, 226 128 175), U+205F (226 129 159) and U+3000
    (227 128 128).  Bytes that are not the encoding of a character are not
    white space. *)
Definition isSpaceRune2 (b1 b2 : ascii) : bool :=
  ((Str.code b1 =? 194) && ((Str.code b2 =? 133) || (Str.code b2 =? 160)))%N.

Definition isSpaceRune3 (b1 b2 b3 : ascii) : bool :=
  ((Str.code b1 =? 225) && (Str.code b2 =? 154) && (Str.code b3 =? 128)
   || (Str.code b1 =? 226) && (Str.code b2 =? 128)
      && ((128 <=? Str.code b3) && (Str.code b3 <=? 138)
          || (Str.code b3 =? 168) || (Str.code b3 =? 169)
          || (Str.code b3 =? 175))
   || (Str.code b1 =? 226) && (Str.code b2 =? 129) && (Str.code b3 =? 159)
   || (Str.code b1 =? 227) && (Str.code b2 =? 128) && (Str.code b3 =? 128))%N.

(** The bytes left when the white space at the beginning is removed; [is2]
    and [is3] tell the white space written on two and on three bytes. *)
Fixpoint trimLeftBytes (is2 : ascii -> ascii -> bool)
  (is3 : ascii -> ascii -> ascii -> bool) (l : list ascii) : list ascii :=
  match l with
  | [] => []
  | b1 :: l1 =>
      if Str.isSpaceGo b1 then trimLeftBytes is2 is3 l1
      else match l1 with
      | b2 :: l2 =>
          if is2 b1 b2 then trimLeftBytes is2 is3 l2
          else match l2 with
          | b3 :: l3 =>
              if is3 b1 b2 b3 then trimLeftBytes is2 is3 l3 else l
          | [] => l
          end
      | [] => l
      end
  end.

(** [strings.TrimLeftFunc(s, unicode.IsSpace)] *)
Definition TrimLeftSpace (l : list ascii) : list ascii :=
  trimLeftBytes isSpaceRune2 isSpaceRune3 l.

(** [strings.TrimRightFunc(s, unicode.IsSpace)]: the characters are read
    from the end, last byte first. *)
Definition TrimRightSpace (l : list ascii) : list ascii :=
  rev (trimLeftBytes (fun b2 b1 => isSpaceRune2 b1 b2)
         (fun b3 b2 b1 => isSpaceRune3 b1 b2 b3) (rev l)).

Definition TrimSpace (s : string) : string :=
  string_of_list_ascii
    (TrimRightSpace (TrimLeftSpace (list_ascii_of_string s))).

(** What one call of [reader.Read()] of [encoding/csv] returns before the end
    of the input: a record, or an error.  The reader is used as
    [csv.NewReader] makes it: it passes over empty lines, and it reports as
    an error ([ErrFieldCount]) a record whose number of fields is not the
    one of the first record. *)
Inductive ReadResult : Type :=
| Fields (record : list string)
| ReadError (err : string).

Inductive Result (A : Type) : Type :=
| Ok (a : A)
| Err (err : string).
Arguments Ok {A} a.
Arguments Err {A} err.

(** The loop of [ParseCSV] over the records that follow the header. *)
Fixpoint parseRecords (iocMap : gmap string (list string))
  (reads : list ReadResult) : Result (gmap string (list string)) :=
  match reads with
  | [] => Ok iocMap
  | ReadError err :: _ => Err ("read CSV record: " +:+ err)
  | Fields record :: rest =>
      match record with
      | field0 :: field1 :: _ =>
          let packageName := TrimSpace field0 in
          let versionSpec := TrimSpace field1 in
          if Str.isEmpty packageName || Str.isEmpty versionSpec
          then parseRecords iocMap rest
          else
            let version := TrimSpace (Str.trimPrefix versionSpec "=") in
            parseRecords
              (<[packageName := (default [] (iocMap !! packageName) ++ [version])%list]> iocMap)
              rest
      | _ => parseRecords iocMap rest
      end
  end.

(** [ParseCSV(data)], on the sequence of results the CSV reader yields for
    [data]; the first one is the header row. *)
Definition ParseCSV (reads : list ReadResult) : Result (gmap string (list string)) :=
  match reads with
  | [] => Ok ∅
  | ReadError err :: _ => Err ("read CSV header: " +:+ err)
  | Fields _ :: rest => parseRecords ∅ rest
  end.

Record Database : Type := mkDatabase { ioc : gmap string (list string) }.

Definition NewDatabase (reads : list ReadResult) : Result Database :=
  match ParseCSV reads with
  | Ok iocMap => Ok (mkDatabase iocMap)
  | Err err => Err ("parse CSV: " +:+ err)
  end.

Definition Lookup (d : Database) (pkg ver : string) : bool :=
  match ioc d !! pkg with
  | None => false
  | Some versions => existsb (fun v => String.eqb v ver) versions
  end.

Definition Count (d : Database) : nat := size (ioc d).

Definition Size (d : Database) : nat :=
  map_fold (fun _ versions acc => (acc + length versions)%nat) 0%nat (ioc d).

(** [GetVersions]: [nil] is [None]. *)
Definition GetVersions (d : Database) (pkg : string) : option (list string) :=
  ioc d !! pkg.

End GoIoc.

(** ** More of Go's [strings] package *)

Module GoStrings.

(** [s[:n]] *)
Fixpoint take (n : nat) (s : string) : string :=
  match n, s with
  | S n', String c s' => String c (take n' s')
  | _, _ => EmptyString
  end.

Definition HasSuffix (s suffix : string) : bool :=
  Nat.leb (String.length suffix) (String.length s)
  && String.eqb (Str.slice (String.length s - String.length suffix) s) suffix.

Definition TrimSuffix (s suffix : string) : string :=
  if HasSuffix s suffix
  then take (String.length s - String.length suffix) s
  else s.

(** [strings.Trim(s, cutset)] *)
Definition Trim (s cutset : string) : string :=
  Str.trimWith (fun c => Str.existsb (Ascii.eqb c) cutset) s.

(** [strings.Contains(s, sub)] for [sub] of one byte. *)
Definition ContainsByte (s : string) (b : ascii) : bool :=
  Str.existsb (Ascii.eqb b) s.

(** [strings.LastIndex(s, sub)] for [sub] of one byte; [None] is -1. *)
Fixpoint LastIndexByte (s : string) (b : ascii) : option nat :=
  match s with
  | EmptyString => None
  | String c s' =>
      match LastIndexByte s' b with
      | Some i => Some (S i)
      | None => if Ascii.eqb c b then Some O else None
      end
  end.

Fixpoint mapBytes (f : ascii -> ascii) (s : string) : string :=
  match s with
  | EmptyString => EmptyString
  | String c s' => String (f c) (mapBytes f s')
  end.

(** [strings.ReplaceAll(s, old, new)] for [old] and [new] of one byte. *)
Definition ReplaceAllByte (s : string) (old new : ascii) : string :=
  mapBytes (fun c => if Ascii.eqb c old then new else c) s.

(** [strings.Split(s, sep)] for [sep] made of the two bytes [a] and [b]:
    the separators are found from left to right and do not overlap. *)
Fixpoint splitPair (a b : ascii) (s : string) : list string :=
  match s with
  | EmptyString => [EmptyString]
  | String c s' =>
      match s' with
      | String c' s'' =>
          if Ascii.eqb c a && Ascii.eqb c' b
          then EmptyString :: splitPair a b s''
          else Str.consHead c (splitPair a b s')
      | EmptyString => [String c EmptyString]
      end
  end.

End GoStrings.

(** ** The lockfile parsers of the Go implementation ([go/pkg/parser]) *)

Module GoLockfile.

(** A value decoded from JSON into [interface{}]; an object is the list of
    its members, whose names are distinct, and a number is kept as it is
    written. *)
#[local] Unset Elimination Schemes.
Inductive JSON : Type :=
| JNull
| JBool (b : bool)
| JNumber (literal : string)
| JString (s : string)
| JArray (items : list JSON)
| JObject (members : list (string * JSON)).
#[local] Set Elimination Schemes.

Record PackageInfo : Type := mkPackageInfo {
  InfoVersion : string;
  InfoDependencies : list (string * JSON)
}.

Record Lockfile : Type := mkLockfile {
  LockfileVersion : Z;
  Packages : gmap string PackageInfo;
  Dependencies : gmap string PackageInfo
}.

Record ResolvedPackage : Type := mkResolvedPackage {
  Name : string;
  Version : string;
  LockfilePath : string
}.

(** [m[key]] on a decoded object. *)
Fixpoint member (key : string) (members : list (string * JSON)) : option JSON :=
  match members with
  | [] => None
  | (k, v) :: rest => if String.eqb k key then Some v else member key rest
  end.

(** [version, _ := nested["version"].(string)] *)
Definition versionMember (nested : list (string * JSON)) : string :=
  match member "version" nested with
  | Some (JString s) => s
  | _ => EmptyString
  end.

(** What [extractDepsRecursive] appends for the member [k] of the
    dependencies of a package: the member is kept when it is an object, as
    the package info whose version is its string member [version] and whose
    dependencies are the members of the object itself; a package info
    without version is passed over with all below it. *)
Fixpoint nestedPackages (filePath k : string) (v : JSON) {struct v}
  : list ResolvedPackage :=
  match v with
  | JObject nested =>
      let version := versionMember nested in
      if Str.isEmpty version then []
      else
        mkResolvedPackage k version filePath
        :: (fix members (l : list (string * JSON)) : list ResolvedPackage :=
              match l with
              | [] => []
              | (k', v') :: l' =>
                  (nestedPackages filePath k' v' ++ members l')%list
              end) nested
  | _ => []
  end.

(** [extractDepsRecursive(deps, &packages, filePath)] on the entries of
    [deps], in the order the map is traversed. *)
Definition extractDepsRecursive (deps : list (string * PackageInfo))
  (filePath : string) : list ResolvedPackage :=
  flat_map (fun '(name, info) =>
    if Str.isEmpty (InfoVersion info) then []
    else
      mkResolvedPackage name (InfoVersion info) filePath
      :: flat_map (fun '(k, v) => nestedPackages filePath k v)
           (InfoDependencies info))
    deps.

(** [ExtractResolvedPackages(lockfile, filePath)].  Go leaves the order in
    which a map is traversed unspecified; the model takes the one of
    [map_to_list]. *)
Definition ExtractResolvedPackages (lockfile : Lockfile) (filePath : string)
  : list ResolvedPackage :=
  if negb (Nat.eqb (size (Packages lockfile)) 0) then
    flat_map (fun '(pkgPath, pkgInfo) =>
      if Str.isEmpty pkgPath || String.eqb pkgPath "." then []
      else if Str.isEmpty (InfoVersion pkgInfo) then []
      else [mkResolvedPackage (Str.trimPrefix pkgPath "node_modules/")
              (InfoVersion pkgInfo) filePath])
      (map_to_list (Packages lockfile))
  else if negb (Nat.eqb (size (Dependencies lockfile)) 0) then
    extractDepsRecursive (map_to_list (Dependencies lockfile)) filePath
  else [].

(** White space of the regular expressions of Go ([\s]). *)
Definition isSpaceRE (c : ascii) : bool :=
  ((Str.code c =? 9) || (Str.code c =? 10) || (Str.code c =? 12)
   || (Str.code c =? 13) || (Str.code c =? 32))%N.

Definition quote : ascii := ascii_of_nat 34.

Definition isQuote (c : ascii) : bool := Ascii.eqb c quote.

(** The first group of the match of the pattern of [extractVersionFromEntry]
    on a line: white space, the word [version], white space that is not
    empty, and between two double quotes a text without double quote that
    is not empty. *)
Definition versionSubmatch (line : string) : option string :=
  let rest := Str.dropWhile isSpaceRE line in
  if Str.startsWith "version" rest then
    let '(spaces, rest1) := Str.span isSpaceRE (Str.slice 7 rest) in
    if Str.isEmpty spaces then None
    else match rest1 with
    | String c rest2 =>
        if isQuote c then
          let '(version, rest3) := Str.span (fun x => negb (isQuote x)) rest2 in
          if Str.isEmpty version then None
          else match rest3 with
          | String _ _ => Some version
          | EmptyString => None
          end
        else None
    | EmptyString => None
    end
  else None.

Fixpoint extractVersionFromEntry (lines : list string) : string :=
  match lines with
  | [] => EmptyString
  | line :: rest =>
      match versionSubmatch line with
      | Some version => version
      | None => extractVersionFromEntry rest
      end
  end.

Definition extractPackageName (header : string) : string :=
  let header := GoStrings.TrimSuffix header ":" in
  let header := GoIoc.TrimSpace header in
  let header := GoStrings.Trim header (String quote EmptyString) in
  let header :=
    if GoStrings.ContainsByte header ","
    then GoStrings.Trim
           (GoIoc.TrimSpace (hd EmptyString (Str.splitChar "," header)))
           (String quote EmptyString)
    else header in
  match GoStrings.LastIndexByte header "@" with
  | None => EmptyString
  | Some O => EmptyString
  | Some lastAtIndex => GoStrings.take lastAtIndex header
  end.

Definition newline : ascii := ascii_of_nat 10.

(** The body of the loop of [ParseYarnLock] over the entries of the
    file. *)
Definition yarnEntry (path rawEntry : string) : list ResolvedPackage :=
  let entry := GoIoc.TrimSpace rawEntry in
  if Str.isEmpty entry then []
  else
    let lines := Str.splitChar newline entry in
    let header := hd EmptyString lines in
    if Str.startsWith "#" header || Str.startsWith "__metadata" header then []
    else
      let nameMatch := extractPackageName header in
      if Str.isEmpty nameMatch then []
      else
        let version := extractVersionFromEntry lines in
        if Str.isEmpty version then []
        else [mkResolvedPackage nameMatch version path].

(** [ParseYarnLock(path)], on the content read from the file. *)
Definition ParseYarnLock (content path : string) : list ResolvedPackage :=
  flat_map (yarnEntry path) (GoStrings.splitPair newline newline content).

End GoLockfile.

(** ** The classifier and the deduplicator of the Go implementation
    ([go/pkg/matcher], [go/pkg/parser], [go/pkg/formatter]) *)

Module GoMatcher.

Record Dependency : Type := mkDependency {
  Name : string;
  VersionSpec : string;
  Type_ : string;
  FilePath : string
}.

Record Manifest : Type := mkManifest {
  Dependencies : gmap string string;
  DevDependencies : gmap string string;
  PeerDependencies : gmap string string;
  OptionalDependencies : gmap string string;
  BundledDependencies : list string
}.

Definition SeverityDirect : string := "DIRECT".
Definition SeverityTransitive : string := "TRANSITIVE".
Definition SeverityPotential : string := "POTENTIAL".

Record Match : Type := mkMatch {
  PackageName : string;
  Version : string;
  Severity : string;
  Location : string;
  DeclaredSpec : string
}.

(** The dependencies of one section of the manifest.  Go leaves the order
    in which a map is traversed unspecified; the model takes the one of
    [map_to_list] inside a section, and for the sections, which the source
    also holds in a map, the order in which the source writes them. *)
Definition sectionDependencies (depType filePath : string)
  (deps : gmap string string) : list Dependency :=
  flat_map (fun '(name, versionSpec) =>
    if Str.isEmpty name || Str.isEmpty versionSpec then []
    else [mkDependency name versionSpec depType filePath])
    (map_to_list deps).

Definition ExtractDependencies (manifest : Manifest) (filePath : string)
  : list Dependency :=
  (sectionDependencies "dependencies" filePath (Dependencies manifest)
   ++ sectionDependencies "devDependencies" filePath (DevDependencies manifest)
   ++ sectionDependencies "peerDependencies" filePath (PeerDependencies manifest)
   ++ sectionDependencies "optionalDependencies" filePath
        (OptionalDependencies manifest)
   ++ flat_map (fun name =>
        if Str.isEmpty name then []
        else [mkDependency name "" "bundledDependencies" filePath])
        (BundledDependencies manifest))%list.

Definition cleanVersionSpec (spec : string) : string :=
  let spec := GoIoc.TrimSpace spec in
  let spec := Str.trimPrefix spec "^" in
  let spec := Str.trimPrefix spec "~" in
  let spec := Str.trimPrefix spec ">=" in
  let spec := Str.trimPrefix spec "<=" in
  let spec := Str.trimPrefix spec ">" in
  let spec := Str.trimPrefix spec "<" in
  let spec := Str.trimPrefix spec "=" in
  GoIoc.TrimSpace spec.

(** [strings.ContainsAny(s, chars)] *)
Definition ContainsAny (s chars : string) : bool :=
  Str.existsb (fun c => Str.existsb (Ascii.eqb c) chars) s.

Definition isNonSemverSpec (spec : string) : bool :=
  Str.startsWith "file:" spec || Str.startsWith "git:" spec
  || Str.startsWith "http:" spec || Str.startsWith "https:" spec
  || String.eqb spec "latest".

Section WithSemverLibrary.

(** The semver library the Go implementation imports
    ([github.com/Masterminds/semver/v3]) is not part of the repository: its
    types and the three functions the matcher calls are parameters. *)
Context {SemVersion : Type} {Constraints : Type}.
Variable NewVersion : string -> option SemVersion.
Variable NewConstraint : string -> option Constraints.
Variable Validate : Constraints -> SemVersion -> bool * list string.

Definition isExactVersion (spec : string) : bool :=
  let spec := GoIoc.TrimSpace spec in
  if ContainsAny spec "^~><*|" then false
  else if isNonSemverSpec spec || Str.isEmpty spec then false
  else match NewVersion spec with Some _ => true | None => false end.

Definition isSemverRange (spec : string) : bool :=
  let spec := GoIoc.TrimSpace spec in
  if isNonSemverSpec spec || String.eqb spec "*" || Str.isEmpty spec then false
  else match NewConstraint spec with Some _ => true | None => false end.

Definition versionSatisfiesRange (version rangeSpec : string) : bool :=
  match NewVersion version with
  | None => false
  | Some v =>
      match NewConstraint rangeSpec with
      | None => String.eqb version (cleanVersionSpec rangeSpec)
      | Some constraint =>
          let '(valid, errs) := Validate constraint v in
          match errs with
          | [] => valid
          | _ :: _ => false
          end
      end
  end.

Definition MatchDirect (manifest : Manifest) (iocDB : GoIoc.Database)
  (filePath : string) : list Match :=
  flat_map (fun dep =>
    let version := cleanVersionSpec (VersionSpec dep) in
    if isExactVersion (VersionSpec dep) && GoIoc.Lookup iocDB (Name dep) version
    then [mkMatch (Name dep) version SeverityDirect (FilePath dep) ""]
    else [])
    (ExtractDependencies manifest filePath).

(** The body of the loop of [MatchPotential] over the dependencies. *)
Definition potentialMatches (iocDB : GoIoc.Database) (dep : Dependency)
  : list Match :=
  if isExactVersion (VersionSpec dep) then []
  else if negb (isSemverRange (VersionSpec dep)) then []
  else match GoIoc.GetVersions iocDB (Name dep) with
  | None => []
  | Some vulnerableVersions =>
      flat_map (fun vulnVer =>
        if versionSatisfiesRange vulnVer (VersionSpec dep)
        then [mkMatch (Name dep) vulnVer SeverityPotential (FilePath dep)
                      (VersionSpec dep)]
        else [])
        vulnerableVersions
  end.

Definition MatchPotential (manifest : Manifest) (iocDB : GoIoc.Database)
  (filePath : string) : list Match :=
  flat_map (potentialMatches iocDB) (ExtractDependencies manifest filePath).

End WithSemverLibrary.

Definition MatchTransitive (lockfile : GoLockfile.Lockfile)
  (iocDB : GoIoc.Database) (filePath : string) : list Match :=
  flat_map (fun pkg =>
    let version := cleanVersionSpec (GoLockfile.Version pkg) in
    if GoIoc.Lookup iocDB (GoLockfile.Name pkg) version
    then [mkMatch (GoLockfile.Name pkg) version SeverityTransitive
            (GoLockfile.LockfilePath pkg) EmptyString]
    else [])
    (GoLockfile.ExtractResolvedPackages lockfile filePath).

(** [fmt.Sprintf("%s@%s:%s", match.PackageName, match.Version, match.Severity)] *)
Definition matchKey (m : Match) : string :=
  PackageName m +:+ "@" +:+ Version m +:+ ":" +:+ Severity m.

(** The loop of [DeduplicateMatches]: [seen] is the map of the keys met so
    far and [result] the slice built so far. *)
Fixpoint dedupLoop (seen : gmap string bool) (result : list Match)
  (matches : list Match) : list Match :=
  match matches with
  | [] => result
  | m :: rest =>
      let key := matchKey m in
      if negb (default false (seen !! key))
      then dedupLoop (<[key := true]> seen) (result ++ [m])%list rest
      else dedupLoop seen result rest
  end.

Definition DeduplicateMatches (matches : list Match) : list Match :=
  dedupLoop ∅ [] matches.

End GoMatcher.

(** ** The scanner, the formatter and the bulk mode of the Go implementation
    ([go/pkg/scanner], [go/pkg/formatter], [go/pkg/bulk]) *)

Module GoScanner.

Definition isYarnLockfile (path : string) : bool :=
  Nat.leb 9 (String.length path)
  && String.eqb (Str.slice (String.length path - 9) path) "yarn.lock".

Definition convertYarnToLockfile
  (resolvedPackages : list GoLockfile.ResolvedPackage) : GoLockfile.Lockfile :=
  GoLockfile.mkLockfile 1
    (fold_left (fun packages pkg =>
       <["node_modules/" +:+ GoLockfile.Name pkg :=
           GoLockfile.mkPackageInfo (GoLockfile.Version pkg) []]> packages)
       resolvedPackages ∅)
    ∅.

(** What [RunScan] does with the packages of a yarn.lock file. *)
Definition yarnTransitiveMatches (yarnPackages : list GoLockfile.ResolvedPackage)
  (iocDB : GoIoc.Database) (lockfilePath : string) : list GoMatcher.Match :=
  GoMatcher.MatchTransitive (convertYarnToLockfile yarnPackages) iocDB
    lockfilePath.

End GoScanner.

Module GoFormatter.

Definition filterBySeverity (matches : list GoMatcher.Match) (severity : string)
  : list GoMatcher.Match :=
  List.filter (fun m => String.eqb (GoMatcher.Severity m) severity) matches.

End GoFormatter.

Module GoBulk.

Definition sanitizePath (path : string) : string :=
  let sanitized := GoStrings.ReplaceAllByte path "/" "-" in
  let sanitized := GoStrings.ReplaceAllByte sanitized "\" "-" in
  let sanitized := GoStrings.ReplaceAllByte sanitized " " "_" in
  let sanitized := GoStrings.Trim sanitized "-" in
  if Str.isEmpty sanitized then "root" else sanitized.

(** [readPathsFile], on the lines the scanner of the file yields. *)
Definition readPathsFile (lines : list string) : list string :=
  flat_map (fun text =>
    let line := GoIoc.TrimSpace text in
    if negb (Str.isEmpty line) && negb (Str.startsWith "#" line)
    then [line] else [])
    lines.

End GoBulk.

(** ** The bulk mode of the Node.js implementation ([bulk.js]) *)

Module NodeBulk.

Definition isSlash (c : ascii) : bool := Ascii.eqb c "/".

Definition isHyphen (c : ascii) : bool := Ascii.eqb c "-".

(** The class [[a-zA-Z0-9-_.]]. *)
Definition isNameChar (c : ascii) : bool :=
  Str.isLower c || Str.isUpper c || Str.isDigit c
  || Ascii.eqb c "-" || Ascii.eqb c "_" || Ascii.eqb c ".".

(** [s.replace(/-+/g, '-')] *)
Fixpoint collapseHyphens (s : string) : string :=
  match s with
  | EmptyString => EmptyString
  | String c s' =>
      if isHyphen c then
        match s' with
        | String c' _ =>
            if isHyphen c' then collapseHyphens s'
            else String c (collapseHyphens s')
        | EmptyString => String c EmptyString
        end
      else String c (collapseHyphens s')
  end.

(** [toLowerCase] on the characters that are left when it is applied. *)
Definition toLower (c : ascii) : ascii :=
  if Str.isUpper c then ascii_of_N (Str.code c + 32) else c.

Definition sanitizePathForDirectory (fullPath : string) : string :=
  let s := Str.dropWhile isSlash fullPath in
  let s := Str.dropWhileEnd isSlash s in
  let s := GoStrings.mapBytes (fun c => if isSlash c then "-"%char else c) s in
  let s := GoStrings.mapBytes (fun c => if isNameChar c then c else "-"%char) s in
  let s := collapseHyphens s in
  GoStrings.mapBytes toLower s.

End NodeBulk.

(** ** The range specifier of the specification

    The specification describes [satisfies] in two steps: a specifier text
    is first read as a tagged variant, then the variant is evaluated on a
    version.  The two steps are written here after the specification, to be
    compared with [Semver.satisfies]. *)

Module RangeSpec.

Import Semver.

Inductive Op : Type := OpGE | OpLE | OpGT | OpLT | OpEQ.

Inductive RangeSpecifier : Type :=
| Exact (r : Version)
| Caret (r : Version)
| Tilde (r : Version)
| Comparator (op : Op) (r : Version)
| Wildcard
| PartialWildcard (maj : Z) (min : option Z)
| Unparseable.

Definition withVersion (k : Version -> RangeSpecifier) (text : string)
  : RangeSpecifier :=
  match parse text with
  | Some r => k r
  | None => Unparseable
  end.

(** The variants are tried in the order the specification gives; the first
    one whose prefix fits decides. *)
Definition parseRange (text : string) : RangeSpecifier :=
  if negb (hasRangeOperator text) then withVersion Exact text
  else if Str.startsWith "^" text then withVersion Caret (Str.slice 1 text)
  else if Str.startsWith "~" text then withVersion Tilde (Str.slice 1 text)
  else if Str.startsWith ">=" text then withVersion (Comparator OpGE) (Str.slice 2 text)
  else if Str.startsWith "<=" text then withVersion (Comparator OpLE) (Str.slice 2 text)
  else if Str.startsWith ">" text then withVersion (Comparator OpGT) (Str.slice 1 text)
  else if Str.startsWith "<" text then withVersion (Comparator OpLT) (Str.slice 1 text)
  else if Str.startsWith "=" text then withVersion (Comparator OpEQ) (Str.slice 1 text)
  else if isStarOrX text then Wildcard
  else match wildcardMatch text with
  | Some (g1, None) => PartialWildcard (Str.parseInt g1) None
  | Some (g1, Some g3) => PartialWildcard (Str.parseInt g1) (Some (Str.parseInt g3))
  | None => Unparseable
  end.

Definition applyOp (op : Op) (c : Z) : bool :=
  match op with
  | OpGE => 0 <=? c
  | OpLE => c <=? 0
  | OpGT => 0 <? c
  | OpLT => c <? 0
  | OpEQ => c =? 0
  end.

Definition evalRange (localeCompare : string -> string -> Z) (v : Version)
  (spec : RangeSpecifier) : bool :=
  match spec with
  | Exact r => compare localeCompare v r =? 0
  | Caret r =>
      if negb (major r =? major v) then false
      else if major r =? 0 then
        if negb (minor r =? minor v) then false
        else if minor r =? 0 then patch r <=? patch v
        else 0 <=? compare localeCompare v r
      else 0 <=? compare localeCompare v r
  | Tilde r =>
      (major v =? major r) && (minor v =? minor r) && (patch r <=? patch v)
  | Comparator op r => applyOp op (compare localeCompare v r)
  | Wildcard => true
  | PartialWildcard maj None => major v =? maj
  | PartialWildcard maj (Some min) => (major v =? maj) && (minor v =? min)
  | Unparseable => false
  end.

(** The order of the specification on versions, with the order on the
    prerelease tags left open. *)
Definition compareSpec (tagOrder : string -> string -> comparison)
  (a b : Version) : comparison :=
  match major a ?= major b with
  | Lt => Lt
  | Gt => Gt
  | Eq =>
    match minor a ?= minor b with
    | Lt => Lt
    | Gt => Gt
    | Eq =>
      match patch a ?= patch b with
      | Lt => Lt
      | Gt => Gt
      | Eq =>
        match prerelease a, prerelease b with
        | None, None => Eq
        | Some _, None => Lt
        | None, Some _ => Gt
        | Some ta, Some tb => tagOrder ta tb
        end
      end
    end
  end.

(** The characters whose presence makes a specifier a range. *)
Definition operatorCharacters : list ascii :=
  ["^"; "~"; ">"; "<"; "="; "*"; "x"]%char.

(** The result of a comparison that returns a number: negative, zero or
    positive. *)
Definition sign (z : Z) : comparison := z ?= 0.

(** Lexicographic order on strings by the codes of their characters. *)
Fixpoint codePointOrder (a b : string) : comparison :=
  match a, b with
  | EmptyString, EmptyString => Eq
  | EmptyString, String _ _ => Lt
  | String _ _, EmptyString => Gt
  | String x a', String y b' =>
      match (Str.code x ?= Str.code y)%N with
      | Eq => codePointOrder a' b'
      | c => c
      end
  end.

End RangeSpec.

(** ** The deduplicator of the specification

    One pass over the findings with the keys seen so far: a finding whose
    key has been seen is dropped.  The specification takes the triple
    (package name, version, severity) for key. *)

Module DedupeSpec.

Import GoMatcher.

Definition tripleOf (m : Match) : string * string * string :=
  (PackageName m, Version m, Severity m).

Fixpoint dedupeBy {K : Type} `{EqDecision K} (key : Match -> K)
  (seen : list K) (findings : list Match) : list Match :=
  match findings with
  | [] => []
  | m :: rest =>
      if decide (key m ∈ seen) then dedupeBy key seen rest
      else m :: dedupeBy key (key m :: seen) rest
  end.

Definition dedupe (findings : list Match) : list Match :=
  dedupeBy tripleOf [] findings.

End DedupeSpec.

(** ** The invariant of the IoC table

    The specification asks that every package of the table has a list of
    versions that is not empty and holds no empty string. *)

Module IocInvariant.

Definition nl : string := String NodeIoc.newline "".

(** The versions of one version cell: the parts between [||], each without
    the spaces around it and without a leading [=], the empty ones left
    out. *)
Definition cellVersions (versionSpec : string) : list string :=
  List.filter (fun version => negb (Str.isEmpty version))
    (map (fun versionPart => NodeIoc.trim (NodeIoc.stripEquals versionPart))
       (map NodeIoc.trim (Str.splitBars versionSpec))).

(** A version cell of the feed: the versions, each after [= ], joined by
    [ || ]. *)
Fixpoint joinedCell (versions : list string) : string :=
  match versions with
  | [] => EmptyString
  | [v] => "= " +:+ v
  | v :: rest => "= " +:+ v +:+ " || " +:+ joinedCell rest
  end.

Definition isBar (c : ascii) : bool := Ascii.eqb c "|".

(** A version string as the feed has them: not empty, without white space
    and without [|]. *)
Definition plainVersion (v : string) : Prop :=
  Str.isEmpty v = false
  /\ Str.existsb Str.isSpaceJS v = false
  /\ Str.existsb isBar v = false.

Definition versionsNotEmpty (iocMap : gmap string (list string)) : Prop :=
  forall k vs, iocMap !! k = Some vs -> Forall (fun v => v <> "") vs.

Definition entriesNotEmpty (iocMap : gmap string (list string)) : Prop :=
  forall k vs, iocMap !! k = Some vs -> vs <> [].

End IocInvariant.

(** ** A host collation

    [localeCompare] follows the collation of the locale of the runtime.  This
    is the default (root) collation on the alphabet of prerelease tags:
    punctuation comes before digits and digits before letters, letters are
    ordered alphabetically whatever their case, and strings that differ
    by case only are ordered by their first such difference, lower case
    first. *)

Module Collation.

Definition primary (c : ascii) : N :=
  if Ascii.eqb c "-" then 1
  else if Ascii.eqb c "." then 2
  else if Str.isDigit c then 3 + (Str.code c - 48)
  else if Str.isUpper c then 13 + (Str.code c - 65)
  else if Str.isLower c then 13 + (Str.code c - 97)
  else 39 + Str.code c.

Definition tertiary (c : ascii) : N :=
  if Str.isUpper c then 1 else 0.

Fixpoint byWeight (w : ascii -> N) (a b : string) : comparison :=
  match a, b with
  | EmptyString, EmptyString => Eq
  | EmptyString, String _ _ => Lt
  | String _ _, EmptyString => Gt
  | String x a', String y b' =>
      match (w x ?= w y)%N with
      | Eq => byWeight w a' b'
      | c => c
      end
  end.

Definition toZ (c : comparison) : Z :=
  match c with Lt => -1 | Eq => 0 | Gt => 1 end.

Definition localeCompare (a b : string) : Z :=
  match byWeight primary a b with
  | Eq => toZ (byWeight tertiary a b)
  | c => toZ c
  end.

End Collation.

(** ** Shapes of texts, tables and lists used in the statements *)

Module Shape.

(** A number as the patterns write it: digits, one at least. *)
Definition allDigits (d : string) : Prop :=
  Str.isEmpty d = false
  /\ Str.existsb (fun c => negb (Str.isDigit c)) d = false.

(** A text that is not empty and that [trim] leaves as it is. *)
Definition trimmedJS (s : string) : Prop :=
  s <> EmptyString /\ NodeIoc.trim s = s.

(** A table of the Node.js implementation whose package names and versions
    are not empty and carry no white space at their ends. *)
Definition tableWellFormed (iocMap : gmap string (list string)) : Prop :=
  forall k vs, iocMap !! k = Some vs -> trimmedJS k /\ Forall trimmedJS vs.

(** A text without the character [c]. *)
Definition without (c : ascii) (s : string) : Prop :=
  Str.existsb (Ascii.eqb c) s = false.

(** The record [r] of the CSV reader lists the version [ver] for the
    package [pkg], as the Go parser reads it. *)
Definition rowLists (pkg ver : string) (r : GoIoc.ReadResult) : Prop :=
  match r with
  | GoIoc.Fields (field0 :: field1 :: _) =>
      GoIoc.TrimSpace field0 = pkg
      /\ pkg <> EmptyString
      /\ GoIoc.TrimSpace field1 <> EmptyString
      /\ GoIoc.TrimSpace (Str.trimPrefix (GoIoc.TrimSpace field1) "=") = ver
  | _ => False
  end.

(** A byte that is not of ASCII, or is white space of ASCII. *)
Definition isSpaceOrHighByte (c : ascii) : bool :=
  Str.isSpaceGo c || (128 <=? Str.code c)%N.

(** A text of ASCII characters without white space. *)
Definition asciiWithoutSpace (s : string) : Prop :=
  Str.existsb isSpaceOrHighByte s = false.

(** Bytes that do not begin with white space; [is2] and [is3] tell the
    white space written on two and on three bytes. *)
Definition noLeadingSpace (is2 : ascii -> ascii -> bool)
  (is3 : ascii -> ascii -> ascii -> bool) (l : list ascii) : bool :=
  match l with
  | [] => true
  | b1 :: l1 =>
      negb (Str.isSpaceGo b1)
      && match l1 with
         | b2 :: l2 =>
             negb (is2 b1 b2)
             && match l2 with
                | b3 :: _ => negb (is3 b1 b2 b3)
                | [] => true
                end
         | [] => true
         end
  end.

(** A version text as a manifest or a lockfile pins it: of ASCII
    characters, without white space, and not beginning with one of the
    characters [^ ~ > < =]. *)
Definition bareVersion (v : string) : Prop :=
  asciiWithoutSpace v
  /\ match v with
     | String c _ => Str.existsb (Ascii.eqb c) "^~><=" = false
     | EmptyString => True
     end.

(** A text of the header of a yarn.lock entry: of ASCII characters,
    without white space, double quote and comma. *)
Definition plainHeaderText (s : string) : Prop :=
  Str.existsb (fun c => isSpaceOrHighByte c || GoLockfile.isQuote c
                        || Ascii.eqb c ",") s = false.

(** The version of the last package called [name] in a list of resolved
    packages. *)
Definition lastVersion (name : string)
  (resolvedPackages : list GoLockfile.ResolvedPackage) : option string :=
  fold_left (fun found pkg =>
    if String.eqb (GoLockfile.Name pkg) name
    then Some (GoLockfile.Version pkg) else found)
    resolvedPackages None.

(** A text in which no hyphen follows a hyphen. *)
Fixpoint noDoubleHyphen (s : string) : bool :=
  match s with
  | String c s' =>
      match s' with
      | String c' _ =>
          negb (NodeBulk.isHyphen c && NodeBulk.isHyphen c') && noDoubleHyphen s'
      | EmptyString => true
      end
  | EmptyString => true
  end.

(** The characters of a directory name of the bulk mode of the Node.js
    implementation: [a-z], [0-9], hyphen, underscore and full stop. *)
Definition isLowerNameChar (c : ascii) : bool :=
  NodeBulk.isNameChar c && negb (Str.isUpper c).

End Shape.

(** * Properties *)

(** ** Strings *)

Module StrFacts.

Lemma isEmpty_true (s : string) : Str.isEmpty s = true <-> s = "".
Proof. destruct s; simpl; split; congruence. Qed.

Lemma isEmpty_false (s : string) : Str.isEmpty s = false <-> s <> "".
Proof. destruct s; simpl; split; congruence. Qed.

Lemma append_cons (c : ascii) (s t : string) :
  String c s +:+ t = String c (s +:+ t).
Proof. reflexivity. Qed.

Lemma append_nil_r (s : string) : s +:+ EmptyString = s.
Proof.
  induction s as [|c s IH]; [reflexivity |].
  rewrite append_cons, IH. reflexivity.
Qed.

Lemma append_assoc (s t u : string) : (s +:+ t) +:+ u = s +:+ (t +:+ u).
Proof.
  induction s as [|c s IH]; [reflexivity |].
  rewrite !append_cons, IH. reflexivity.
Qed.

Lemma existsb_exists (p : ascii -> bool) (s : string) :
  Str.existsb p s = true <-> exists c, In c (list_ascii_of_string s) /\ p c = true.
Proof.
  induction s as [|a s IH]; simpl.
  - split; [discriminate | intros (c & [] & _)].
  - rewrite orb_true_iff, IH. split.
    + intros [Ha | (c & Hc & Hp)]; [exists a | exists c]; auto.
    + intros (c & [<- | Hc] & Hp); [left | right; exists c]; auto.
Qed.

Lemma existsb_false (p : ascii -> bool) (s : string) :
  Str.existsb p s = false <-> forall c, In c (list_ascii_of_string s) -> p c = false.
Proof.
  rewrite <- not_true_iff_false, existsb_exists. split.
  - intros H c Hc. apply not_true_iff_false. intros Hp. apply H. eauto.
  - intros H (c & Hc & Hp). rewrite (H c Hc) in Hp. discriminate.
Qed.

End StrFacts.

(** ** The version model and the range evaluator *)

Module SemverFacts.

Import Semver RangeSpec.

Lemma parse_empty : parse "" = None.
Proof. reflexivity. Qed.

Lemma parse_leading_space (rest : string) : parse (String " " rest) = None.
Proof. reflexivity. Qed.

Lemma wildcardMatch_leading_space (rest : string) :
  wildcardMatch (String " " rest) = None.
Proof. reflexivity. Qed.

(** C10. [satisfies] does not trim its specifier: a specifier that begins
    with a space is satisfied by no version, although the same specifier
    without the space may be, as [" ^1.0.0"] and [" 1.2.3"] show for the
    version [1.2.3]. *)
Theorem satisfies_leading_space (localeCompare : string -> string -> Z)
  (version rest : string) :
  satisfies localeCompare version (String " " rest) = false
  /\ satisfies localeCompare "1.2.3" " ^1.0.0" = false
  /\ satisfies localeCompare "1.2.3" "^1.0.0" = true
  /\ satisfies localeCompare "1.2.3" " 1.2.3" = false
  /\ satisfies localeCompare "1.2.3" "1.2.3" = true.
Proof.
  split; [| repeat split; reflexivity].
  unfold satisfies.
  destruct version as [|a version]; [reflexivity |].
  cbn [Str.isEmpty orb].
  destruct (parse (String a version)) as [v|]; [| reflexivity].
  rewrite parse_leading_space, wildcardMatch_leading_space.
  destruct (hasRangeOperator (String " " rest)); reflexivity.
Qed.

(** C9. The exact version ["1.2.3-x"], whose prerelease tag is [x], is a
    specifier no version satisfies, itself included: it holds a character of
    the operator class, so it is not compared as an exact version, and it
    has the form of none of the ranges. *)
Theorem exact_version_with_x_satisfies_nothing :
  parse "1.2.3-x" = Some (mkVersion 1 2 3 (Some "x"))
  /\ hasRangeOperator "1.2.3-x" = true
  /\ parseRange "1.2.3-x" = Unparseable
  /\ (forall localeCompare version,
        satisfies localeCompare version "1.2.3-x" = false)
  /\ (forall localeCompare, satisfies localeCompare "1.2.3-x" "1.2.3-x" = false).
Proof.
  assert (H : forall lc version, satisfies lc version "1.2.3-x" = false).
  { intros lc version. unfold satisfies.
    destruct version as [|a version]; [reflexivity |].
    cbn [Str.isEmpty orb].
    destruct (parse (String a version)) as [v|]; reflexivity. }
  split; [reflexivity |]. split; [reflexivity |]. split; [reflexivity |].
  split; [exact H | intros lc; apply H].
Qed.

Lemma span_head (p : ascii -> bool) (s d r : string) :
  Str.span p s = (d, r) ->
  Str.isEmpty d = false ->
  exists c s', s = String c s' /\ p c = true.
Proof.
  destruct s as [|c s']; cbn [Str.span].
  - intros [= <- <-]. discriminate.
  - destruct (p c) eqn:Hc.
    + intros _ _. eauto.
    + intros [= <- <-]. discriminate.
Qed.

Lemma stripV_other (c : ascii) (rest : string) :
  c <> "v"%char -> stripV (String c rest) = String c rest.
Proof.
  intros Hc. destruct c as [[] [] [] [] [] [] [] []]; try reflexivity.
  elim Hc. reflexivity.
Qed.

Lemma digit_not_operator (c : ascii) :
  Str.isDigit c = true -> isRangeOperator c = false.
Proof.
  destruct c as [[] [] [] [] [] [] [] []]; try discriminate; reflexivity.
Qed.

Lemma isStarOrX_head (c : ascii) (rest : string) :
  isRangeOperator c = false -> isStarOrX (String c rest) = false.
Proof.
  unfold isRangeOperator, isStarOrX. rewrite !orb_false_iff.
  intros [[_ Hstar] Hx]. cbn [String.eqb]. rewrite Hstar, Hx. split; reflexivity.
Qed.

Lemma startsWith_head (a c : ascii) (pre rest : string) :
  Ascii.eqb c a = false ->
  Str.startsWith (String a pre) (String c rest) = false.
Proof.
  intros H. cbn [Str.startsWith]. rewrite Ascii.eqb_sym, H. reflexivity.
Qed.

(** A specifier whose first character is not of the operator class and that
    the wildcard pattern does not match, but that holds a character of the
    operator class further on, is satisfied by no version. *)
Lemma satisfies_operator_inside (localeCompare : string -> string -> Z)
  (version : string) (c : ascii) (rest : string) :
  isRangeOperator c = false ->
  hasRangeOperator (String c rest) = true ->
  wildcardMatch (String c rest) = None ->
  satisfies localeCompare version (String c rest) = false.
Proof.
  intros Hc Hop Hwild. unfold satisfies.
  destruct version as [|a version]; [reflexivity |].
  cbn [Str.isEmpty orb].
  destruct (parse (String a version)) as [v|]; [| reflexivity].
  rewrite Hop, Hwild, (isStarOrX_head _ _ Hc). cbn [negb].
  unfold isRangeOperator in Hc. rewrite !orb_false_iff in Hc.
  destruct Hc as [[[[[[Htilde Hcaret] Hgt] Hlt] Heq] _] _].
  rewrite !startsWith_head by assumption. reflexivity.
Qed.

(** Every version text that holds a character of the operator class, as a
    prerelease tag with an [x] does, is a specifier no version satisfies. *)
Lemma version_text_with_operator_satisfies_nothing
  (localeCompare : string -> string -> Z) (version s : string) (r : Version) :
  parse s = Some r ->
  hasRangeOperator s = true ->
  satisfies localeCompare version s = false.
Proof.
  intros Hparse Hop.
  destruct s as [|c rest]; [discriminate |].
  destruct (Ascii.eqb_spec c "v") as [-> | Hv].
  - apply satisfies_operator_inside; [reflexivity | exact Hop | reflexivity].
  - revert Hparse. unfold parse. cbn [Str.isEmpty].
    rewrite (stripV_other _ _ Hv).
    destruct (Str.span Str.isDigit (String c rest)) as [d1 r1] eqn:H1.
    destruct (Str.isEmpty d1) eqn:E1; [discriminate |].
    destruct r1 as [|c1 r1]; [discriminate |].
    destruct (Ascii.eqb_spec c1 ".") as [-> | Hc1];
      [| destruct c1 as [[] [] [] [] [] [] [] []]; try discriminate;
         elim Hc1; reflexivity].
    destruct (Str.span Str.isDigit r1) as [d2 r2] eqn:H2.
    destruct (Str.isEmpty d2) eqn:E2; [discriminate |].
    destruct r2 as [|c2 r2]; [discriminate |].
    destruct (Ascii.eqb_spec c2 ".") as [-> | Hc2];
      [| destruct c2 as [[] [] [] [] [] [] [] []]; try discriminate;
         elim Hc2; reflexivity].
    destruct (Str.span Str.isDigit r2) as [d3 r3] eqn:H3.
    destruct (Str.isEmpty d3) eqn:E3; [discriminate |].
    intros _.
    destruct (span_head _ _ _ _ H1 E1) as (x1 & s1 & [= <- <-] & Hx1).
    destruct (span_head _ _ _ _ H2 E2) as (x2 & s2 & -> & Hx2).
    destruct (span_head _ _ _ _ H3 E3) as (x3 & s3 & -> & Hx3).
    apply satisfies_operator_inside;
      [apply digit_not_operator, Hx1 | exact Hop |].
    unfold wildcardMatch. rewrite H1, E1.
    rewrite (isStarOrX_head _ _ (digit_not_operator _ Hx2)), H2, E2.
    rewrite (isStarOrX_head _ _ (digit_not_operator _ Hx3)). reflexivity.
Qed.

Lemma parse_Some_nonempty (version : string) (v : Version) :
  parse version = Some v -> Str.isEmpty version = false.
Proof. destruct version; [discriminate | reflexivity]. Qed.

Lemma satisfies_caret (localeCompare : string -> string -> Z)
  (version rtext : string) :
  satisfies localeCompare version (String "^" rtext) =
  match parse version, parse rtext with
  | Some v, Some r =>
      if negb (major v =? major r) then false
      else if major r =? 0 then
        if negb (minor v =? minor r) then false
        else if minor r =? 0 then patch r <=? patch v
        else 0 <=? compare localeCompare v r
      else 0 <=? compare localeCompare v r
  | _, _ => false
  end.
Proof.
  unfold satisfies.
  destruct version as [|a version]; [reflexivity |].
  cbn [Str.isEmpty orb].
  destruct (parse (String a version)) as [v|]; reflexivity.
Qed.

(** C6. Caret ranges follow the lock-down rule of npm: for [^r] the major
    must be the one of [r]; when it is 0 the minor must be the one of [r]
    too, and when that minor is 0 only the patch may grow; otherwise every
    version that compares greater than or equal to [r] satisfies.  The four
    cases of the specification are instances. *)
Theorem caret_lock_down (localeCompare : string -> string -> Z)
  (version rtext : string) (v r : Version) :
  parse version = Some v ->
  parse rtext = Some r ->
  (satisfies localeCompare version ("^" +:+ rtext) = true <->
     major v = major r
     /\ (major r = 0 ->
         minor v = minor r
         /\ (minor r = 0 -> patch r <= patch v)
         /\ (minor r <> 0 -> 0 <= compare localeCompare v r))
     /\ (major r <> 0 -> 0 <= compare localeCompare v r))
  /\ satisfies localeCompare "0.2.3" "^0.2.0" = true
  /\ satisfies localeCompare "0.3.0" "^0.2.0" = false
  /\ satisfies localeCompare "1.5.0" "^1.0.0" = true
  /\ satisfies localeCompare "2.0.0" "^1.0.0" = false.
Proof.
  intros Hv Hr. split; [| repeat split; reflexivity].
  change ("^" +:+ rtext) with (String "^" rtext).
  rewrite satisfies_caret, Hv, Hr.
  destruct (Z.eqb_spec (major v) (major r)) as [Hmaj | Hmaj]; cbn [negb];
    [| split; [discriminate | intros [H _]; contradiction]].
  destruct (Z.eqb_spec (major r) 0) as [Hz | Hz].
  - destruct (Z.eqb_spec (minor v) (minor r)) as [Hmin | Hmin]; cbn [negb];
      [| split; [discriminate | intros (_ & H & _); destruct (H Hz); contradiction]].
    destruct (Z.eqb_spec (minor r) 0) as [Hmz | Hmz].
    + rewrite Z.leb_le. split.
      * intros Hp. repeat split; auto; try contradiction.
      * intros (_ & H & _). destruct (H Hz) as (_ & Hp & _). auto.
    + rewrite Z.leb_le. split.
      * intros Hc. repeat split; auto; try contradiction.
      * intros (_ & H & _). destruct (H Hz) as (_ & _ & Hc). auto.
  - rewrite Z.leb_le. split.
    + intros Hc. repeat split; auto; contradiction.
    + intros (_ & _ & H). auto.
Qed.

Lemma caret_lock_down_witness :
  satisfies Collation.localeCompare "1.5.0" ("^" +:+ "1.0.0") = true.
Proof.
  apply (proj1 (caret_lock_down Collation.localeCompare "1.5.0" "1.0.0"
                  (mkVersion 1 5 0 None) (mkVersion 1 0 0 None)
                  eq_refl eq_refl)).
  vm_compute. repeat split; congruence.
Defined.

(** For [^0.0.z] the patch may grow, as the rule says. *)
Example caret_zero_minor_patch_grows (localeCompare : string -> string -> Z) :
  satisfies localeCompare "0.0.4" "^0.0.3" = true
  /\ satisfies localeCompare "0.0.2" "^0.0.3" = false
  /\ satisfies localeCompare "0.1.0" "^0.0.3" = false.
Proof. repeat split; reflexivity. Qed.

Lemma isRangeOperator_In (c : ascii) :
  isRangeOperator c = true <-> In c operatorCharacters.
Proof.
  unfold isRangeOperator, operatorCharacters. simpl.
  rewrite !orb_true_iff, !Ascii.eqb_eq. intuition congruence.
Qed.

(** The rule of exactness in the Node.js implementation.
    [isExactVersion] holds of a specifier exactly when it has none of
    the characters [^ ~ > < = * x] and is read by [parse] as a version; so
    ["file:../x"], ["^1.0.0"] and ["latest"] are not exact and ["1.2.3"]
    is. *)
Theorem isExactVersion_iff (s : string) :
  (isExactVersion s = true <->
     (forall c, In c (list_ascii_of_string s) -> ~ In c operatorCharacters)
     /\ parse s <> None)
  /\ isExactVersion "file:../x" = false
  /\ isExactVersion "^1.0.0" = false
  /\ isExactVersion "latest" = false
  /\ isExactVersion "1.2.3" = true.
Proof.
  split; [| repeat split; reflexivity].
  assert (Hop : hasRangeOperator s = false <->
                forall c, In c (list_ascii_of_string s) -> ~ In c operatorCharacters).
  { unfold hasRangeOperator. rewrite StrFacts.existsb_false.
    split; intros H c Hc.
    - rewrite <- isRangeOperator_In, (H c Hc). discriminate.
    - apply not_true_iff_false. rewrite isRangeOperator_In. auto. }
  rewrite <- Hop. clear Hop. unfold isExactVersion.
  destruct s as [|a s]; cbn [Str.isEmpty].
  - split; [discriminate | intros [_ H]; elim H; reflexivity].
  - destruct (hasRangeOperator (String a s));
      [split; [discriminate | intros [H _]; discriminate] |].
    destruct (parse (String a s)); split.
    + intros _. split; [reflexivity | discriminate].
    + reflexivity.
    + discriminate.
    + intros [_ H]. elim H. reflexivity.
Qed.

Lemma prereleaseGroup_truthy (rest : string) :
  truthy (prereleaseGroup rest) =
  match prereleaseGroup rest with Some _ => true | None => false end.
Proof.
  unfold prereleaseGroup.
  destruct rest as [|c rest]; [reflexivity |].
  destruct (Ascii.eqb_spec c "-") as [-> | Hc].
  - destruct (Str.span isTagChar rest) as [t u].
    destruct t; reflexivity.
  - destruct c as [[] [] [] [] [] [] [] []]; try reflexivity.
    elim Hc. reflexivity.
Qed.

(** The prerelease field of a parsed version is [null] or a string that
    is not empty. *)
Lemma parse_prerelease (s : string) (v : Version) :
  parse s = Some v ->
  truthy (prerelease v) =
  match prerelease v with Some _ => true | None => false end.
Proof.
  unfold parse.
  destruct (Str.isEmpty s); [discriminate |].
  destruct (Str.span Str.isDigit (stripV s)) as [d1 r1].
  destruct (Str.isEmpty d1); [discriminate |].
  destruct r1 as [|c1 r1]; [discriminate |].
  destruct (Ascii.eqb_spec c1 ".") as [-> | Hc1];
    [| destruct c1 as [[] [] [] [] [] [] [] []]; try discriminate;
       elim Hc1; reflexivity].
  destruct (Str.span Str.isDigit r1) as [d2 r2].
  destruct (Str.isEmpty d2); [discriminate |].
  destruct r2 as [|c2 r2]; [discriminate |].
  destruct (Ascii.eqb_spec c2 ".") as [-> | Hc2];
    [| destruct c2 as [[] [] [] [] [] [] [] []]; try discriminate;
       elim Hc2; reflexivity].
  destruct (Str.span Str.isDigit r2) as [d3 r3].
  destruct (Str.isEmpty d3); [discriminate |].
  intros [= <-]. apply prereleaseGroup_truthy.
Qed.

Lemma sign_sub (x y : Z) : sign (x - y) = (x ?= y).
Proof. unfold sign. symmetry. apply Z.compare_sub. Qed.

(** C5, as the code has it.  On parsed versions [compare] orders by
    (major, minor, patch); for equal triples a version without prerelease
    tag comes after one with a tag; and two tags are ordered by the
    [localeCompare] of the host, which is the collation of its locale. *)
Theorem compare_order (localeCompare : string -> string -> Z)
  (sa sb : string) (a b : Version) :
  parse sa = Some a ->
  parse sb = Some b ->
  sign (compare localeCompare a b) =
  compareSpec (fun ta tb => sign (localeCompare ta tb)) a b.
Proof.
  intros Ha Hb. unfold compare, compareSpec.
  rewrite (parse_prerelease _ _ Ha), (parse_prerelease _ _ Hb).
  destruct (Z.eqb_spec (major a) (major b)) as [Hmaj | Hmaj]; cbn [negb].
  2: { rewrite sign_sub. destruct (Z.compare_spec (major a) (major b)); auto.
       contradiction. }
  rewrite Hmaj, Z.compare_refl.
  destruct (Z.eqb_spec (minor a) (minor b)) as [Hmin | Hmin]; cbn [negb].
  2: { rewrite sign_sub. destruct (Z.compare_spec (minor a) (minor b)); auto.
       contradiction. }
  rewrite Hmin, Z.compare_refl.
  destruct (Z.eqb_spec (patch a) (patch b)) as [Hpat | Hpat]; cbn [negb].
  2: { rewrite sign_sub. destruct (Z.compare_spec (patch a) (patch b)); auto.
       contradiction. }
  rewrite Hpat, Z.compare_refl.
  destruct (prerelease a), (prerelease b); reflexivity.
Qed.

Lemma compare_order_witness :
  sign (compare Collation.localeCompare
          (mkVersion 1 0 0 (Some "B")) (mkVersion 1 0 0 (Some "a"))) = Gt.
Proof.
  rewrite (compare_order Collation.localeCompare "1.0.0-B" "1.0.0-a"
             (mkVersion 1 0 0 (Some "B")) (mkVersion 1 0 0 (Some "a"))
             eq_refl eq_refl).
  reflexivity.
Defined.

(** C5 as stated fails: with the default collation of the host the tag
    ["a"] comes before the tag ["B"], although the code of [B] is the
    smaller one, so 1.0.0-B is ordered after 1.0.0-a. *)
Lemma compare_tags_not_by_code_point :
  parse "1.0.0-B" = Some (mkVersion 1 0 0 (Some "B"))
  /\ parse "1.0.0-a" = Some (mkVersion 1 0 0 (Some "a"))
  /\ compareSpec codePointOrder
       (mkVersion 1 0 0 (Some "B")) (mkVersion 1 0 0 (Some "a")) = Lt
  /\ compare Collation.localeCompare
       (mkVersion 1 0 0 (Some "B")) (mkVersion 1 0 0 (Some "a")) = 1.
Proof. repeat split; reflexivity. Qed.

(** [satisfies] reads the specifier as the specification's [parseRange]
    does and evaluates it as [evalRange] does. *)
Lemma satisfies_refines (localeCompare : string -> string -> Z)
  (version range : string) :
  satisfies localeCompare version range =
  match parse version with
  | Some v => evalRange localeCompare v (parseRange range)
  | None => false
  end.
Proof.
  unfold satisfies.
  destruct version as [|a version]; [reflexivity |].
  cbn [Str.isEmpty orb].
  destruct (parse (String a version)) as [v|];
    [| destruct (Str.isEmpty range); reflexivity].
  destruct range as [|c range]; [reflexivity |].
  cbn [Str.isEmpty]. unfold parseRange, withVersion.
  set (range' := String c range).
  destruct (hasRangeOperator range'); cbn [negb].
  2: { destruct (parse range'); reflexivity. }
  destruct (Str.startsWith "^" range').
  { destruct (parse (Str.slice 1 range')) as [r|]; [| reflexivity].
    cbn [evalRange].
    rewrite (Z.eqb_sym (major r) (major v)), (Z.eqb_sym (minor r) (minor v)).
    reflexivity. }
  destruct (Str.startsWith "~" range').
  { destruct (parse (Str.slice 1 range')) as [r|]; [| reflexivity].
    cbn [evalRange].
    destruct (major v =? major r), (minor v =? minor r); reflexivity. }
  destruct (Str.startsWith ">=" range').
  { destruct (parse (Str.slice 2 range')); reflexivity. }
  destruct (Str.startsWith "<=" range').
  { destruct (parse (Str.slice 2 range')); reflexivity. }
  destruct (Str.startsWith ">" range').
  { destruct (parse (Str.slice 1 range')); reflexivity. }
  destruct (Str.startsWith "<" range').
  { destruct (parse (Str.slice 1 range')); reflexivity. }
  destruct (Str.startsWith "=" range').
  { destruct (parse (Str.slice 1 range')); reflexivity. }
  destruct (isStarOrX range'); [reflexivity |].
  destruct (wildcardMatch range') as [[g1 [g3|]]|]; cbn [evalRange].
  - destruct (major v =? Str.parseInt g1); reflexivity.
  - destruct (major v =? Str.parseInt g1); reflexivity.
  - reflexivity.
Qed.

Lemma satisfies_unparseable (localeCompare : string -> string -> Z)
  (version range : string) :
  parseRange range = Unparseable ->
  satisfies localeCompare version range = false.
Proof.
  intros H. rewrite satisfies_refines, H.
  destruct (parse version); reflexivity.
Qed.

End SemverFacts.

(** ** The IoC table *)

Module IocFacts.

Import IocInvariant.


(** Every version string the Node.js parser stores is not empty. *)
Lemma addVersionPart_versionsNotEmpty pkgName iocMap versionPart :
  versionsNotEmpty iocMap ->
  versionsNotEmpty (NodeIoc.addVersionPart pkgName iocMap versionPart).
Proof.
  intros Hinv. unfold NodeIoc.addVersionPart.
  destruct (Str.isEmpty _) eqn:He; [exact Hinv |].
  apply StrFacts.isEmpty_false in He.
  intros k vs. unfold NodeIoc.push. rewrite lookup_alter.
  case_decide as Hk; [| apply Hinv].
  subst k. destruct (iocMap !! pkgName) as [old|] eqn:Hold; [| discriminate].
  intros [= <-]. apply Forall_app. split; [apply (Hinv _ _ Hold) |].
  constructor; [exact He | constructor].
Qed.

Lemma addLine_versionsNotEmpty iocMap rawLine :
  versionsNotEmpty iocMap -> versionsNotEmpty (NodeIoc.addLine iocMap rawLine).
Proof.
  intros Hinv. unfold NodeIoc.addLine.
  destruct (Str.isEmpty _); [exact Hinv |].
  destruct (Str.splitChar "," _) as [|packageName [|versionSpec rest]];
    try exact Hinv.
  destruct (_ || _); [exact Hinv |].
  set (pkgName := NodeIoc.trim packageName).
  generalize (map NodeIoc.trim (Str.splitBars versionSpec)). intros parts.
  assert (Hstart : versionsNotEmpty
            match iocMap !! pkgName with
            | Some _ => iocMap
            | None => <[pkgName := []]> iocMap
            end).
  { destruct (iocMap !! pkgName); [exact Hinv |].
    intros k vs. rewrite lookup_insert. case_decide; [| apply Hinv].
    intros [= <-]. constructor. }
  revert Hstart. generalize (match iocMap !! pkgName with
                             | Some _ => iocMap
                             | None => <[pkgName := []]> iocMap
                             end).
  induction parts as [|part parts IH]; intros m Hm; [exact Hm |].
  apply IH, addVersionPart_versionsNotEmpty, Hm.
Qed.

Lemma parseIoCCsv_versionsNotEmpty (csvText : string) :
  versionsNotEmpty (NodeIoc.parseIoCCsv csvText).
Proof.
  unfold NodeIoc.parseIoCCsv.
  assert (H0 : versionsNotEmpty (∅ : gmap string (list string))).
  { intros k vs. rewrite lookup_empty. discriminate. }
  revert H0. generalize (∅ : gmap string (list string)).
  induction (tail (Str.splitChar NodeIoc.newline csvText)) as [|l ls IH];
    intros m Hm; [exact Hm |].
  apply IH, addLine_versionsNotEmpty, Hm.
Qed.


Lemma fold_addVersionPart (pkgName : string) (versionParts : list string)
  (iocMap : gmap string (list string)) (old : list string) :
  iocMap !! pkgName = Some old ->
  fold_left (NodeIoc.addVersionPart pkgName) versionParts iocMap =
  <[pkgName :=
      (old ++ List.filter (fun version => negb (Str.isEmpty version))
                (map (fun versionPart =>
                        NodeIoc.trim (NodeIoc.stripEquals versionPart))
                   versionParts))%list]> iocMap.
Proof.
  revert iocMap old.
  induction versionParts as [|part parts IH]; intros iocMap old Hold.
  - cbn. rewrite app_nil_r. symmetry. apply insert_id, Hold.
  - cbn [fold_left map List.filter]. unfold NodeIoc.addVersionPart at 2.
    destruct (Str.isEmpty (NodeIoc.trim (NodeIoc.stripEquals part))); cbn [negb].
    + apply IH, Hold.
    + unfold NodeIoc.push.
      rewrite (IH _ (old ++ [NodeIoc.trim (NodeIoc.stripEquals part)])%list).
      * rewrite <- app_assoc. cbn [app].
        apply map_eq. intros k. rewrite !lookup_insert.
        case_decide; [reflexivity |]. rewrite lookup_alter.
        case_decide; [contradiction | reflexivity].
      * rewrite lookup_alter. case_decide; [| contradiction].
        rewrite Hold. reflexivity.
Qed.

(** A well-formed line adds the versions of its cell after those the table
    already has for the package. *)
Lemma addLine_accumulates (iocMap : gmap string (list string))
  (rawLine packageName versionSpec : string) (more : list string) :
  Str.isEmpty (NodeIoc.trim rawLine) = false ->
  Str.splitChar "," (NodeIoc.trim rawLine) = packageName :: versionSpec :: more ->
  Str.isEmpty packageName = false ->
  Str.isEmpty versionSpec = false ->
  NodeIoc.addLine iocMap rawLine =
  <[NodeIoc.trim packageName :=
      (default [] (iocMap !! NodeIoc.trim packageName)
       ++ cellVersions versionSpec)%list]> iocMap.
Proof.
  intros Hline Hsplit Hname Hspec. unfold NodeIoc.addLine.
  rewrite Hline, Hsplit, Hname, Hspec. cbn [orb].
  destruct (iocMap !! NodeIoc.trim packageName) as [old|] eqn:Hold.
  - rewrite (fold_addVersionPart _ _ _ old Hold). reflexivity.
  - rewrite (fold_addVersionPart _ _ _ []) by apply lookup_insert_eq.
    cbn [default app]. apply insert_insert_eq.
Qed.

Lemma existsb_append (p : ascii -> bool) (s t : string) :
  Str.existsb p (s +:+ t) = Str.existsb p s || Str.existsb p t.
Proof.
  induction s as [|c s IH]; [reflexivity |].
  rewrite StrFacts.append_cons. cbn [Str.existsb]. rewrite IH. apply orb_assoc.
Qed.

Lemma splitBars_last (t : string) :
  Str.existsb isBar t = false -> Str.splitBars t = [t].
Proof.
  induction t as [|c t IH]; [reflexivity |].
  cbn [Str.existsb]. rewrite orb_false_iff. intros [Hc Ht].
  cbn [Str.splitBars]. destruct t as [|c' t']; [reflexivity |].
  fold (isBar c). rewrite Hc. cbn [andb].
  rewrite (IH Ht). reflexivity.
Qed.

Lemma splitBars_token (t rest : string) :
  Str.existsb isBar t = false ->
  Str.splitBars (t +:+ String "|" (String "|" rest)) = t :: Str.splitBars rest.
Proof.
  induction t as [|c t IH]; [reflexivity |].
  cbn [Str.existsb]. rewrite orb_false_iff. intros [Hc Ht].
  specialize (IH Ht). rewrite StrFacts.append_cons.
  destruct t as [|c' t'].
  - change (EmptyString +:+ String "|" (String "|" rest))
      with (String "|" (String "|" rest)).
    cbn [Str.splitBars]. fold (isBar c). rewrite Hc. cbn [andb].
    reflexivity.
  - rewrite StrFacts.append_cons in IH |- *.
    cbn [Str.splitBars] in IH |- *. fold (isBar c). rewrite Hc. cbn [andb].
    rewrite IH. reflexivity.
Qed.

Lemma dropWhileEnd_plain (p : ascii -> bool) (v : string) :
  Str.existsb p v = false -> Str.dropWhileEnd p v = v.
Proof.
  induction v as [|c v IH]; [reflexivity |].
  cbn [Str.existsb]. rewrite orb_false_iff. intros [Hc Hv].
  cbn [Str.dropWhileEnd]. rewrite (IH Hv), Hc, andb_false_r. reflexivity.
Qed.

Lemma dropWhileEnd_space_after (v : string) :
  Str.dropWhileEnd Str.isSpaceJS (v +:+ " ") = Str.dropWhileEnd Str.isSpaceJS v.
Proof.
  induction v as [|c v IH]; [reflexivity |].
  rewrite StrFacts.append_cons. cbn [Str.dropWhileEnd]. rewrite IH. reflexivity.
Qed.

Lemma dropWhile_plain (p : ascii -> bool) (v : string) :
  Str.existsb p v = false -> Str.dropWhile p v = v.
Proof.
  destruct v as [|c v]; [reflexivity |].
  cbn [Str.existsb Str.dropWhile]. rewrite orb_false_iff.
  intros [-> _]. reflexivity.
Qed.

(** What the parser makes of one part of a joined cell. *)
Lemma trim_equals_version (v : string) :
  plainVersion v ->
  NodeIoc.trim (String "=" (String " " v)) = String "=" (String " " v)
  /\ NodeIoc.trim (NodeIoc.stripEquals (String "=" (String " " v))) = v.
Proof.
  intros (Hne & Hsp & _). unfold NodeIoc.trim, Str.trimWith. split.
  - change (Str.dropWhile Str.isSpaceJS (String "=" (String " " v)))
      with (String "=" (String " " v)).
    cbn [Str.dropWhileEnd]. rewrite (dropWhileEnd_plain _ _ Hsp), Hne.
    reflexivity.
  - change (NodeIoc.stripEquals (String "=" (String " " v)))
      with (Str.dropWhile Str.isSpaceJS v).
    rewrite !(dropWhile_plain _ _ Hsp). apply dropWhileEnd_plain, Hsp.
Qed.

Lemma trim_equals_version_space (v : string) :
  plainVersion v ->
  NodeIoc.trim (String "=" (String " " (v +:+ " "))) = String "=" (String " " v).
Proof.
  intros Hv.
  transitivity (NodeIoc.trim (String "=" (String " " v)));
    [| apply trim_equals_version, Hv].
  unfold NodeIoc.trim, Str.trimWith.
  change (Str.dropWhile Str.isSpaceJS (String "=" (String " " (v +:+ " "))))
    with (String "=" (String " " v) +:+ " ").
  change (Str.dropWhile Str.isSpaceJS (String "=" (String " " v)))
    with (String "=" (String " " v)).
  apply dropWhileEnd_space_after.
Qed.

(** The parts of a joined cell after the first one begin with a space. *)
Lemma trim_leading_space (s : string) :
  NodeIoc.trim (String " " s) = NodeIoc.trim s.
Proof. reflexivity. Qed.

Lemma existsb_isBar_part (v tail : string) :
  plainVersion v ->
  Str.existsb isBar tail = false ->
  Str.existsb isBar (String "=" (String " " (v +:+ tail))) = false.
Proof.
  intros (_ & _ & Hv) Htail. cbn [Str.existsb].
  rewrite existsb_append, Hv, Htail. reflexivity.
Qed.

Lemma joinedCell_cons (v v' : string) (rest : list string) :
  joinedCell (v :: v' :: rest)
  = String "=" (String " " (v +:+ " "))
    +:+ String "|" (String "|" (String " " (joinedCell (v' :: rest)))).
Proof.
  cbn [joinedCell]. rewrite !StrFacts.append_cons. f_equal. f_equal.
  change (EmptyString +:+ v +:+ " || " +:+ joinedCell (v' :: rest))
    with (v +:+ " || " +:+ joinedCell (v' :: rest)).
  rewrite StrFacts.append_assoc. reflexivity.
Qed.

(** The versions of one part of a cell, with or without a space before
    it. *)
Lemma cellVersions_space (s : string) :
  cellVersions (String " " s) = cellVersions s.
Proof.
  unfold cellVersions.
  replace (Str.splitBars (String " " s))
    with (Str.consHead " " (Str.splitBars s)) by (destruct s; reflexivity).
  destruct (Str.splitBars s) as [|h t]; [reflexivity |].
  cbn [Str.consHead map]. rewrite trim_leading_space. reflexivity.
Qed.

(** The Node.js parser reads back the versions of a joined cell, one by
    one and in their order. *)
Lemma cellVersions_joined (versions : list string) :
  Forall plainVersion versions ->
  cellVersions (joinedCell versions) = versions.
Proof.
  induction 1 as [|v rest Hv Hrest IH]; [reflexivity |].
  destruct rest as [|v' rest'].
  - unfold cellVersions. cbn [joinedCell].
    change ("= " +:+ v) with (String "=" (String " " v)).
    rewrite splitBars_last.
    + cbn [map List.filter].
      rewrite (proj1 (trim_equals_version v Hv)).
      rewrite (proj2 (trim_equals_version v Hv)), (proj1 Hv). reflexivity.
    + rewrite <- (StrFacts.append_nil_r v).
      apply existsb_isBar_part; [exact Hv | reflexivity].
  - rewrite joinedCell_cons. unfold cellVersions.
    rewrite splitBars_token
      by (apply existsb_isBar_part; [exact Hv | reflexivity]).
    cbn [map List.filter].
    rewrite (trim_equals_version_space v Hv).
    rewrite (proj2 (trim_equals_version v Hv)), (proj1 Hv). cbn [negb].
    f_equal. fold (cellVersions (String " " (joinedCell (v' :: rest')))).
    rewrite cellVersions_space. exact IH.
Qed.

(** A line of the feed with a joined cell adds its versions, one entry
    each, after those the table has for the package. *)
Lemma addLine_joined (iocMap : gmap string (list string))
  (rawLine packageName : string) (versions more : list string) :
  Forall plainVersion versions ->
  versions <> [] ->
  Str.isEmpty (NodeIoc.trim rawLine) = false ->
  Str.splitChar "," (NodeIoc.trim rawLine)
  = packageName :: joinedCell versions :: more ->
  Str.isEmpty packageName = false ->
  NodeIoc.addLine iocMap rawLine =
  <[NodeIoc.trim packageName :=
      (default [] (iocMap !! NodeIoc.trim packageName) ++ versions)%list]> iocMap.
Proof.
  intros Hall Hne Hline Hsplit Hname.
  rewrite (addLine_accumulates _ _ _ _ _ Hline Hsplit Hname).
  - rewrite (cellVersions_joined _ Hall). reflexivity.
  - destruct versions as [|v [|v' rest]]; [contradiction | reflexivity |].
    rewrite joinedCell_cons. reflexivity.
Qed.

Example addLine_joined_zapier :
  NodeIoc.addLine {[ "@zapier/ai-actions" := ["0.1.17"] ]}
    "@zapier/ai-actions,= 0.1.18 || = 0.1.19 || = 0.1.20"
  = {[ "@zapier/ai-actions" := ["0.1.17"; "0.1.18"; "0.1.19"; "0.1.20"] ]}.
Proof.
  rewrite (addLine_joined _ _ "@zapier/ai-actions"
             ["0.1.18"; "0.1.19"; "0.1.20"] []).
  - vm_compute. reflexivity.
  - repeat constructor.
  - discriminate.
  - reflexivity.
  - reflexivity.
  - reflexivity.
Qed.

(** Every entry the Go parser stores is a list that is not empty. *)
Lemma parseRecords_entriesNotEmpty reads iocMap result :
  entriesNotEmpty iocMap ->
  GoIoc.parseRecords iocMap reads = GoIoc.Ok result ->
  entriesNotEmpty result.
Proof.
  revert iocMap. induction reads as [|[record | err] reads IH];
    intros iocMap Hinv; cbn [GoIoc.parseRecords].
  - intros [= <-]. exact Hinv.
  - destruct record as [|field0 [|field1 more]]; try apply (IH _ Hinv).
    destruct (_ || _); [apply (IH _ Hinv) |].
    apply IH. intros k vs. rewrite lookup_insert. case_decide; [| apply Hinv].
    intros [= <-]. destruct (default [] _); discriminate.
  - discriminate.
Qed.

Lemma ParseCSV_entriesNotEmpty reads result :
  GoIoc.ParseCSV reads = GoIoc.Ok result -> entriesNotEmpty result.
Proof.
  assert (H0 : entriesNotEmpty (∅ : gmap string (list string))).
  { intros k vs. rewrite lookup_empty. discriminate. }
  destruct reads as [|[header | err] reads]; cbn [GoIoc.ParseCSV].
  - intros [= <-]. exact H0.
  - apply parseRecords_entriesNotEmpty, H0.
  - discriminate.
Qed.

(** The Node.js parser records the versions of a cell joined by [||] one by
    one, without the [=] and the spaces around them. *)
Lemma parseIoCCsv_splits_joined_versions :
  NodeIoc.parseIoCCsv
    ("Package,Version" +:+ nl
     +:+ "@zapier/ai-actions,= 0.1.18 || = 0.1.19 || = 0.1.20")
  = {[ "@zapier/ai-actions" := ["0.1.18"; "0.1.19"; "0.1.20"] ]}.
Proof. vm_compute. reflexivity. Qed.

(** C3 in the Go implementation: [ParseCSV] does not split the version cell
    at [||].  The cell ["= 0.1.18 || = 0.1.19 || = 0.1.20"] gives one version
    string, the rest of the cell after its first [=], and none of the three
    versions is found by [Lookup]. *)
Theorem ParseCSV_keeps_joined_versions_together :
  GoIoc.ParseCSV
    [GoIoc.Fields ["Package"; "Version"];
     GoIoc.Fields ["@zapier/ai-actions"; "= 0.1.18 || = 0.1.19 || = 0.1.20"]]
  = GoIoc.Ok {[ "@zapier/ai-actions" := ["0.1.18 || = 0.1.19 || = 0.1.20"] ]}
  /\ GoIoc.Lookup
       (GoIoc.mkDatabase
          {[ "@zapier/ai-actions" := ["0.1.18 || = 0.1.19 || = 0.1.20"] ]})
       "@zapier/ai-actions" "0.1.18" = false
  /\ GoIoc.Lookup
       (GoIoc.mkDatabase
          {[ "@zapier/ai-actions" := ["0.1.18 || = 0.1.19 || = 0.1.20"] ]})
       "@zapier/ai-actions" "0.1.19" = false
  /\ GoIoc.Lookup
       (GoIoc.mkDatabase
          {[ "@zapier/ai-actions" := ["0.1.18 || = 0.1.19 || = 0.1.20"] ]})
       "@zapier/ai-actions" "0.1.20" = false.
Proof. repeat split; vm_compute; reflexivity. Qed.

(** C4 on a row whose version cell is a lone [=]: the Node.js parser
    leaves the package in the table with no version at all, and the Go
    parser leaves it with the empty string for version. *)
Theorem empty_version_cell_stays_in_table :
  NodeIoc.parseIoCCsv ("Package,Version" +:+ nl +:+ "pkg,=")
  = {[ "pkg" := [] ]}
  /\ GoIoc.ParseCSV [GoIoc.Fields ["Package"; "Version"]; GoIoc.Fields ["pkg"; "="]]
     = GoIoc.Ok {[ "pkg" := [""] ]}.
Proof. split; vm_compute; reflexivity. Qed.

End IocFacts.

(** ** The classifier and the deduplicator *)

Module MatcherFacts.

Import DedupeSpec.

(** The loop of the Node.js classifier over the listed versions reports
    one finding at most. *)
Lemma potentialLoop_at_most_one (localeCompare : string -> string -> Z)
  (dep : NodeMatcher.Dependency) (iocVersions : list string) :
  (length (NodeMatcher.potentialLoop localeCompare dep iocVersions) <= 1)%nat.
Proof.
  induction iocVersions as [|v vs IH]; cbn [NodeMatcher.potentialLoop].
  - cbn. lia.
  - destruct (Semver.satisfies _ _ _); [cbn; lia | exact IH].
Qed.

(** The finding of the Node.js classifier for a declared range is the one
    of the first listed version that satisfies it. *)
Lemma potentialLoop_first (localeCompare : string -> string -> Z)
  (dep : NodeMatcher.Dependency) (iocVersions : list string) :
  NodeMatcher.potentialLoop localeCompare dep iocVersions =
  match List.find (fun v => Semver.satisfies localeCompare v
                              (NodeMatcher.versionSpec dep)) iocVersions with
  | Some v => [NodeMatcher.mkMatch (NodeMatcher.name dep) v "POTENTIAL"
                 (NodeMatcher.filePath dep) (Some (NodeMatcher.versionSpec dep))]
  | None => []
  end.
Proof.
  induction iocVersions as [|v vs IH]; [reflexivity |].
  cbn [NodeMatcher.potentialLoop List.find].
  destruct (Semver.satisfies _ _ _); [reflexivity | exact IH].
Qed.

(** C1 in the Node.js implementation: a declared record gives one
    POTENTIAL finding at most, because the loop over the listed versions ends
    at the first one that satisfies.  With the versions 4.17.19 and 4.17.20
    listed for lodash, both of which satisfy [^4.17.0], the declared record
    (lodash, "^4.17.0") gives one finding, for 4.17.19. *)
Theorem matchPotentialDependencies_stops_at_first
  (localeCompare : string -> string -> Z) (dep : NodeMatcher.Dependency)
  (iocMap : gmap string (list string)) :
  (length (NodeMatcher.matchPotentialDependencies localeCompare [dep] iocMap)
   <= 1)%nat
  /\ Semver.satisfies localeCompare "4.17.19" "^4.17.0" = true
  /\ Semver.satisfies localeCompare "4.17.20" "^4.17.0" = true
  /\ NodeMatcher.matchPotentialDependencies localeCompare
       [NodeMatcher.mkDependency "lodash" "^4.17.0" "dependencies" "package.json"]
       {[ "lodash" := ["4.17.19"; "4.17.20"] ]}
     = [NodeMatcher.mkMatch "lodash" "4.17.19" "POTENTIAL" "package.json"
          (Some "^4.17.0")].
Proof.
  split; [| repeat split; vm_compute; reflexivity].
  unfold NodeMatcher.matchPotentialDependencies. cbn [flat_map].
  rewrite app_nil_r.
  destruct (iocMap !! NodeMatcher.name dep) as [[|v vs]|]; cbn [length];
    try lia.
  destruct (Semver.isExactVersion _); [cbn [length]; lia |].
  apply potentialLoop_at_most_one.
Qed.

Section GoClassifier.

Context {SemVersion : Type} {Constraints : Type}.
Variable NewVersion : string -> option SemVersion.
Variable NewConstraint : string -> option Constraints.
Variable Validate : Constraints -> SemVersion -> bool * list string.

(** The Go classifier reports every listed version that satisfies the
    range of a declared dependency, in the order of the list. *)
Lemma potentialMatches_every_satisfying_version
  (iocDB : GoIoc.Database) (dep : GoMatcher.Dependency)
  (versions : list string) :
  GoMatcher.isExactVersion NewVersion (GoMatcher.VersionSpec dep) = false ->
  GoMatcher.isSemverRange NewConstraint (GoMatcher.VersionSpec dep) = true ->
  GoIoc.GetVersions iocDB (GoMatcher.Name dep) = Some versions ->
  GoMatcher.potentialMatches NewVersion NewConstraint Validate iocDB dep =
  map (fun v => GoMatcher.mkMatch (GoMatcher.Name dep) v
                  GoMatcher.SeverityPotential (GoMatcher.FilePath dep)
                  (GoMatcher.VersionSpec dep))
      (List.filter
         (fun v => GoMatcher.versionSatisfiesRange NewVersion NewConstraint
                     Validate v (GoMatcher.VersionSpec dep))
         versions).
Proof.
  intros Hexact Hrange Hget. unfold GoMatcher.potentialMatches.
  rewrite Hexact, Hrange, Hget. cbn [negb]. clear Hget.
  induction versions as [|v vs IH]; [reflexivity |].
  cbn [flat_map List.filter].
  destruct (GoMatcher.versionSatisfiesRange _ _ _ v _); cbn; rewrite IH;
    reflexivity.
Qed.

(** A specifier the Go classifier does not take for a range gives no
    finding. *)
Lemma potentialMatches_not_a_range
  (iocDB : GoIoc.Database) (dep : GoMatcher.Dependency) :
  GoMatcher.isSemverRange NewConstraint (GoMatcher.VersionSpec dep) = false ->
  GoMatcher.potentialMatches NewVersion NewConstraint Validate iocDB dep = [].
Proof.
  intros H. unfold GoMatcher.potentialMatches. rewrite H.
  destruct (GoMatcher.isExactVersion _ _); reflexivity.
Qed.

(** The Go test of exactness on four specifiers: the first three are
    not exact whatever the library does, and ["1.2.3"] is exact when the
    library reads it as a version. *)
Lemma Go_isExactVersion_examples :
  GoMatcher.isExactVersion NewVersion "file:../x" = false
  /\ GoMatcher.isExactVersion NewVersion "^1.0.0" = false
  /\ GoMatcher.isExactVersion NewVersion "latest" = false
  /\ (GoMatcher.isExactVersion NewVersion "1.2.3" = true
      <-> NewVersion "1.2.3" <> None).
Proof.
  split; [reflexivity |]. split; [reflexivity |]. split; [reflexivity |].
  change (GoMatcher.isExactVersion NewVersion "1.2.3")
    with (match NewVersion "1.2.3" with Some _ => true | None => false end).
  destruct (NewVersion "1.2.3"); split; try discriminate; auto.
Qed.

End GoClassifier.

Lemma potentialLoop_unsatisfied (localeCompare : string -> string -> Z)
  (dep : NodeMatcher.Dependency) (iocVersions : list string) :
  (forall version,
     Semver.satisfies localeCompare version (NodeMatcher.versionSpec dep) = false) ->
  NodeMatcher.potentialLoop localeCompare dep iocVersions = [].
Proof.
  intros H. induction iocVersions as [|v vs IH]; [reflexivity |].
  cbn [NodeMatcher.potentialLoop]. rewrite H. exact IH.
Qed.

(** Fail closed, as the Node.js code has it.  A declared record whose
    specifier is read as
    none of the range forms is satisfied by no version and gives no POTENTIAL
    finding, whatever is listed for its package.  The specifier
    [">=1.0.0 <2.0.0 <<bad"] is not one of them: it is read as the comparator
    [>=] on 1.0.0, the text after the version being ignored. *)
Theorem unrecognized_range_fails_closed
  (localeCompare : string -> string -> Z) (dep : NodeMatcher.Dependency)
  (iocMap : gmap string (list string)) :
  RangeSpec.parseRange (NodeMatcher.versionSpec dep) = RangeSpec.Unparseable ->
  (forall version,
     Semver.satisfies localeCompare version (NodeMatcher.versionSpec dep) = false)
  /\ NodeMatcher.matchPotentialDependencies localeCompare [dep] iocMap = []
  /\ RangeSpec.parseRange ">=1.0.0 <2.0.0 <<bad"
     = RangeSpec.Comparator RangeSpec.OpGE (Semver.mkVersion 1 0 0 None).
Proof.
  intros Hun.
  assert (Hsat : forall version,
    Semver.satisfies localeCompare version (NodeMatcher.versionSpec dep) = false).
  { intros version. apply SemverFacts.satisfies_unparseable, Hun. }
  split; [exact Hsat |]. split; [| reflexivity].
  unfold NodeMatcher.matchPotentialDependencies. cbn [flat_map].
  rewrite app_nil_r.
  destruct (iocMap !! NodeMatcher.name dep) as [[|v vs]|]; try reflexivity.
  destruct (Semver.isExactVersion _); [reflexivity |].
  apply potentialLoop_unsatisfied, Hsat.
Qed.

Lemma unrecognized_range_fails_closed_witness :
  NodeMatcher.matchPotentialDependencies Collation.localeCompare
    [NodeMatcher.mkDependency "lodash" "<<bad" "dependencies" "package.json"]
    {[ "lodash" := ["4.17.19"; "4.17.20"] ]} = [].
Proof.
  apply (unrecognized_range_fails_closed Collation.localeCompare
           (NodeMatcher.mkDependency "lodash" "<<bad" "dependencies" "package.json")
           {[ "lodash" := ["4.17.19"; "4.17.20"] ]}).
  reflexivity.
Defined.

(** C2 in the Node.js implementation: the malformed specifier
    [">=1.0.0 <2.0.0 <<bad"] does not fail closed.  It is satisfied by a
    listed version, [parse] reading the text after [>=] as 1.0.0 and passing
    over the rest, and it gives a POTENTIAL finding. *)
Lemma malformed_compound_range_is_satisfied :
  Semver.satisfies Collation.localeCompare "4.17.19" ">=1.0.0 <2.0.0 <<bad" = true
  /\ NodeMatcher.matchPotentialDependencies Collation.localeCompare
       [NodeMatcher.mkDependency "lodash" ">=1.0.0 <2.0.0 <<bad" "dependencies"
          "package.json"]
       {[ "lodash" := ["4.17.19"; "4.17.20"] ]}
     = [NodeMatcher.mkMatch "lodash" "4.17.19" "POTENTIAL" "package.json"
          (Some ">=1.0.0 <2.0.0 <<bad")].
Proof. split; vm_compute; reflexivity. Qed.

Section DedupeBy.

Context {K : Type} `{EqDecision K} (key : GoMatcher.Match -> K).

Lemma dedupeBy_idempotent (seen : list K) (ms : list GoMatcher.Match) :
  dedupeBy key seen (dedupeBy key seen ms) = dedupeBy key seen ms.
Proof.
  revert seen. induction ms as [|m rest IH]; intros seen; [reflexivity |].
  cbn [dedupeBy]. destruct (decide (key m ∈ seen)) as [Hin | Hout].
  - apply IH.
  - cbn [dedupeBy]. rewrite decide_False by exact Hout. f_equal. apply IH.
Qed.

Lemma dedupeBy_length (seen : list K) (ms : list GoMatcher.Match) :
  (length (dedupeBy key seen ms) <= length ms)%nat.
Proof.
  revert seen. induction ms as [|m rest IH]; intros seen; cbn [dedupeBy length].
  - lia.
  - destruct (decide (key m ∈ seen)).
    + specialize (IH seen). lia.
    + cbn [length]. specialize (IH (key m :: seen)). lia.
Qed.

Lemma dedupeBy_sublist (seen : list K) (ms : list GoMatcher.Match) :
  sublist (dedupeBy key seen ms) ms.
Proof.
  revert seen. induction ms as [|m rest IH]; intros seen; cbn [dedupeBy].
  - constructor.
  - destruct (decide (key m ∈ seen)).
    + apply sublist_cons, IH.
    + apply sublist_skip, IH.
Qed.

(** No finding that is kept has a key seen before it. *)
Lemma dedupeBy_fresh (seen : list K) (ms : list GoMatcher.Match)
  (m : GoMatcher.Match) :
  m ∈ dedupeBy key seen ms -> key m ∉ seen.
Proof.
  revert seen. induction ms as [|m0 rest IH]; intros seen; cbn [dedupeBy].
  - intros Hm. inversion Hm.
  - destruct (decide (key m0 ∈ seen)) as [Hin | Hout].
    + apply IH.
    + rewrite elem_of_cons. intros [-> | Hm]; [exact Hout |].
      apply IH in Hm. intros Hs. apply Hm. apply elem_of_cons. auto.
Qed.

(** The first finding of a key is kept, and no later finding of that key
    is. *)
Lemma dedupeBy_keeps_first (seen : list K) (m : GoMatcher.Match)
  (rest : list GoMatcher.Match) :
  key m ∉ seen ->
  exists kept, dedupeBy key seen (m :: rest) = m :: kept
               /\ forall m', m' ∈ kept -> key m' <> key m.
Proof.
  intros Hout. cbn [dedupeBy]. rewrite decide_False by exact Hout.
  eexists. split; [reflexivity |].
  intros m' Hm' Heq. apply dedupeBy_fresh in Hm'. apply Hm'.
  rewrite Heq. apply elem_of_cons. auto.
Qed.

End DedupeBy.

Lemma dedupLoop_dedupeBy (seen : gmap string bool) (seenKeys : list string)
  (result matches : list GoMatcher.Match) :
  (forall k, default false (seen !! k) = true <-> k ∈ seenKeys) ->
  GoMatcher.dedupLoop seen result matches =
  (result ++ dedupeBy GoMatcher.matchKey seenKeys matches)%list.
Proof.
  revert seen seenKeys result.
  induction matches as [|m rest IH]; intros seen seenKeys result Hseen;
    cbn [GoMatcher.dedupLoop dedupeBy].
  - symmetry. apply app_nil_r.
  - destruct (default false (seen !! GoMatcher.matchKey m)) eqn:Hk; cbn [negb].
    + rewrite decide_True by (apply Hseen; exact Hk). apply IH, Hseen.
    + rewrite decide_False
        by (intros Hin; apply Hseen in Hin; congruence).
      rewrite (IH _ (GoMatcher.matchKey m :: seenKeys)).
      * rewrite <- app_assoc. reflexivity.
      * intros k. rewrite lookup_insert, elem_of_cons.
        case_decide as Hd.
        -- subst k. cbn. split; auto.
        -- rewrite Hseen. split; [auto | intros [Heq | Hin]; [congruence | auto]].
Qed.

(** The loop of the Go deduplicator is the single pass of the specification
    with the formatted string for key. *)
Lemma DeduplicateMatches_dedupeBy (matches : list GoMatcher.Match) :
  GoMatcher.DeduplicateMatches matches = dedupeBy GoMatcher.matchKey [] matches.
Proof.
  unfold GoMatcher.DeduplicateMatches.
  rewrite (dedupLoop_dedupeBy ∅ []); [reflexivity |].
  intros k. rewrite lookup_empty. cbn. split; [discriminate |].
  intros H. inversion H.
Qed.

Lemma DeduplicateMatches_idempotent (matches : list GoMatcher.Match) :
  GoMatcher.DeduplicateMatches (GoMatcher.DeduplicateMatches matches)
  = GoMatcher.DeduplicateMatches matches.
Proof. rewrite !DeduplicateMatches_dedupeBy. apply dedupeBy_idempotent. Qed.

Lemma DeduplicateMatches_length (matches : list GoMatcher.Match) :
  (length (GoMatcher.DeduplicateMatches matches) <= length matches)%nat.
Proof. rewrite DeduplicateMatches_dedupeBy. apply dedupeBy_length. Qed.

Lemma DeduplicateMatches_sublist (matches : list GoMatcher.Match) :
  sublist (GoMatcher.DeduplicateMatches matches) matches.
Proof. rewrite DeduplicateMatches_dedupeBy. apply dedupeBy_sublist. Qed.

(** The key is made of the triple alone: the location and the declared
    specifier have no part in it. *)
Lemma matchKey_triple (m m' : GoMatcher.Match) :
  tripleOf m = tripleOf m' -> GoMatcher.matchKey m = GoMatcher.matchKey m'.
Proof.
  unfold tripleOf, GoMatcher.matchKey. intros [= -> -> ->]. reflexivity.
Qed.

Lemma dedupeBy_matchKey_triple (pre ms : list GoMatcher.Match) :
  (forall m m', m ∈ (pre ++ ms)%list -> m' ∈ (pre ++ ms)%list ->
     GoMatcher.matchKey m = GoMatcher.matchKey m' -> tripleOf m = tripleOf m') ->
  dedupeBy GoMatcher.matchKey (map GoMatcher.matchKey pre) ms
  = dedupeBy tripleOf (map tripleOf pre) ms.
Proof.
  revert pre. induction ms as [|m rest IH]; intros pre Hinj; [reflexivity |].
  cbn [dedupeBy].
  assert (Hiff : GoMatcher.matchKey m ∈ map GoMatcher.matchKey pre
                 <-> tripleOf m ∈ map tripleOf pre).
  { rewrite !list_elem_of_fmap. split; intros (p & Hp & Hin); exists p.
    - split; [| exact Hin]. symmetry. apply Hinj.
      + apply elem_of_app. auto.
      + apply elem_of_app. right. apply elem_of_cons. auto.
      + congruence.
    - split; [| exact Hin]. apply matchKey_triple. exact Hp. }
  assert (Hrest : dedupeBy GoMatcher.matchKey (map GoMatcher.matchKey (m :: pre)) rest
                  = dedupeBy tripleOf (map tripleOf (m :: pre)) rest).
  { apply IH. intros x y Hx Hy. apply Hinj.
    - rewrite elem_of_app, elem_of_cons.
      rewrite elem_of_app, elem_of_cons in Hx. tauto.
    - rewrite elem_of_app, elem_of_cons.
      rewrite elem_of_app, elem_of_cons in Hy. tauto. }
  cbn [map] in Hrest.
  destruct (decide (GoMatcher.matchKey m ∈ map GoMatcher.matchKey pre)) as [H1 | H1];
    destruct (decide (tripleOf m ∈ map tripleOf pre)) as [H2 | H2]; try tauto.
  - apply IH. intros x y Hx Hy. apply Hinj.
    + rewrite elem_of_app, elem_of_cons.
      rewrite elem_of_app in Hx. tauto.
    + rewrite elem_of_app, elem_of_cons.
      rewrite elem_of_app in Hy. tauto.
  - f_equal. exact Hrest.
Qed.

(** On findings whose formatted keys tell their triples apart, the Go
    deduplicator is the one of the specification. *)
Lemma DeduplicateMatches_dedupe (matches : list GoMatcher.Match) :
  (forall m m', m ∈ matches -> m' ∈ matches ->
     GoMatcher.matchKey m = GoMatcher.matchKey m' -> tripleOf m = tripleOf m') ->
  GoMatcher.DeduplicateMatches matches = dedupe matches.
Proof.
  intros Hinj. rewrite DeduplicateMatches_dedupeBy. unfold dedupe.
  apply (dedupeBy_matchKey_triple [] matches). exact Hinj.
Qed.

(** C8 on two findings of different triples: the package [a] at version
    [b@c] and the package [a@b] at version [c] are given the same key
    [a@b@c:TRANSITIVE], and the second finding is dropped as a duplicate of
    the first, which the deduplicator of the specification keeps. *)
Theorem DeduplicateMatches_merges_distinct_triples :
  tripleOf (GoMatcher.mkMatch "a" "b@c" GoMatcher.SeverityTransitive "package-lock.json" "")
  <> tripleOf (GoMatcher.mkMatch "a@b" "c" GoMatcher.SeverityTransitive "package-lock.json" "")
  /\ GoMatcher.DeduplicateMatches
       [GoMatcher.mkMatch "a" "b@c" GoMatcher.SeverityTransitive "package-lock.json" "";
        GoMatcher.mkMatch "a@b" "c" GoMatcher.SeverityTransitive "package-lock.json" ""]
     = [GoMatcher.mkMatch "a" "b@c" GoMatcher.SeverityTransitive "package-lock.json" ""]
  /\ dedupe
       [GoMatcher.mkMatch "a" "b@c" GoMatcher.SeverityTransitive "package-lock.json" "";
        GoMatcher.mkMatch "a@b" "c" GoMatcher.SeverityTransitive "package-lock.json" ""]
     = [GoMatcher.mkMatch "a" "b@c" GoMatcher.SeverityTransitive "package-lock.json" "";
        GoMatcher.mkMatch "a@b" "c" GoMatcher.SeverityTransitive "package-lock.json" ""].
Proof.
  split; [discriminate |]. split; vm_compute; reflexivity.
Qed.

End MatcherFacts.

(** ** More on the version model and the range evaluator *)

Module SemverMore.

Import Semver.

Lemma span_append (p : ascii -> bool) (s d r : string) (c : ascii) (t : string) :
  Str.span p s = (d, r) ->
  p c = false ->
  Str.span p (s +:+ String c t) = (d, r +:+ String c t).
Proof.
  revert d r. induction s as [|a s IH]; intros d r Hspan Hc.
  - cbn in Hspan. injection Hspan as <- <-.
    change (EmptyString +:+ String c t) with (String c t).
    cbn [Str.span]. rewrite Hc. reflexivity.
  - rewrite StrFacts.append_cons. cbn [Str.span] in Hspan |- *.
    destruct (p a).
    + destruct (Str.span p s) as [d' r'] eqn:Hs.
      injection Hspan as <- <-.
      rewrite (IH d' r' eq_refl Hc). reflexivity.
    + injection Hspan as <- <-. reflexivity.
Qed.

(** The first character of a text that [parse] accepts is [v] or a digit:
    it is none of the operator class. *)
Lemma parse_first_char (s : string) (r : Version) :
  parse s = Some r ->
  exists c rest, s = String c rest /\ isRangeOperator c = false.
Proof.
  destruct s as [|c rest]; [discriminate |]. intros Hparse.
  exists c, rest. split; [reflexivity |].
  destruct (Ascii.eqb_spec c "v") as [-> | Hv]; [reflexivity |].
  revert Hparse. unfold parse. cbn [Str.isEmpty].
  rewrite (SemverFacts.stripV_other _ _ Hv).
  destruct (Str.span Str.isDigit (String c rest)) as [d1 r1] eqn:H1.
  destruct (Str.isEmpty d1) eqn:E1; [discriminate |]. intros _.
  destruct (SemverFacts.span_head _ _ _ _ H1 E1) as (x & s' & [= <- <-] & Hx).
  apply SemverFacts.digit_not_operator, Hx.
Qed.

Lemma stripV_append (s t : string) :
  Str.isEmpty s = false -> stripV (s +:+ t) = stripV s +:+ t.
Proof.
  destruct s as [|c s]; [discriminate |]. intros _.
  rewrite StrFacts.append_cons.
  destruct (Ascii.eqb_spec c "v") as [-> | Hv]; [reflexivity |].
  rewrite !(SemverFacts.stripV_other _ _ Hv). apply StrFacts.append_cons.
Qed.

Lemma prereleaseGroup_append (rest : string) (c : ascii) (t : string) :
  isTagChar c = false ->
  prereleaseGroup (rest +:+ String c t) = prereleaseGroup rest.
Proof.
  intros Hc.
  assert (Hdash : Ascii.eqb c "-" = false).
  { unfold isTagChar in Hc. rewrite !orb_false_iff in Hc. tauto. }
  destruct rest as [|x rest].
  - change (EmptyString +:+ String c t) with (String c t).
    destruct (Ascii.eqb_spec c "-") as [-> | Hne]; [discriminate |].
    destruct c as [[] [] [] [] [] [] [] []]; try reflexivity.
    elim Hne. reflexivity.
  - rewrite StrFacts.append_cons.
    destruct (Ascii.eqb_spec x "-") as [-> | Hne].
    + cbn [prereleaseGroup].
      destruct (Str.span isTagChar rest) as [tag u] eqn:Hs.
      rewrite (span_append _ _ _ _ _ _ Hs Hc). reflexivity.
    + destruct x as [[] [] [] [] [] [] [] []]; try reflexivity.
      elim Hne. reflexivity.
Qed.

(** X1. [parse] reads the same version with and without a leading [v]. *)
Theorem parse_leading_v (s : string) (v : Version) :
  parse s = Some v ->
  Str.startsWith "v" s = false ->
  parse (String "v" s) = Some v.
Proof.
  intros Hparse Hv. destruct s as [|c rest]; [discriminate |].
  cbn [Str.startsWith] in Hv. rewrite andb_true_r in Hv.
  assert (Hc : c <> "v"%char).
  { intros ->. discriminate. }
  rewrite <- Hparse. unfold parse. cbn [Str.isEmpty].
  rewrite (SemverFacts.stripV_other _ _ Hc). reflexivity.
Qed.

Lemma parse_leading_v_witness :
  parse "v1.2.3-beta.1" = Some (mkVersion 1 2 3 (Some "beta.1")).
Proof.
  apply (parse_leading_v "1.2.3-beta.1" (mkVersion 1 2 3 (Some "beta.1")));
    reflexivity.
Defined.

(** X2. [parse] passes over what follows the version: a text it accepts
    is read as the same version when anything is put after it that begins
    with a character a prerelease tag cannot hold. *)
Theorem parse_trailing_text (s : string) (v : Version) (c : ascii) (t : string) :
  parse s = Some v ->
  isTagChar c = false ->
  parse (s +:+ String c t) = Some v.
Proof.
  intros Hparse Hc.
  assert (Hdigit : Str.isDigit c = false).
  { unfold isTagChar in Hc. rewrite !orb_false_iff in Hc. tauto. }
  assert (Hne : Str.isEmpty s = false)
    by (apply (SemverFacts.parse_Some_nonempty _ _ Hparse)).
  revert Hparse. unfold parse. rewrite Hne.
  replace (Str.isEmpty (s +:+ String c t)) with false
    by (destruct s; [discriminate | reflexivity]).
  rewrite (stripV_append _ _ Hne).
  destruct (Str.span Str.isDigit (stripV s)) as [d1 r1] eqn:H1.
  rewrite (span_append _ _ _ _ _ _ H1 Hdigit).
  destruct (Str.isEmpty d1); [discriminate |].
  destruct r1 as [|c1 r1]; [discriminate |].
  rewrite StrFacts.append_cons.
  destruct (Ascii.eqb_spec c1 ".") as [-> | Hc1];
    [| destruct c1 as [[] [] [] [] [] [] [] []]; try discriminate;
       elim Hc1; reflexivity].
  destruct (Str.span Str.isDigit r1) as [d2 r2] eqn:H2.
  rewrite (span_append _ _ _ _ _ _ H2 Hdigit).
  destruct (Str.isEmpty d2); [discriminate |].
  destruct r2 as [|c2 r2]; [discriminate |].
  rewrite StrFacts.append_cons.
  destruct (Ascii.eqb_spec c2 ".") as [-> | Hc2];
    [| destruct c2 as [[] [] [] [] [] [] [] []]; try discriminate;
       elim Hc2; reflexivity].
  destruct (Str.span Str.isDigit r2) as [d3 r3] eqn:H3.
  rewrite (span_append _ _ _ _ _ _ H3 Hdigit).
  destruct (Str.isEmpty d3); [discriminate |].
  rewrite (prereleaseGroup_append _ _ _ Hc). auto.
Qed.

Lemma parse_trailing_text_witness :
  parse ("1.0.0" +:+ " <2.0.0 <<bad") = Some (mkVersion 1 0 0 None).
Proof.
  apply (parse_trailing_text "1.0.0" (mkVersion 1 0 0 None) " " "<2.0.0 <<bad");
    reflexivity.
Defined.

(** X3. Two version texts without prerelease tag are [equal] exactly when
    their major, minor and patch numbers are the same. *)
Theorem equal_plain_versions (localeCompare : string -> string -> Z)
  (a b : string) (va vb : Version) :
  parse a = Some va ->
  parse b = Some vb ->
  prerelease va = None ->
  prerelease vb = None ->
  (equal localeCompare a b = true <->
   major va = major vb /\ minor va = minor vb /\ patch va = patch vb).
Proof.
  intros Ha Hb Hpa Hpb. unfold equal, compare. rewrite Ha, Hb, Hpa, Hpb.
  cbn [truthy andb negb].
  destruct (Z.eqb_spec (major va) (major vb)); cbn [negb];
    [| rewrite Z.eqb_eq; split; intros; lia].
  destruct (Z.eqb_spec (minor va) (minor vb)); cbn [negb];
    [| rewrite Z.eqb_eq; split; intros; lia].
  destruct (Z.eqb_spec (patch va) (patch vb)); cbn [negb];
    [| rewrite Z.eqb_eq; split; intros; lia].
  split; auto.
Qed.

Lemma equal_plain_versions_witness :
  equal Collation.localeCompare "v1.2.3" "1.2.3" = true.
Proof.
  apply (equal_plain_versions Collation.localeCompare "v1.2.3" "1.2.3"
           (mkVersion 1 2 3 None) (mkVersion 1 2 3 None));
    try reflexivity.
  repeat split.
Defined.

(** X4. On a specifier without character of the operator class [satisfies]
    is [equal]. *)
Theorem satisfies_exact_is_equal (localeCompare : string -> string -> Z)
  (version range : string) :
  hasRangeOperator range = false ->
  satisfies localeCompare version range = equal localeCompare version range.
Proof.
  intros Hop. unfold satisfies, equal. rewrite Hop. cbn [negb].
  destruct version as [|a version]; [reflexivity |].
  destruct range as [|c range].
  - cbn [Str.isEmpty orb]. rewrite SemverFacts.parse_empty.
    destruct (parse (String a version)); reflexivity.
  - cbn [Str.isEmpty orb].
    destruct (parse (String a version)); reflexivity.
Qed.

Lemma satisfies_exact_is_equal_witness :
  satisfies Collation.localeCompare "1.2.3" "v1.2.3"
  = equal Collation.localeCompare "1.2.3" "v1.2.3".
Proof.
  apply (satisfies_exact_is_equal Collation.localeCompare "1.2.3" "v1.2.3").
  reflexivity.
Defined.

Lemma satisfies_tilde (localeCompare : string -> string -> Z)
  (version rtext : string) :
  satisfies localeCompare version (String "~" rtext) =
  match parse version, parse rtext with
  | Some v, Some r =>
      if negb (major v =? major r) || negb (minor v =? minor r) then false
      else patch r <=? patch v
  | _, _ => false
  end.
Proof.
  unfold satisfies.
  destruct version as [|a version]; [reflexivity |].
  cbn [Str.isEmpty orb].
  destruct (parse (String a version)) as [v|]; reflexivity.
Qed.

(** X5. A tilde range keeps the major and the minor of its version and lets
    the patch grow. *)
Theorem tilde_rule (localeCompare : string -> string -> Z)
  (version rtext : string) (v r : Version) :
  parse version = Some v ->
  parse rtext = Some r ->
  (satisfies localeCompare version ("~" +:+ rtext) = true <->
   major v = major r /\ minor v = minor r /\ patch r <= patch v).
Proof.
  intros Hv Hr. change ("~" +:+ rtext) with (String "~" rtext).
  rewrite satisfies_tilde, Hv, Hr.
  destruct (Z.eqb_spec (major v) (major r)); cbn [negb orb];
    [| split; [discriminate | intros; lia]].
  destruct (Z.eqb_spec (minor v) (minor r)); cbn [negb orb];
    [| split; [discriminate | intros; lia]].
  rewrite Z.leb_le. split; [auto | intros; lia].
Qed.

Lemma tilde_rule_witness :
  satisfies Collation.localeCompare "1.2.9" ("~" +:+ "1.2.0") = true.
Proof.
  apply (proj2 (tilde_rule Collation.localeCompare "1.2.9" "1.2.0"
                  (mkVersion 1 2 9 None) (mkVersion 1 2 0 None)
                  eq_refl eq_refl)).
  vm_compute. repeat split; congruence.
Defined.

Lemma startsWith_two (a b c : ascii) (rest : string) :
  Ascii.eqb c b = false ->
  Str.startsWith (String a (String b EmptyString)) (String a (String c rest))
  = false.
Proof.
  intros H. cbn [Str.startsWith].
  rewrite (Ascii.eqb_sym b c), H, andb_false_l. apply andb_false_r.
Qed.

Lemma satisfies_strict (localeCompare : string -> string -> Z)
  (version : string) (c : ascii) (rest : string) (v r : Version) :
  Ascii.eqb c "=" = false ->
  parse version = Some v ->
  parse (String c rest) = Some r ->
  satisfies localeCompare version (String ">" (String c rest))
  = (0 <? compare localeCompare v r)
  /\ satisfies localeCompare version (String "<" (String c rest))
     = (compare localeCompare v r <? 0).
Proof.
  intros Hc Hv Hr. unfold satisfies.
  rewrite (SemverFacts.parse_Some_nonempty _ _ Hv), Hv. cbn [Str.isEmpty orb].
  split.
  - change (hasRangeOperator (String ">" (String c rest))) with true.
    change (Str.startsWith "^" (String ">" (String c rest))) with false.
    change (Str.startsWith "~" (String ">" (String c rest))) with false.
    rewrite (startsWith_two ">" "=" c rest Hc).
    change (Str.startsWith "<=" (String ">" (String c rest))) with false.
    change (Str.startsWith ">" (String ">" (String c rest))) with true.
    change (Str.slice 1 (String ">" (String c rest))) with (String c rest).
    cbn [negb]. rewrite Hr. reflexivity.
  - change (hasRangeOperator (String "<" (String c rest))) with true.
    change (Str.startsWith "^" (String "<" (String c rest))) with false.
    change (Str.startsWith "~" (String "<" (String c rest))) with false.
    change (Str.startsWith ">=" (String "<" (String c rest))) with false.
    rewrite (startsWith_two "<" "=" c rest Hc).
    change (Str.startsWith ">" (String "<" (String c rest))) with false.
    change (Str.startsWith "<" (String "<" (String c rest))) with true.
    change (Str.slice 1 (String "<" (String c rest))) with (String c rest).
    cbn [negb]. rewrite Hr. reflexivity.
Qed.

Lemma satisfies_inclusive (localeCompare : string -> string -> Z)
  (version rtext : string) :
  satisfies localeCompare version (String ">" (String "=" rtext))
  = match parse version, parse rtext with
    | Some v, Some r => 0 <=? compare localeCompare v r
    | _, _ => false
    end
  /\ satisfies localeCompare version (String "<" (String "=" rtext))
     = match parse version, parse rtext with
       | Some v, Some r => compare localeCompare v r <=? 0
       | _, _ => false
       end
  /\ satisfies localeCompare version (String "=" rtext)
     = match parse version, parse rtext with
       | Some v, Some r => compare localeCompare v r =? 0
       | _, _ => false
       end.
Proof.
  unfold satisfies.
  destruct version as [|a version]; [repeat split; reflexivity |].
  cbn [Str.isEmpty orb].
  destruct (parse (String a version)) as [v|]; repeat split; reflexivity.
Qed.

(** What [satisfies] does with a comparator in front of a version text. *)
Lemma satisfies_comparators (localeCompare : string -> string -> Z)
  (version rtext : string) (v r : Version) :
  parse version = Some v ->
  parse rtext = Some r ->
  satisfies localeCompare version (">=" +:+ rtext) = (0 <=? compare localeCompare v r)
  /\ satisfies localeCompare version ("<=" +:+ rtext) = (compare localeCompare v r <=? 0)
  /\ satisfies localeCompare version (">" +:+ rtext) = (0 <? compare localeCompare v r)
  /\ satisfies localeCompare version ("<" +:+ rtext) = (compare localeCompare v r <? 0)
  /\ satisfies localeCompare version ("=" +:+ rtext) = (compare localeCompare v r =? 0).
Proof.
  intros Hv Hr.
  destruct (satisfies_inclusive localeCompare version rtext) as (Hge & Hle & Heq).
  rewrite Hv, Hr in Hge, Hle, Heq.
  destruct (parse_first_char _ _ Hr) as (c & rest & -> & Hc).
  assert (Hc' : Ascii.eqb c "=" = false).
  { unfold isRangeOperator in Hc. rewrite !orb_false_iff in Hc. tauto. }
  destruct (satisfies_strict localeCompare version c rest v r Hc' Hv Hr)
    as (Hgt & Hlt).
  repeat split; assumption.
Qed.

(** X6. Of the comparators [>=] and [<] on one version exactly one is
    satisfied, and so of [<=] and [>]; [=] is satisfied when both [>=] and
    [<=] are. *)
Theorem comparators_complement (localeCompare : string -> string -> Z)
  (version rtext : string) (v r : Version) :
  parse version = Some v ->
  parse rtext = Some r ->
  satisfies localeCompare version (">=" +:+ rtext)
  = negb (satisfies localeCompare version ("<" +:+ rtext))
  /\ satisfies localeCompare version ("<=" +:+ rtext)
     = negb (satisfies localeCompare version (">" +:+ rtext))
  /\ satisfies localeCompare version ("=" +:+ rtext)
     = satisfies localeCompare version (">=" +:+ rtext)
       && satisfies localeCompare version ("<=" +:+ rtext).
Proof.
  intros Hv Hr.
  destruct (satisfies_comparators localeCompare _ _ _ _ Hv Hr)
    as (-> & -> & -> & -> & ->).
  generalize (compare localeCompare v r). intros z. repeat split.
  - destruct (Z.leb_spec 0 z), (Z.ltb_spec z 0); try reflexivity; lia.
  - destruct (Z.leb_spec z 0), (Z.ltb_spec 0 z); try reflexivity; lia.
  - destruct (Z.eqb_spec z 0), (Z.leb_spec 0 z), (Z.leb_spec z 0);
      try reflexivity; lia.
Qed.

Lemma comparators_complement_witness :
  satisfies Collation.localeCompare "1.5.0" (">=" +:+ "1.0.0")
  = negb (satisfies Collation.localeCompare "1.5.0" ("<" +:+ "1.0.0")).
Proof.
  apply (comparators_complement Collation.localeCompare "1.5.0" "1.0.0"
           (mkVersion 1 5 0 None) (mkVersion 1 0 0 None) eq_refl eq_refl).
Defined.

Lemma span_all (p : ascii -> bool) (d : string) :
  Str.existsb (fun c => negb (p c)) d = false ->
  Str.span p d = (d, EmptyString).
Proof.
  induction d as [|c d IH]; [reflexivity |].
  cbn [Str.existsb]. rewrite orb_false_iff, negb_false_iff. intros [Hc Hd].
  cbn [Str.span]. rewrite Hc, (IH Hd). reflexivity.
Qed.

Lemma span_digits (d : string) (c : ascii) (t : string) :
  Shape.allDigits d ->
  Str.isDigit c = false ->
  Str.span Str.isDigit (d +:+ String c t) = (d, String c t).
Proof.
  intros [_ Hd] Hc.
  rewrite (span_append _ _ _ _ _ _ (span_all _ _ Hd) Hc). reflexivity.
Qed.

Lemma allDigits_head (d : string) :
  Shape.allDigits d ->
  exists c d', d = String c d' /\ Str.isDigit c = true.
Proof.
  intros [Hne Hd]. destruct d as [|c d']; [discriminate |].
  exists c, d'. split; [reflexivity |].
  cbn [Str.existsb] in Hd. rewrite orb_false_iff, negb_false_iff in Hd. tauto.
Qed.

Lemma satisfies_wildcard_branch (localeCompare : string -> string -> Z)
  (version : string) (c : ascii) (rest : string) :
  isRangeOperator c = false ->
  hasRangeOperator (String c rest) = true ->
  satisfies localeCompare version (String c rest) =
  match parse version with
  | None => false
  | Some v =>
      match wildcardMatch (String c rest) with
      | Some (g1, g3) =>
          if negb (major v =? Str.parseInt g1) then false
          else match g3 with
          | None => true
          | Some d => minor v =? Str.parseInt d
          end
      | None => false
      end
  end.
Proof.
  intros Hc Hop. unfold satisfies.
  destruct version as [|a version]; [reflexivity |].
  cbn [Str.isEmpty orb].
  destruct (parse (String a version)) as [v|]; [| reflexivity].
  rewrite Hop, (SemverFacts.isStarOrX_head _ _ Hc). cbn [negb].
  unfold isRangeOperator in Hc. rewrite !orb_false_iff in Hc.
  destruct Hc as [[[[[[Htilde Hcaret] Hgt] Hlt] Heq] _] _].
  rewrite !SemverFacts.startsWith_head by assumption. reflexivity.
Qed.

Lemma hasRangeOperator_suffix (d suffix : string) :
  hasRangeOperator suffix = true -> hasRangeOperator (d +:+ suffix) = true.
Proof.
  intros H. unfold hasRangeOperator in *.
  rewrite IocFacts.existsb_append, H. apply orb_true_r.
Qed.

(** X7. The wildcards: [*] and [x] are satisfied by every version text
    that [parse] accepts; [M.x] and [M.*] by the versions of major [M]; and
    [M.m.x] and [M.m.*] by the versions of major [M] and minor [m]. *)
Theorem wildcard_rules (localeCompare : string -> string -> Z)
  (version : string) (v : Version) (M m : string) :
  parse version = Some v ->
  Shape.allDigits M ->
  Shape.allDigits m ->
  satisfies localeCompare version "*" = true
  /\ satisfies localeCompare version "x" = true
  /\ satisfies localeCompare version (M +:+ ".x") = (major v =? Str.parseInt M)
  /\ satisfies localeCompare version (M +:+ ".*") = (major v =? Str.parseInt M)
  /\ satisfies localeCompare version (M +:+ "." +:+ m +:+ ".x")
     = (major v =? Str.parseInt M) && (minor v =? Str.parseInt m)
  /\ satisfies localeCompare version (M +:+ "." +:+ m +:+ ".*")
     = (major v =? Str.parseInt M) && (minor v =? Str.parseInt m).
Proof.
  intros Hv HM Hm.
  assert (Hne := SemverFacts.parse_Some_nonempty _ _ Hv).
  split; [unfold satisfies; rewrite Hne, Hv; reflexivity |].
  split; [unfold satisfies; rewrite Hne, Hv; reflexivity |].
  destruct (allDigits_head _ HM) as (c & M' & HMeq & Hc).
  destruct (allDigits_head _ Hm) as (c2 & m' & Hmeq & Hc2).
  assert (Hnop := SemverFacts.digit_not_operator _ Hc).
  subst M.
  assert (Hshort : forall w, isStarOrX (String w EmptyString) = true ->
            hasRangeOperator (String w EmptyString) = true ->
            satisfies localeCompare version ((String c M') +:+ String "." (String w EmptyString))
            = (major v =? Str.parseInt (String c M'))).
  { intros w Hw Hwop.
    assert (Hop : hasRangeOperator ((String c M') +:+ String "." (String w EmptyString)) = true).
    { apply hasRangeOperator_suffix. unfold hasRangeOperator in *.
      cbn [Str.existsb] in *. rewrite Hwop. apply orb_true_r. }
    assert (Hwild : wildcardMatch ((String c M') +:+ String "." (String w EmptyString))
                    = Some ((String c M'), None)).
    { unfold wildcardMatch. rewrite (span_digits (String c M') "." _ HM eq_refl).
      rewrite (proj1 HM), Hw. reflexivity. }
    rewrite StrFacts.append_cons in Hop, Hwild. rewrite StrFacts.append_cons.
    rewrite (satisfies_wildcard_branch _ _ _ _ Hnop Hop), Hv, Hwild.
    destruct (major v =? Str.parseInt (String c M')); reflexivity. }
  assert (Hlong : forall w, isStarOrX (String w EmptyString) = true ->
            hasRangeOperator (String w EmptyString) = true ->
            satisfies localeCompare version
              ((String c M') +:+ String "." (m +:+ String "." (String w EmptyString)))
            = (major v =? Str.parseInt (String c M')) && (minor v =? Str.parseInt m)).
  { intros w Hw Hwop.
    assert (Hop : hasRangeOperator
              ((String c M') +:+ String "." (m +:+ String "." (String w EmptyString))) = true).
    { apply hasRangeOperator_suffix. unfold hasRangeOperator.
      cbn [Str.existsb]. fold (hasRangeOperator (m +:+ String "." (String w EmptyString))).
      rewrite hasRangeOperator_suffix; [apply orb_true_r |].
      unfold hasRangeOperator in *. cbn [Str.existsb] in *.
      rewrite Hwop. apply orb_true_r. }
    assert (Hwild : wildcardMatch
              ((String c M') +:+ String "." (m +:+ String "." (String w EmptyString)))
              = Some ((String c M'), Some m)).
    { unfold wildcardMatch. rewrite (span_digits (String c M') "." _ HM eq_refl).
      rewrite (proj1 HM).
      rewrite (span_digits m "." _ Hm eq_refl), (proj1 Hm), Hw.
      rewrite Hmeq at 1. rewrite StrFacts.append_cons.
      rewrite (SemverFacts.isStarOrX_head _ _
                 (SemverFacts.digit_not_operator _ Hc2)).
      reflexivity. }
    rewrite StrFacts.append_cons in Hop, Hwild. rewrite StrFacts.append_cons.
    rewrite (satisfies_wildcard_branch _ _ _ _ Hnop Hop), Hv, Hwild.
    destruct (major v =? Str.parseInt (String c M')); reflexivity. }
  change ((String c M') +:+ ".x") with ((String c M') +:+ String "." (String "x" EmptyString)).
  change ((String c M') +:+ ".*") with ((String c M') +:+ String "." (String "*" EmptyString)).
  change ("." +:+ m +:+ ".x") with (String "." (m +:+ String "." (String "x" EmptyString))).
  change ("." +:+ m +:+ ".*") with (String "." (m +:+ String "." (String "*" EmptyString))).
  repeat split; (apply Hshort || apply Hlong); reflexivity.
Qed.

Lemma wildcard_rules_witness :
  satisfies Collation.localeCompare "4.17.19" ("4" +:+ "." +:+ "17" +:+ ".x")
  = (4 =? Str.parseInt "4") && (17 =? Str.parseInt "17").
Proof.
  apply (wildcard_rules Collation.localeCompare "4.17.19"
           (mkVersion 4 17 19 None) "4" "17" eq_refl);
    split; reflexivity.
Defined.

End SemverMore.


(** ** More on the Node.js matcher ([matchers.js]) *)

Module NodeMatcherMore.

Import NodeMatcher.

Section WithCollation.

Variable localeCompare : string -> string -> Z.

Lemma directLoop_first (dep : Dependency) (cleanedSpec : string)
  (iocVersions : list string) :
  directLoop localeCompare dep cleanedSpec iocVersions =
  match List.find (Semver.equal localeCompare cleanedSpec) iocVersions with
  | Some v => [mkMatch (name dep) v "DIRECT" (filePath dep) None]
  | None => []
  end.
Proof.
  induction iocVersions as [|v vs IH]; [reflexivity |].
  cbn [directLoop List.find].
  destruct (Semver.equal _ _ _); [reflexivity | exact IH].
Qed.

Lemma transitiveLoop_first (pkg : ResolvedPackage) (iocVersions : list string) :
  transitiveLoop localeCompare pkg iocVersions =
  if List.existsb (Semver.equal localeCompare (pkgVersion pkg)) iocVersions
  then [mkMatch (pkgName pkg) (pkgVersion pkg) "TRANSITIVE" (lockfilePath pkg) None]
  else [].
Proof.
  induction iocVersions as [|v vs IH]; [reflexivity |].
  cbn [transitiveLoop List.existsb].
  destruct (Semver.equal _ _ _); [reflexivity | exact IH].
Qed.

Lemma directLoop_at_most_one (dep : Dependency) (cleanedSpec : string)
  (iocVersions : list string) :
  (length (directLoop localeCompare dep cleanedSpec iocVersions) <= 1)%nat.
Proof.
  rewrite directLoop_first. destruct (List.find _ _); cbn; lia.
Qed.

(** X8. Direct and potential matching never both report a declared
    dependency, and each reports it once at most: together they return no
    more findings than there are declared dependencies. *)
Theorem one_report_per_declared_dependency (dependencies : list Dependency)
  (iocMap : gmap string (list string)) :
  (length (matchDirectDependencies localeCompare dependencies iocMap)
   + length (matchPotentialDependencies localeCompare dependencies iocMap)
   <= length dependencies)%nat.
Proof.
  unfold matchDirectDependencies, matchPotentialDependencies.
  induction dependencies as [|dep deps IH]; [cbn; lia |].
  cbn [flat_map length]. rewrite !length_app.
  destruct (iocMap !! name dep) as [[|v vs]|]; cbn [length]; try lia.
  destruct (Semver.isExactVersion (versionSpec dep)); cbn [length].
  - pose proof (directLoop_at_most_one dep (Semver.stripV (versionSpec dep))
                  (v :: vs)). lia.
  - pose proof (MatcherFacts.potentialLoop_at_most_one localeCompare dep (v :: vs)).
    lia.
Qed.

(** X9. What a DIRECT finding means: it comes from a declared dependency
    whose specifier is an exact version, it carries that dependency's name
    and file, and its version is a version the table lists for the name, one
    that [equal] identifies with the declared version once a leading [v] is
    removed.  The version text reported is the table's, not the manifest's. *)
Theorem matchDirectDependencies_sound (dependencies : list Dependency)
  (iocMap : gmap string (list string)) (m : Match) :
  In m (matchDirectDependencies localeCompare dependencies iocMap) ->
  exists dep iocVersions,
    In dep dependencies
    /\ iocMap !! name dep = Some iocVersions
    /\ Semver.isExactVersion (versionSpec dep) = true
    /\ In (version m) iocVersions
    /\ Semver.equal localeCompare (Semver.stripV (versionSpec dep)) (version m)
       = true
    /\ m = mkMatch (name dep) (version m) "DIRECT" (filePath dep) None.
Proof.
  unfold matchDirectDependencies. rewrite in_flat_map.
  intros (dep & Hdep & Hm). exists dep.
  destruct (iocMap !! name dep) as [[|v vs]|]; try contradiction.
  exists (v :: vs). split; [exact Hdep |]. split; [reflexivity |].
  destruct (Semver.isExactVersion (versionSpec dep)); [| contradiction].
  split; [reflexivity |].
  rewrite directLoop_first in Hm.
  destruct (List.find _ (v :: vs)) as [w|] eqn:Hfind; [| contradiction].
  destruct Hm as [<- | []]. cbn [version].
  apply List.find_some in Hfind. destruct Hfind as [Hin Heq].
  repeat split; assumption.
Qed.

(** X10. Direct matching misses nothing it is meant to find: a declared
    dependency with an exact version that [equal] identifies with a listed
    version of its package gives a DIRECT finding with its name and file. *)
Theorem matchDirectDependencies_complete (dependencies : list Dependency)
  (iocMap : gmap string (list string)) (dep : Dependency)
  (iocVersions : list string) (iocVersion : string) :
  In dep dependencies ->
  iocMap !! name dep = Some iocVersions ->
  Semver.isExactVersion (versionSpec dep) = true ->
  In iocVersion iocVersions ->
  Semver.equal localeCompare (Semver.stripV (versionSpec dep)) iocVersion = true ->
  exists reported,
    In (mkMatch (name dep) reported "DIRECT" (filePath dep) None)
       (matchDirectDependencies localeCompare dependencies iocMap).
Proof.
  intros Hdep Hget Hexact Hin Heq.
  destruct (List.find (Semver.equal localeCompare (Semver.stripV (versionSpec dep)))
              iocVersions) as [w|] eqn:Hfind.
  - exists w. unfold matchDirectDependencies. rewrite in_flat_map.
    exists dep. split; [exact Hdep |]. rewrite Hget, Hexact.
    destruct iocVersions as [|v vs]; [discriminate |].
    rewrite directLoop_first, Hfind. left. reflexivity.
  - pose proof (List.find_none _ _ Hfind _ Hin) as Hno. congruence.
Qed.

(** X11. Transitive matching, exactly: the findings are those of the
    resolved packages whose version [equal] identifies with a version listed
    for their name; each carries the lockfile's version text and the
    lockfile's path. *)
Theorem matchTransitiveDependencies_iff (resolvedPackages : list ResolvedPackage)
  (iocMap : gmap string (list string)) (m : Match) :
  In m (matchTransitiveDependencies localeCompare resolvedPackages iocMap) <->
  exists pkg iocVersions iocVersion,
    In pkg resolvedPackages
    /\ iocMap !! pkgName pkg = Some iocVersions
    /\ In iocVersion iocVersions
    /\ Semver.equal localeCompare (pkgVersion pkg) iocVersion = true
    /\ m = mkMatch (pkgName pkg) (pkgVersion pkg) "TRANSITIVE" (lockfilePath pkg)
             None.
Proof.
  unfold matchTransitiveDependencies. rewrite in_flat_map. split.
  - intros (pkg & Hpkg & Hm). exists pkg.
    destruct (iocMap !! pkgName pkg) as [[|v vs]|]; try contradiction.
    rewrite transitiveLoop_first in Hm.
    destruct (List.existsb _ (v :: vs)) eqn:Hex; [| contradiction].
    apply List.existsb_exists in Hex. destruct Hex as (w & Hin & Heq).
    destruct Hm as [<- | []].
    exists (v :: vs), w. repeat split; assumption.
  - intros (pkg & vs & w & Hpkg & Hget & Hin & Heq & ->).
    exists pkg. split; [exact Hpkg |]. rewrite Hget.
    destruct vs as [|v vs]; [contradiction |].
    rewrite transitiveLoop_first.
    replace (List.existsb _ (v :: vs)) with true.
    + left. reflexivity.
    + symmetry. apply List.existsb_exists. exists w. split; assumption.
Qed.

(** X12. A blind spot of the declared-dependency matching: a dependency
    pinned to a version whose text holds one of the characters
    [^ ~ > < = * x], as the prerelease [1.0.0-next.1] does, is reported
    neither as DIRECT nor as POTENTIAL, whatever the table lists. *)
Theorem pinned_version_with_operator_character_is_not_reported
  (dependencies : list Dependency) (iocMap : gmap string (list string)) :
  (forall dep, In dep dependencies ->
     Semver.parse (versionSpec dep) <> None
     /\ Semver.hasRangeOperator (versionSpec dep) = true) ->
  matchDirectDependencies localeCompare dependencies iocMap = []
  /\ matchPotentialDependencies localeCompare dependencies iocMap = [].
Proof.
  intros H. unfold matchDirectDependencies, matchPotentialDependencies.
  induction dependencies as [|dep deps IH]; [split; reflexivity |].
  cbn [flat_map].
  destruct IH as [IHd IHp]; [intros d Hd; apply H; right; exact Hd |].
  rewrite IHd, IHp, !app_nil_r.
  destruct (H dep (or_introl eq_refl)) as [Hparse Hop].
  assert (Hexact : Semver.isExactVersion (versionSpec dep) = false).
  { unfold Semver.isExactVersion. rewrite Hop.
    destruct (Str.isEmpty (versionSpec dep)); reflexivity. }
  rewrite Hexact.
  destruct (iocMap !! name dep) as [[|v vs]|]; try (split; reflexivity).
  split; [reflexivity |].
  apply MatcherFacts.potentialLoop_unsatisfied. intros version.
  destruct (Semver.parse (versionSpec dep)) as [r|] eqn:Hr; [| congruence].
  exact (SemverFacts.version_text_with_operator_satisfies_nothing
           localeCompare version _ r Hr Hop).
Qed.

End WithCollation.

Lemma matchDirectDependencies_sound_witness :
  exists dep iocVersions,
    In dep [mkDependency "lodash" "v4.17.20" "dependencies" "package.json"]
    /\ ({[ "lodash" := ["4.17.19"; "4.17.20"] ]} : gmap string (list string))
         !! name dep = Some iocVersions
    /\ Semver.isExactVersion (versionSpec dep) = true
    /\ In "4.17.20" iocVersions
    /\ Semver.equal Collation.localeCompare (Semver.stripV (versionSpec dep))
         "4.17.20" = true
    /\ mkMatch "lodash" "4.17.20" "DIRECT" "package.json" None
       = mkMatch (name dep) "4.17.20" "DIRECT" (filePath dep) None.
Proof.
  apply (matchDirectDependencies_sound Collation.localeCompare
           [mkDependency "lodash" "v4.17.20" "dependencies" "package.json"]
           {[ "lodash" := ["4.17.19"; "4.17.20"] ]}
           (mkMatch "lodash" "4.17.20" "DIRECT" "package.json" None)).
  vm_compute. left. reflexivity.
Defined.

Lemma matchDirectDependencies_complete_witness :
  exists reported,
    In (mkMatch "lodash" reported "DIRECT" "package.json" None)
       (matchDirectDependencies Collation.localeCompare
          [mkDependency "lodash" "v4.17.20" "dependencies" "package.json"]
          {[ "lodash" := ["4.17.19"; "4.17.20"] ]}).
Proof.
  apply (matchDirectDependencies_complete Collation.localeCompare
           [mkDependency "lodash" "v4.17.20" "dependencies" "package.json"]
           {[ "lodash" := ["4.17.19"; "4.17.20"] ]}
           (mkDependency "lodash" "v4.17.20" "dependencies" "package.json")
           ["4.17.19"; "4.17.20"] "4.17.20").
  - left. reflexivity.
  - vm_compute. reflexivity.
  - vm_compute. reflexivity.
  - right. left. reflexivity.
  - vm_compute. reflexivity.
Defined.

Lemma pinned_version_with_operator_character_is_not_reported_witness :
  matchDirectDependencies Collation.localeCompare
    [mkDependency "left-pad" "1.0.0-next.1" "dependencies" "package.json"]
    {[ "left-pad" := ["1.0.0-next.1"] ]} = []
  /\ matchPotentialDependencies Collation.localeCompare
       [mkDependency "left-pad" "1.0.0-next.1" "dependencies" "package.json"]
       {[ "left-pad" := ["1.0.0-next.1"] ]} = [].
Proof.
  apply (pinned_version_with_operator_character_is_not_reported
           Collation.localeCompare
           [mkDependency "left-pad" "1.0.0-next.1" "dependencies" "package.json"]
           {[ "left-pad" := ["1.0.0-next.1"] ]}).
  intros dep [<- | []]. split; [discriminate | reflexivity].
Defined.

End NodeMatcherMore.


(** ** More on strings *)

Module StrMore.

Lemma dropWhile_none (p : ascii -> bool) (s : string) :
  Str.existsb p s = false -> Str.dropWhile p s = s.
Proof.
  destruct s as [|c s]; [reflexivity |].
  cbn [Str.existsb Str.dropWhile]. rewrite orb_false_iff. intros [-> _].
  reflexivity.
Qed.

Lemma dropWhileEnd_none (p : ascii -> bool) (s : string) :
  Str.existsb p s = false -> Str.dropWhileEnd p s = s.
Proof.
  induction s as [|c s IH]; [reflexivity |].
  cbn [Str.existsb Str.dropWhileEnd]. rewrite orb_false_iff. intros [Hc Hs].
  rewrite (IH Hs), Hc, andb_false_r. reflexivity.
Qed.

Lemma trimWith_none (p : ascii -> bool) (s : string) :
  Str.existsb p s = false -> Str.trimWith p s = s.
Proof.
  intros H. unfold Str.trimWith.
  rewrite (dropWhile_none _ _ H). apply dropWhileEnd_none, H.
Qed.

Lemma dropWhile_head (p : ascii -> bool) (s : string) (c : ascii) (t : string) :
  Str.dropWhile p s = String c t -> p c = false.
Proof.
  induction s as [|a s IH]; [discriminate |].
  cbn [Str.dropWhile]. destruct (p a) eqn:Ha; [exact IH |].
  intros [= <- _]. exact Ha.
Qed.

Lemma dropWhileEnd_cons (p : ascii -> bool) (c : ascii) (s : string) :
  p c = false ->
  Str.dropWhileEnd p (String c s) = String c (Str.dropWhileEnd p s).
Proof.
  intros Hc. cbn [Str.dropWhileEnd]. rewrite Hc, andb_false_r. reflexivity.
Qed.

Lemma dropWhileEnd_idem (p : ascii -> bool) (s : string) :
  Str.dropWhileEnd p (Str.dropWhileEnd p s) = Str.dropWhileEnd p s.
Proof.
  induction s as [|c s IH]; [reflexivity |].
  cbn [Str.dropWhileEnd].
  destruct (Str.isEmpty (Str.dropWhileEnd p s) && p c) eqn:E; [reflexivity |].
  cbn [Str.dropWhileEnd]. rewrite IH, E. reflexivity.
Qed.

(** What is left of a text after the trimming begins with a character that
    is kept. *)
Lemma trimWith_head (p : ascii -> bool) (s : string) (c : ascii) (t : string) :
  Str.trimWith p s = String c t -> p c = false.
Proof.
  unfold Str.trimWith.
  destruct (Str.dropWhile p s) as [|a u] eqn:Hd; [discriminate |].
  pose proof (dropWhile_head _ _ _ _ Hd) as Ha.
  rewrite (dropWhileEnd_cons _ _ _ Ha). intros [= <- _]. exact Ha.
Qed.

Lemma trimWith_cons (p : ascii -> bool) (c : ascii) (s : string) :
  p c = false ->
  Str.trimWith p (String c s) = String c (Str.dropWhileEnd p s).
Proof.
  intros Hc. unfold Str.trimWith. cbn [Str.dropWhile]. rewrite Hc.
  apply dropWhileEnd_cons, Hc.
Qed.

Lemma trimWith_idem (p : ascii -> bool) (s : string) :
  Str.trimWith p (Str.trimWith p s) = Str.trimWith p s.
Proof.
  destruct (Str.trimWith p s) as [|c t] eqn:E; [reflexivity |].
  pose proof (trimWith_head _ _ _ _ E) as Hc.
  rewrite (trimWith_cons _ _ _ Hc). rewrite <- (dropWhileEnd_cons _ _ _ Hc).
  rewrite <- E. unfold Str.trimWith. apply dropWhileEnd_idem.
Qed.

Lemma splitChar_cons (sep : ascii) (s : string) :
  exists h t, Str.splitChar sep s = h :: t.
Proof.
  destruct s as [|c s]; cbn [Str.splitChar]; [eauto |].
  destruct (Ascii.eqb c sep); [eauto |].
  destruct (Str.splitChar sep s); cbn; eauto.
Qed.

(** The first field of a split text begins as the text does. *)
Lemma splitChar_head (sep c : ascii) (s h : string) (t : list string) :
  Str.splitChar sep (String c s) = h :: t ->
  h = EmptyString \/ exists h', h = String c h'.
Proof.
  cbn [Str.splitChar]. destruct (Ascii.eqb c sep).
  - intros [= <- _]. left. reflexivity.
  - destruct (Str.splitChar sep s) as [|h0 t0]; cbn [Str.consHead];
      intros [= <- _]; right; eauto.
Qed.

Lemma splitChar_append (sep : ascii) (a b : string) :
  Str.splitChar sep (a +:+ String sep b)
  = (Str.splitChar sep a ++ Str.splitChar sep b)%list.
Proof.
  induction a as [|c a IH].
  - change (EmptyString +:+ String sep b) with (String sep b).
    cbn [Str.splitChar]. rewrite Ascii.eqb_refl. reflexivity.
  - rewrite StrFacts.append_cons. cbn [Str.splitChar].
    destruct (Ascii.eqb c sep); rewrite IH; [reflexivity |].
    destruct (splitChar_cons sep a) as (h & t & ->). reflexivity.
Qed.

Lemma splitChar_none (sep : ascii) (s : string) :
  Str.existsb (Ascii.eqb sep) s = false -> Str.splitChar sep s = [s].
Proof.
  induction s as [|c s IH]; [reflexivity |].
  cbn [Str.existsb Str.splitChar]. rewrite orb_false_iff. intros [Hc Hs].
  rewrite Ascii.eqb_sym, Hc, (IH Hs). reflexivity.
Qed.

End StrMore.


(** ** More on the IoC table of the Node.js implementation *)

Module NodeIocMore.

Import IocInvariant Shape.

Lemma trim_trimmed (s : string) :
  Str.isEmpty (NodeIoc.trim s) = false -> trimmedJS (NodeIoc.trim s).
Proof.
  intros H. split.
  - intros E. rewrite E in H. discriminate.
  - apply StrMore.trimWith_idem.
Qed.

Lemma addVersionPart_wellFormed (pkgName : string)
  (iocMap : gmap string (list string)) (versionPart : string) :
  tableWellFormed iocMap ->
  tableWellFormed (NodeIoc.addVersionPart pkgName iocMap versionPart).
Proof.
  intros Hinv. unfold NodeIoc.addVersionPart.
  destruct (Str.isEmpty (NodeIoc.trim (NodeIoc.stripEquals versionPart))) eqn:E;
    [exact Hinv |].
  intros k vs. unfold NodeIoc.push. rewrite lookup_alter. case_decide.
  - subst k. destruct (iocMap !! pkgName) as [old|] eqn:Hold; [| discriminate].
    cbn. intros [= <-]. destruct (Hinv _ _ Hold) as [Hk Hvs].
    split; [exact Hk |]. apply Forall_app. split; [exact Hvs |].
    constructor; [apply trim_trimmed, E | constructor].
  - apply Hinv.
Qed.

Lemma addLine_wellFormed (iocMap : gmap string (list string)) (rawLine : string) :
  tableWellFormed iocMap -> tableWellFormed (NodeIoc.addLine iocMap rawLine).
Proof.
  intros Hinv. unfold NodeIoc.addLine.
  destruct (NodeIoc.trim rawLine) as [|c line] eqn:Hline; [exact Hinv |].
  cbn [Str.isEmpty].
  pose proof (StrMore.trimWith_head _ _ _ _ Hline) as Hc.
  destruct (Str.splitChar "," (String c line)) as [|packageName [|versionSpec more]]
    eqn:Hsplit; try exact Hinv.
  destruct (Str.isEmpty packageName) eqn:Hname; [exact Hinv |].
  destruct (Str.isEmpty versionSpec); [exact Hinv |]. cbn [orb].
  assert (Hkey : trimmedJS (NodeIoc.trim packageName)).
  { apply trim_trimmed.
    destruct (StrMore.splitChar_head _ _ _ _ _ Hsplit) as [-> | [h' ->]];
      [discriminate |].
    unfold NodeIoc.trim. rewrite (StrMore.trimWith_cons _ _ _ Hc). reflexivity. }
  assert (Hstart : tableWellFormed
            match iocMap !! NodeIoc.trim packageName with
            | Some _ => iocMap
            | None => <[NodeIoc.trim packageName := []]> iocMap
            end).
  { destruct (iocMap !! NodeIoc.trim packageName); [exact Hinv |].
    intros k vs. rewrite lookup_insert. case_decide; [| apply Hinv].
    subst k. intros [= <-]. split; [exact Hkey | constructor]. }
  revert Hstart. generalize (match iocMap !! NodeIoc.trim packageName with
                             | Some _ => iocMap
                             | None => <[NodeIoc.trim packageName := []]> iocMap
                             end).
  induction (map NodeIoc.trim (Str.splitBars versionSpec)) as [|part parts IH];
    intros m Hm; [exact Hm |].
  apply IH, addVersionPart_wellFormed, Hm.
Qed.

(** X13. The table that [parseIoCCsv] builds is well formed, whatever the
    CSV text: every package name and every version in it is a text that is
    not empty and has no white space at either end. *)
Theorem parseIoCCsv_tableWellFormed (csvText : string) :
  tableWellFormed (NodeIoc.parseIoCCsv csvText).
Proof.
  unfold NodeIoc.parseIoCCsv.
  assert (H0 : tableWellFormed (∅ : gmap string (list string))).
  { intros k vs. rewrite lookup_empty. discriminate. }
  revert H0. generalize (∅ : gmap string (list string)).
  induction (tail (Str.splitChar NodeIoc.newline csvText)) as [|l ls IH];
    intros m Hm; [exact Hm |].
  apply IH, addLine_wellFormed, Hm.
Qed.

Lemma parseIoCCsv_tableWellFormed_witness :
  trimmedJS "lodash" /\ Forall trimmedJS ["4.17.19"; "4.17.20"].
Proof.
  apply (parseIoCCsv_tableWellFormed
           ("Package,Version" +:+ nl +:+ " lodash , = 4.17.19 ||= 4.17.20 ")
           "lodash").
  vm_compute. reflexivity.
Defined.

(** Parsing a text in two parts: the lines of the second part are added to
    the table of the first. *)
Lemma parseIoCCsv_append (csvText rest : string) :
  NodeIoc.parseIoCCsv (csvText +:+ nl +:+ rest)
  = fold_left NodeIoc.addLine (Str.splitChar NodeIoc.newline rest)
      (NodeIoc.parseIoCCsv csvText).
Proof.
  unfold NodeIoc.parseIoCCsv.
  change (csvText +:+ nl +:+ rest) with (csvText +:+ String NodeIoc.newline rest).
  rewrite StrMore.splitChar_append.
  destruct (StrMore.splitChar_cons NodeIoc.newline csvText) as (h & t & ->).
  cbn [app tail]. apply fold_left_app.
Qed.

(** X14. Rows accumulate.  A row added at the end of the CSV text, with a
    package name and a version cell, adds the versions of its cell after
    those the earlier rows gave the package, in the order of the cell, and
    changes no other package. *)
Theorem parseIoCCsv_rows_accumulate
  (csvText rawLine packageName versionSpec : string) (more : list string) :
  without NodeIoc.newline rawLine ->
  Str.isEmpty (NodeIoc.trim rawLine) = false ->
  Str.splitChar "," (NodeIoc.trim rawLine) = packageName :: versionSpec :: more ->
  Str.isEmpty packageName = false ->
  Str.isEmpty versionSpec = false ->
  NodeIoc.parseIoCCsv (csvText +:+ nl +:+ rawLine)
  = <[NodeIoc.trim packageName :=
        (default [] (NodeIoc.parseIoCCsv csvText !! NodeIoc.trim packageName)
         ++ cellVersions versionSpec)%list]> (NodeIoc.parseIoCCsv csvText).
Proof.
  intros Hnl Hline Hsplit Hname Hspec.
  rewrite parseIoCCsv_append, (StrMore.splitChar_none _ _ Hnl).
  cbn [fold_left].
  exact (IocFacts.addLine_accumulates _ _ _ _ _ Hline Hsplit Hname Hspec).
Qed.

Lemma parseIoCCsv_rows_accumulate_witness :
  NodeIoc.parseIoCCsv
    (("Package,Version" +:+ nl +:+ "vulnerable,= 1.0.0") +:+ nl
     +:+ "vulnerable,= 1.0.1 || = 1.0.2")
  = <[NodeIoc.trim "vulnerable" :=
        (default []
           (NodeIoc.parseIoCCsv
              ("Package,Version" +:+ nl +:+ "vulnerable,= 1.0.0")
            !! NodeIoc.trim "vulnerable")
         ++ cellVersions "= 1.0.1 || = 1.0.2")%list]>
      (NodeIoc.parseIoCCsv ("Package,Version" +:+ nl +:+ "vulnerable,= 1.0.0")).
Proof.
  apply (parseIoCCsv_rows_accumulate
           ("Package,Version" +:+ nl +:+ "vulnerable,= 1.0.0")
           "vulnerable,= 1.0.1 || = 1.0.2" "vulnerable" "= 1.0.1 || = 1.0.2" []);
    reflexivity.
Defined.

End NodeIocMore.


(** ** More on the IoC database of the Go implementation *)

Module GoIocMore.

Import GoIoc Shape.

Lemma Lookup_insert_append (iocMap : gmap string (list string))
  (packageName version pkg ver : string) :
  Lookup (mkDatabase
            (<[packageName :=
                 (default [] (iocMap !! packageName) ++ [version])%list]> iocMap))
    pkg ver = true
  <-> Lookup (mkDatabase iocMap) pkg ver = true
      \/ (packageName = pkg /\ version = ver).
Proof.
  unfold Lookup. cbn [ioc]. rewrite lookup_insert. case_decide as Hk.
  - subst pkg. rewrite existsb_app. cbn [List.existsb].
    rewrite orb_false_r, orb_true_iff, String.eqb_eq.
    destruct (iocMap !! packageName); cbn [default List.existsb]; [tauto |].
    split; [tauto |]. intros [H | H]; [discriminate | right; tauto].
  - split; [tauto |]. intros [H | [H _]]; [exact H | contradiction].
Qed.

Lemma parseRecords_Lookup (iocMap result : gmap string (list string))
  (reads : list ReadResult) (pkg ver : string) :
  parseRecords iocMap reads = Ok result ->
  Lookup (mkDatabase result) pkg ver = true
  <-> Lookup (mkDatabase iocMap) pkg ver = true
      \/ Exists (rowLists pkg ver) reads.
Proof.
  revert iocMap. induction reads as [|[record | err] reads IH]; intros iocMap.
  - cbn [parseRecords]. intros [= <-]. rewrite Exists_nil. tauto.
  - cbn [parseRecords]. rewrite Exists_cons.
    destruct record as [|field0 [|field1 more]];
      try (intros H; rewrite (IH _ H); cbn [rowLists]; tauto).
    destruct (Str.isEmpty (TrimSpace field0)) eqn:E0;
      [intros H; rewrite (IH _ H); cbn [rowLists];
       destruct (TrimSpace field0); [| discriminate];
       split; [tauto |]; intros [H1 | [(<- & Hne & _) | H1]];
       [tauto | contradiction | tauto] |].
    destruct (Str.isEmpty (TrimSpace field1)) eqn:E1;
      [intros H; rewrite (IH _ H); cbn [rowLists];
       destruct (TrimSpace field1); [| discriminate];
       split; [tauto |]; intros [H1 | [(_ & _ & Hne & _) | H1]];
       [tauto | contradiction | tauto] |].
    cbn [orb]. intros H. rewrite (IH _ H), Lookup_insert_append.
    cbn [rowLists].
    assert (TrimSpace field1 <> EmptyString)
      by (intros E; rewrite E in E1; discriminate).
    assert (forall p, TrimSpace field0 = p -> p <> EmptyString)
      by (intros p <- E; rewrite E in E0; discriminate).
    split; [intros [[?|[? ?]]|?]; auto 6 | intros [?|[(? & ? & ? & ?)|?]]; auto].
  - discriminate.
Qed.

(** X16. What [Lookup] answers on a loaded database: a package and a
    version are found exactly when some record after the header has the
    package in its first field and the version in its second, the fields
    taken without the white space around them and the version without one
    leading [=] and the white space after it. *)
Theorem Lookup_iff_listed (reads : list ReadResult) (db : Database)
  (pkg ver : string) :
  NewDatabase reads = Ok db ->
  Lookup db pkg ver = true <-> Exists (rowLists pkg ver) (tail reads).
Proof.
  unfold NewDatabase, ParseCSV.
  destruct reads as [|[header | err] reads]; cbn [tail].
  - intros [= <-]. rewrite Exists_nil. unfold Lookup. cbn [ioc].
    rewrite lookup_empty. split; [discriminate | tauto].
  - destruct (parseRecords ∅ reads) as [result|] eqn:H; [| discriminate].
    intros [= <-]. rewrite (parseRecords_Lookup _ _ _ pkg ver H).
    unfold Lookup at 1. cbn [ioc]. rewrite lookup_empty.
    split; [intros [? | ?]; [discriminate | assumption] | tauto].
  - discriminate.
Qed.

Lemma Lookup_iff_listed_witness :
  Lookup (mkDatabase {[ "02-echo" := ["0.0.7"] ]}) "02-echo" "0.0.7" = true
  <-> Exists (rowLists "02-echo" "0.0.7")
        (tail [Fields ["Package"; "Version"]; Fields ["02-echo"; "= 0.0.7"]]).
Proof.
  apply (Lookup_iff_listed
           [Fields ["Package"; "Version"]; Fields ["02-echo"; "= 0.0.7"]]
           (mkDatabase {[ "02-echo" := ["0.0.7"] ]}) "02-echo" "0.0.7").
  vm_compute. reflexivity.
Defined.

Lemma size_le_fold (iocMap : gmap string (list string)) :
  IocInvariant.entriesNotEmpty iocMap ->
  (size iocMap
   <= map_fold (fun _ versions acc => (acc + length versions)%nat) 0%nat iocMap)%nat.
Proof.
  apply (map_fold_weak_ind
           (fun r (m : gmap string (list string)) =>
              IocInvariant.entriesNotEmpty m -> (size m <= r)%nat)).
  - intros _. rewrite map_size_empty. lia.
  - intros i x m r Hi IH Hne.
    rewrite (map_size_insert_None _ _ _ Hi).
    assert (Hx : x <> []) by (apply (Hne i); apply lookup_insert_eq).
    assert (Hm : IocInvariant.entriesNotEmpty m).
    { intros k vs Hk. apply (Hne k). rewrite lookup_insert_ne; [exact Hk |].
      intros ->. congruence. }
    specialize (IH Hm). destruct x; [contradiction |]. cbn [length]. lia.
Qed.

(** X17. In a loaded database every package counted has an entry: the
    number of packages ([Count]) never exceeds the number of entries
    ([Size]). *)
Theorem Count_le_Size (reads : list ReadResult) (db : Database) :
  NewDatabase reads = Ok db -> (Count db <= Size db)%nat.
Proof.
  unfold NewDatabase.
  destruct (ParseCSV reads) as [iocMap|] eqn:H; [| discriminate].
  intros [= <-]. unfold Count, Size. cbn [ioc].
  apply size_le_fold, (IocFacts.ParseCSV_entriesNotEmpty reads), H.
Qed.

Lemma Count_le_Size_witness :
  (Count (mkDatabase {[ "02-echo" := ["0.0.7"; "0.0.8"] ]})
   <= Size (mkDatabase {[ "02-echo" := ["0.0.7"; "0.0.8"] ]}))%nat.
Proof.
  apply (Count_le_Size
           [Fields ["Package"; "Version"]; Fields ["02-echo"; "= 0.0.7"];
            Fields ["02-echo"; "= 0.0.8"]]).
  vm_compute. reflexivity.
Defined.

End GoIocMore.


(** ** [strings.TrimSpace] *)

Module GoTrimFacts.

Import GoIoc Shape.

Section TrimLeft.

Variable is2 : ascii -> ascii -> bool.
Variable is3 : ascii -> ascii -> ascii -> bool.

Lemma trimLeftBytes_fixed (l : list ascii) :
  noLeadingSpace is2 is3 l = true -> trimLeftBytes is2 is3 l = l.
Proof.
  destruct l as [|b1 [|b2 [|b3 l3]]]; cbn [noLeadingSpace trimLeftBytes];
    rewrite ?andb_true_iff, ?negb_true_iff.
  - reflexivity.
  - intros [-> _]. reflexivity.
  - intros [-> [-> _]]. reflexivity.
  - intros [-> [-> ->]]. reflexivity.
Qed.

Lemma trimLeftBytes_spec (n : nat) :
  forall l, (length l <= n)%nat ->
    noLeadingSpace is2 is3 (trimLeftBytes is2 is3 l) = true
    /\ exists p, l = (p ++ trimLeftBytes is2 is3 l)%list.
Proof.
  induction n as [|n IH]; intros l Hlen.
  - destruct l; [| cbn in Hlen; lia]. split; [reflexivity | exists nil; reflexivity].
  - destruct l as [|b1 l1]; [split; [reflexivity | exists nil; reflexivity] |].
    cbn [length] in Hlen. cbn [trimLeftBytes].
    destruct (Str.isSpaceGo b1) eqn:E1.
    { destruct (IH l1 ltac:(lia)) as [H1 [p Hp]]. split; [exact H1 |].
      exists (b1 :: p). cbn [app]. rewrite <- Hp. reflexivity. }
    destruct l1 as [|b2 l2].
    { split; [cbn [noLeadingSpace]; rewrite E1; reflexivity | exists nil; reflexivity]. }
    cbn [length] in Hlen. destruct (is2 b1 b2) eqn:E2.
    { destruct (IH l2 ltac:(lia)) as [H1 [p Hp]]. split; [exact H1 |].
      exists (b1 :: b2 :: p). cbn [app]. rewrite <- Hp. reflexivity. }
    destruct l2 as [|b3 l3].
    { split; [cbn [noLeadingSpace]; rewrite E1, E2; reflexivity
             | exists nil; reflexivity]. }
    cbn [length] in Hlen. destruct (is3 b1 b2 b3) eqn:E3.
    { destruct (IH l3 ltac:(lia)) as [H1 [p Hp]]. split; [exact H1 |].
      exists (b1 :: b2 :: b3 :: p). cbn [app]. rewrite <- Hp. reflexivity. }
    split; [cbn [noLeadingSpace]; rewrite E1, E2, E3; reflexivity
           | exists nil; reflexivity].
Qed.

Lemma trimLeftBytes_noLeadingSpace (l : list ascii) :
  noLeadingSpace is2 is3 (trimLeftBytes is2 is3 l) = true.
Proof. exact (proj1 (trimLeftBytes_spec (length l) l (le_n _))). Qed.

Lemma trimLeftBytes_suffix (l : list ascii) :
  exists p, l = (p ++ trimLeftBytes is2 is3 l)%list.
Proof. exact (proj2 (trimLeftBytes_spec (length l) l (le_n _))). Qed.

Lemma trimLeftBytes_idem (l : list ascii) :
  trimLeftBytes is2 is3 (trimLeftBytes is2 is3 l) = trimLeftBytes is2 is3 l.
Proof. apply trimLeftBytes_fixed, trimLeftBytes_noLeadingSpace. Qed.

Lemma noLeadingSpace_prefix (r q : list ascii) :
  noLeadingSpace is2 is3 (r ++ q) = true -> noLeadingSpace is2 is3 r = true.
Proof.
  destruct r as [|b1 [|b2 [|b3 r3]]]; cbn [app noLeadingSpace];
    intros H; rewrite ?andb_true_iff in H.
  - reflexivity.
  - destruct H as [-> _]. reflexivity.
  - destruct H as [-> [-> _]]. reflexivity.
  - destruct H as [-> [-> ->]]. reflexivity.
Qed.

End TrimLeft.

Lemma TrimRightSpace_prefix (l : list ascii) :
  exists q, l = (TrimRightSpace l ++ q)%list.
Proof.
  unfold TrimRightSpace.
  destruct (trimLeftBytes_suffix (fun b2 b1 => isSpaceRune2 b1 b2)
              (fun b3 b2 b1 => isSpaceRune3 b1 b2 b3) (rev l)) as [p Hp].
  exists (rev p). rewrite <- rev_app_distr, <- Hp. symmetry. apply rev_involutive.
Qed.

Lemma TrimRightSpace_idem (l : list ascii) :
  TrimRightSpace (TrimRightSpace l) = TrimRightSpace l.
Proof.
  unfold TrimRightSpace. rewrite rev_involutive, trimLeftBytes_idem. reflexivity.
Qed.

Lemma TrimSpace_bytes_idem (l : list ascii) :
  TrimRightSpace (TrimLeftSpace (TrimRightSpace (TrimLeftSpace l)))
  = TrimRightSpace (TrimLeftSpace l).
Proof.
  assert (Hleft : TrimLeftSpace (TrimRightSpace (TrimLeftSpace l))
                  = TrimRightSpace (TrimLeftSpace l)).
  { unfold TrimLeftSpace at 1. apply trimLeftBytes_fixed.
    destruct (TrimRightSpace_prefix (TrimLeftSpace l)) as [q Hq].
    apply (noLeadingSpace_prefix _ _ _ q). rewrite <- Hq.
    apply trimLeftBytes_noLeadingSpace. }
  rewrite Hleft. apply TrimRightSpace_idem.
Qed.

(** [strings.TrimSpace] leaves what it returns as it is. *)
Lemma TrimSpace_idem (s : string) : TrimSpace (TrimSpace s) = TrimSpace s.
Proof.
  unfold TrimSpace. rewrite list_ascii_of_string_of_list_ascii.
  rewrite TrimSpace_bytes_idem. reflexivity.
Qed.

(** White space outside ASCII: U+00A0 (bytes 194 160) is removed at both
    ends, and so are U+2028 and U+3000 together with ASCII white space; the
    byte 160 alone is not the encoding of a character and stays. *)
Example TrimSpace_unicode :
  TrimSpace ("1.0.0" +:+ String (ascii_of_nat 194) (String (ascii_of_nat 160) ""))
  = "1.0.0"
  /\ TrimSpace (String (ascii_of_nat 194) (String (ascii_of_nat 160) "pkg"))
     = "pkg"
  /\ TrimSpace
       (String (ascii_of_nat 226) (String (ascii_of_nat 128)
          (String (ascii_of_nat 168)
             ("x " +:+ String (ascii_of_nat 227) (String (ascii_of_nat 128)
                         (String (ascii_of_nat 128) " "))))))
     = "x"
  /\ TrimSpace ("a" +:+ String (ascii_of_nat 160) "")
     = "a" +:+ String (ascii_of_nat 160) "".
Proof. repeat split; vm_compute; reflexivity. Qed.

Lemma plain_byte (c : ascii) :
  isSpaceOrHighByte c = false ->
  Str.isSpaceGo c = false /\ (Str.code c < 128)%N.
Proof.
  unfold isSpaceOrHighByte. rewrite orb_false_iff, N.leb_gt. tauto.
Qed.

Ltac low_byte H :=
  repeat match goal with
  | |- context [(Str.code ?c =? ?k)%N] =>
      lazymatch type of H with
      | (Str.code c < 128)%N =>
          replace (Str.code c =? k)%N with false
            by (symmetry; apply N.eqb_neq; lia)
      end
  | |- context [(128 <=? Str.code ?c)%N] =>
      lazymatch type of H with
      | (Str.code c < 128)%N =>
          replace (128 <=? Str.code c)%N with false
            by (symmetry; apply N.leb_gt; exact H)
      end
  end.

Lemma noLeadingSpace_first (c : ascii) (l : list ascii) :
  isSpaceOrHighByte c = false ->
  noLeadingSpace isSpaceRune2 isSpaceRune3 (c :: l) = true.
Proof.
  intros H. destruct (plain_byte _ H) as [Hs Hc].
  cbn [noLeadingSpace]. rewrite Hs. cbn [negb andb].
  destruct l as [|b2 [|b3 l3]]; [reflexivity | |];
    unfold isSpaceRune2, isSpaceRune3; low_byte Hc; reflexivity.
Qed.

Lemma noLeadingSpace_last (c : ascii) (l : list ascii) :
  isSpaceOrHighByte c = false ->
  noLeadingSpace (fun b2 b1 => isSpaceRune2 b1 b2)
    (fun b3 b2 b1 => isSpaceRune3 b1 b2 b3) (c :: l) = true.
Proof.
  intros H. destruct (plain_byte _ H) as [Hs Hc].
  cbn [noLeadingSpace]. rewrite Hs. cbn [negb andb].
  destruct l as [|b2 [|b3 l3]]; [reflexivity | |];
    unfold isSpaceRune2, isSpaceRune3; low_byte Hc;
    cbn [orb andb]; rewrite ?andb_false_r; reflexivity.
Qed.

Lemma existsb_Forall (p : ascii -> bool) (s : string) :
  Str.existsb p s = false ->
  Forall (fun c => p c = false) (list_ascii_of_string s).
Proof.
  induction s as [|c s IH]; [constructor |].
  cbn [Str.existsb list_ascii_of_string]. rewrite orb_false_iff.
  intros [Hc Hs]. constructor; [exact Hc | exact (IH Hs)].
Qed.

(** [strings.TrimSpace] leaves a text of ASCII characters without white
    space as it is. *)
Lemma TrimSpace_plain (s : string) :
  asciiWithoutSpace s -> TrimSpace s = s.
Proof.
  intros H. apply existsb_Forall in H. unfold TrimSpace.
  assert (Hleft : TrimLeftSpace (list_ascii_of_string s)
                  = list_ascii_of_string s).
  { apply trimLeftBytes_fixed.
    destruct H as [|c l Hc _]; [reflexivity | apply noLeadingSpace_first, Hc]. }
  rewrite Hleft. unfold TrimRightSpace.
  rewrite trimLeftBytes_fixed.
  - rewrite rev_involutive. apply string_of_list_ascii_of_string.
  - apply Forall_rev in H.
    destruct H as [|c l Hc _]; [reflexivity | apply noLeadingSpace_last, Hc].
Qed.

Lemma asciiWithoutSpace_append (a b : string) :
  asciiWithoutSpace a -> asciiWithoutSpace b -> asciiWithoutSpace (a +:+ b).
Proof.
  unfold asciiWithoutSpace. intros Ha Hb.
  rewrite IocFacts.existsb_append, Ha, Hb. reflexivity.
Qed.

End GoTrimFacts.


(** ** More on the matcher of the Go implementation *)

Module GoMatcherMore.

Import GoMatcher DedupeSpec Shape.

Section DedupeBy.

Context {K : Type} `{EqDecision K} (key : Match -> K).

Lemma dedupeBy_NoDup (seen : list K) (ms : list Match) :
  NoDup (map key (dedupeBy key seen ms)).
Proof.
  revert seen. induction ms as [|m rest IH]; intros seen; cbn [dedupeBy].
  - constructor.
  - destruct (decide (key m ∈ seen)) as [Hin | Hout]; [apply IH |].
    cbn [map]. constructor; [| apply IH].
    rewrite list_elem_of_fmap. intros (m' & Heq & Hm').
    apply (MatcherFacts.dedupeBy_fresh key) in Hm'. apply Hm'.
    rewrite Heq. apply elem_of_cons. auto.
Qed.

Lemma dedupeBy_covers (seen : list K) (ms : list Match) (m : Match) :
  m ∈ ms ->
  key m ∈ seen \/ exists m', m' ∈ dedupeBy key seen ms /\ key m' = key m.
Proof.
  revert seen. induction ms as [|m0 rest IH]; intros seen Hm;
    [inversion Hm |].
  cbn [dedupeBy]. apply elem_of_cons in Hm.
  destruct (decide (key m0 ∈ seen)) as [Hin | Hout].
  - destruct Hm as [-> | Hm]; [left; exact Hin | apply IH, Hm].
  - destruct Hm as [-> | Hm].
    + right. exists m0. split; [apply elem_of_cons; auto | reflexivity].
    + destruct (IH (key m0 :: seen) Hm) as [Hseen | (m' & Hm' & Heq)].
      * apply elem_of_cons in Hseen. destruct Hseen as [Heq | Hseen];
          [| left; exact Hseen].
        right. exists m0. split; [apply elem_of_cons; auto | auto].
      * right. exists m'. split; [apply elem_of_cons; auto | exact Heq].
Qed.

End DedupeBy.

(** X18. After [DeduplicateMatches] no two findings have the same key
    [name@version:severity], and every finding of the input is represented
    by a finding with its key. *)
Theorem DeduplicateMatches_keys_unique_and_covered (matches : list Match) :
  NoDup (map matchKey (DeduplicateMatches matches))
  /\ forall m, m ∈ matches ->
       exists m', m' ∈ DeduplicateMatches matches /\ matchKey m' = matchKey m.
Proof.
  rewrite MatcherFacts.DeduplicateMatches_dedupeBy. split.
  - apply dedupeBy_NoDup.
  - intros m Hm. destruct (dedupeBy_covers matchKey [] _ _ Hm) as [H | H];
      [inversion H | exact H].
Qed.

Lemma DeduplicateMatches_keys_unique_and_covered_witness :
  exists m',
    m' ∈ DeduplicateMatches
           [mkMatch "lodash" "4.17.19" SeverityTransitive "a/package-lock.json"
              EmptyString;
            mkMatch "lodash" "4.17.19" SeverityTransitive "b/package-lock.json"
              EmptyString]
    /\ matchKey m'
       = matchKey (mkMatch "lodash" "4.17.19" SeverityTransitive
                     "b/package-lock.json" EmptyString).
Proof.
  apply (proj2 (DeduplicateMatches_keys_unique_and_covered
                  [mkMatch "lodash" "4.17.19" SeverityTransitive
                     "a/package-lock.json" EmptyString;
                   mkMatch "lodash" "4.17.19" SeverityTransitive
                     "b/package-lock.json" EmptyString])).
  apply list_elem_of_In. right. left. reflexivity.
Defined.

Lemma In_map_to_list {A : Type} (m : gmap string A) (k : string) (x : A) :
  In (k, x) (map_to_list m) <-> m !! k = Some x.
Proof. rewrite <- list_elem_of_In. apply elem_of_map_to_list. Qed.

(** The resolved packages of a lockfile in the format of npm 7 and later. *)
Lemma ExtractResolvedPackages_packages (lockfile : GoLockfile.Lockfile)
  (filePath : string) (pkg : GoLockfile.ResolvedPackage) :
  size (GoLockfile.Packages lockfile) <> 0%nat ->
  In pkg (GoLockfile.ExtractResolvedPackages lockfile filePath) <->
  exists pkgPath info,
    GoLockfile.Packages lockfile !! pkgPath = Some info
    /\ pkgPath <> EmptyString /\ pkgPath <> "."
    /\ GoLockfile.InfoVersion info <> EmptyString
    /\ pkg = GoLockfile.mkResolvedPackage
               (Str.trimPrefix pkgPath "node_modules/")
               (GoLockfile.InfoVersion info) filePath.
Proof.
  intros Hsize. unfold GoLockfile.ExtractResolvedPackages.
  apply Nat.eqb_neq in Hsize. rewrite Hsize. cbn [negb].
  rewrite in_flat_map. split.
  - intros ([pkgPath info] & Hin & Hpkg). apply In_map_to_list in Hin.
    exists pkgPath, info. split; [exact Hin |].
    destruct pkgPath as [|c rest]; [contradiction |]. cbn [Str.isEmpty orb] in Hpkg.
    destruct (String.eqb_spec (String c rest) ".") as [E | E];
      [contradiction |].
    destruct (GoLockfile.InfoVersion info) as [|a v] eqn:Hv; [contradiction |].
    destruct Hpkg as [<- | []].
    repeat split; try discriminate; assumption.
  - intros (pkgPath & info & Hin & Hne & Hdot & Hv & ->).
    exists (pkgPath, info). split; [apply In_map_to_list, Hin |].
    destruct pkgPath as [|c rest]; [contradiction |]. cbn [Str.isEmpty orb].
    destruct (String.eqb_spec (String c rest) ".") as [E | E];
      [contradiction |].
    destruct (GoLockfile.InfoVersion info) as [|a v]; [contradiction |].
    left. reflexivity.
Qed.

(** X19. The TRANSITIVE findings of a lockfile in the format of npm 7 and
    later, in full: one for each entry of [packages] other than the root
    whose version is not empty and whose name, the path without one leading
    [node_modules/], is listed in the database with the cleaned version.
    The finding carries the cleaned version and the path of the lockfile. *)
Theorem MatchTransitive_packages_iff (lockfile : GoLockfile.Lockfile)
  (iocDB : GoIoc.Database) (filePath : string) (m : Match) :
  size (GoLockfile.Packages lockfile) <> 0%nat ->
  In m (MatchTransitive lockfile iocDB filePath) <->
  exists pkgPath info,
    GoLockfile.Packages lockfile !! pkgPath = Some info
    /\ pkgPath <> EmptyString /\ pkgPath <> "."
    /\ GoLockfile.InfoVersion info <> EmptyString
    /\ GoIoc.Lookup iocDB (Str.trimPrefix pkgPath "node_modules/")
         (cleanVersionSpec (GoLockfile.InfoVersion info)) = true
    /\ m = mkMatch (Str.trimPrefix pkgPath "node_modules/")
             (cleanVersionSpec (GoLockfile.InfoVersion info))
             SeverityTransitive filePath EmptyString.
Proof.
  intros Hsize. unfold MatchTransitive. rewrite in_flat_map. split.
  - intros (pkg & Hpkg & Hm).
    apply (ExtractResolvedPackages_packages _ _ _ Hsize) in Hpkg.
    destruct Hpkg as (pkgPath & info & Hin & Hne & Hdot & Hv & ->).
    cbn [GoLockfile.Name GoLockfile.Version GoLockfile.LockfilePath] in Hm.
    destruct (GoIoc.Lookup _ _ _) eqn:Hlook; [| contradiction].
    destruct Hm as [<- | []]. exists pkgPath, info. auto 10.
  - intros (pkgPath & info & Hin & Hne & Hdot & Hv & Hlook & ->).
    exists (GoLockfile.mkResolvedPackage (Str.trimPrefix pkgPath "node_modules/")
              (GoLockfile.InfoVersion info) filePath).
    split.
    + apply (ExtractResolvedPackages_packages _ _ _ Hsize).
      exists pkgPath, info. auto 10.
    + cbn [GoLockfile.Name GoLockfile.Version GoLockfile.LockfilePath].
      rewrite Hlook. left. reflexivity.
Qed.

Lemma MatchTransitive_packages_iff_witness :
  In (mkMatch "02-echo" "0.0.7" SeverityTransitive "package-lock.json" EmptyString)
     (MatchTransitive
        (GoLockfile.mkLockfile 3
           {[ "node_modules/02-echo" := GoLockfile.mkPackageInfo "0.0.7" [] ]} ∅)
        (GoIoc.mkDatabase {[ "02-echo" := ["0.0.7"] ]}) "package-lock.json")
  <-> exists pkgPath info,
        ({[ "node_modules/02-echo" := GoLockfile.mkPackageInfo "0.0.7" [] ]}
           : gmap string GoLockfile.PackageInfo) !! pkgPath = Some info
        /\ pkgPath <> EmptyString /\ pkgPath <> "."
        /\ GoLockfile.InfoVersion info <> EmptyString
        /\ GoIoc.Lookup (GoIoc.mkDatabase {[ "02-echo" := ["0.0.7"] ]})
             (Str.trimPrefix pkgPath "node_modules/")
             (cleanVersionSpec (GoLockfile.InfoVersion info)) = true
        /\ mkMatch "02-echo" "0.0.7" SeverityTransitive "package-lock.json"
             EmptyString
           = mkMatch (Str.trimPrefix pkgPath "node_modules/")
               (cleanVersionSpec (GoLockfile.InfoVersion info))
               SeverityTransitive "package-lock.json" EmptyString.
Proof.
  refine (MatchTransitive_packages_iff
            (GoLockfile.mkLockfile 3
               {[ "node_modules/02-echo" := GoLockfile.mkPackageInfo "0.0.7" [] ]} ∅)
            (GoIoc.mkDatabase {[ "02-echo" := ["0.0.7"] ]}) "package-lock.json"
            (mkMatch "02-echo" "0.0.7" SeverityTransitive "package-lock.json"
               EmptyString) _).
  vm_compute. discriminate.
Defined.

Lemma startsWith_append (pre s : string) :
  Str.startsWith pre (pre +:+ s) = true.
Proof.
  induction pre as [|c pre IH]; [reflexivity |].
  rewrite StrFacts.append_cons. cbn [Str.startsWith].
  rewrite Ascii.eqb_refl. exact IH.
Qed.

Lemma slice_append (pre s : string) :
  Str.slice (String.length pre) (pre +:+ s) = s.
Proof.
  induction pre as [|c pre IH]; [reflexivity |].
  rewrite StrFacts.append_cons. exact IH.
Qed.

Lemma trimPrefix_append (pre s : string) :
  Str.trimPrefix (pre +:+ s) pre = s.
Proof.
  unfold Str.trimPrefix. rewrite startsWith_append. apply slice_append.
Qed.

(** X20. A package installed below another one is extracted under the
    path of its parent: only one leading [node_modules/] is taken off the
    path, so the entry [node_modules/parent/node_modules/name] is the
    resolved package of name [parent/node_modules/name], and it is by this
    name that the database is asked. *)
Theorem nested_install_keeps_parent_path (lockfile : GoLockfile.Lockfile)
  (filePath parent name : string) (info : GoLockfile.PackageInfo) :
  GoLockfile.Packages lockfile
    !! ("node_modules/" +:+ parent +:+ "/node_modules/" +:+ name) = Some info ->
  GoLockfile.InfoVersion info <> EmptyString ->
  In (GoLockfile.mkResolvedPackage (parent +:+ "/node_modules/" +:+ name)
        (GoLockfile.InfoVersion info) filePath)
     (GoLockfile.ExtractResolvedPackages lockfile filePath).
Proof.
  intros Hin Hv.
  assert (Hsize : size (GoLockfile.Packages lockfile) <> 0%nat).
  { intros E. apply map_size_empty_iff in E. rewrite E, lookup_empty in Hin.
    discriminate. }
  apply (ExtractResolvedPackages_packages _ _ _ Hsize).
  exists ("node_modules/" +:+ parent +:+ "/node_modules/" +:+ name), info.
  split; [exact Hin |]. split; [discriminate |]. split; [discriminate |].
  split; [exact Hv |]. rewrite trimPrefix_append. reflexivity.
Qed.

Lemma nested_install_keeps_parent_path_witness :
  In (GoLockfile.mkResolvedPackage ("parent" +:+ "/node_modules/" +:+ "02-echo")
        "0.0.7" "package-lock.json")
     (GoLockfile.ExtractResolvedPackages
        (GoLockfile.mkLockfile 3
           {[ "node_modules/parent/node_modules/02-echo"
                := GoLockfile.mkPackageInfo "0.0.7" [] ]} ∅)
        "package-lock.json").
Proof.
  apply (nested_install_keeps_parent_path
           (GoLockfile.mkLockfile 3
              {[ "node_modules/parent/node_modules/02-echo"
                   := GoLockfile.mkPackageInfo "0.0.7" [] ]} ∅)
           "package-lock.json" "parent" "02-echo"
           (GoLockfile.mkPackageInfo "0.0.7" [])).
  - vm_compute. reflexivity.
  - discriminate.
Defined.

Lemma trimPrefix_miss (a c : ascii) (pre r : string) :
  Ascii.eqb a c = false ->
  Str.trimPrefix (String c r) (String a pre) = String c r.
Proof.
  intros H. unfold Str.trimPrefix. cbn [Str.startsWith]. rewrite H. reflexivity.
Qed.

Lemma trimPrefix_miss_second (a b c : ascii) (r : string) :
  Ascii.eqb b c = false ->
  Str.trimPrefix (String a (String c r)) (String a (String b EmptyString))
  = String a (String c r).
Proof.
  intros H. unfold Str.trimPrefix. cbn [Str.startsWith].
  rewrite Ascii.eqb_refl, H. reflexivity.
Qed.

Lemma trimPrefix_empty (pre : string) :
  Str.trimPrefix EmptyString pre = EmptyString.
Proof.
  unfold Str.trimPrefix. destruct pre; [reflexivity |]. reflexivity.
Qed.

Lemma trimPrefix_hit (a : ascii) (s : string) :
  Str.trimPrefix (String a s) (String a EmptyString) = s.
Proof. exact (trimPrefix_append (String a EmptyString) s). Qed.

Lemma trimPrefix_hit_second (a b : ascii) (s : string) :
  Str.trimPrefix (String a (String b s)) (String a (String b EmptyString)) = s.
Proof. exact (trimPrefix_append (String a (String b EmptyString)) s). Qed.

Ltac strip_prefixes :=
  repeat first
    [ rewrite trimPrefix_empty
    | rewrite trimPrefix_miss by (assumption || reflexivity)
    | rewrite trimPrefix_miss_second by (assumption || reflexivity)
    | rewrite trimPrefix_hit_second
    | rewrite trimPrefix_hit ].

(** X21. [cleanVersionSpec] takes one operator off a pinned version: for a
    version text of ASCII characters without white space that does not begin
    with one of [^ ~ > < =], it returns the version from the version itself
    and from the version after [^], [~], [>=], [<=], [>], [<] or [=]. *)
Theorem cleanVersionSpec_strips_operator (op v : string) :
  bareVersion v ->
  In op [EmptyString; "^"; "~"; ">="; "<="; ">"; "<"; "="] ->
  cleanVersionSpec (op +:+ v) = v.
Proof.
  intros [Hspace Hhead] Hop.
  assert (Htrim : GoIoc.TrimSpace v = v) by apply GoTrimFacts.TrimSpace_plain, Hspace.
  assert (Hall : GoIoc.TrimSpace (op +:+ v) = op +:+ v).
  { apply GoTrimFacts.TrimSpace_plain.
    apply GoTrimFacts.asciiWithoutSpace_append; [| exact Hspace].
    cbn [In] in Hop.
    repeat (destruct Hop as [<- | Hop]; [reflexivity |]). destruct Hop. }
  unfold cleanVersionSpec. rewrite Hall. clear Hall.
  destruct v as [|c r].
  - cbn [In] in Hop.
    repeat (destruct Hop as [<- | Hop]; [reflexivity |]). destruct Hop.
  - cbn [Str.existsb] in Hhead. rewrite !orb_false_iff in Hhead.
    destruct Hhead as (H1 & H2 & H3 & H4 & H5 & _).
    rewrite Ascii.eqb_sym in H1, H2, H3, H4, H5.
    cbn [In] in Hop.
    repeat (destruct Hop as [<- | Hop];
            [rewrite ?StrFacts.append_cons;
             change (EmptyString +:+ String c r) with (String c r);
             strip_prefixes; exact Htrim |]).
    destruct Hop.
Qed.

Lemma cleanVersionSpec_strips_operator_witness :
  cleanVersionSpec (">=" +:+ "1.2.3") = "1.2.3".
Proof.
  apply (cleanVersionSpec_strips_operator ">=" "1.2.3").
  - split; reflexivity.
  - cbn [In]. auto.
Defined.

End GoMatcherMore.


(** ** The lockfile parsers and the scanner of the Go implementation *)

Module GoLockfileFacts.

Import GoLockfile Shape.

Lemma nestedPackages_object (filePath k : string) (nested : list (string * JSON)) :
  nestedPackages filePath k (JObject nested) =
  if Str.isEmpty (versionMember nested) then []
  else mkResolvedPackage k (versionMember nested) filePath
       :: flat_map (fun '(k', v') => nestedPackages filePath k' v') nested.
Proof.
  cbn [nestedPackages]. destruct (Str.isEmpty (versionMember nested));
    [reflexivity |].
  f_equal. induction nested as [|[k' v'] l IH]; [reflexivity |].
  cbn [flat_map]. rewrite <- IH. reflexivity.
Qed.

(** X22. The lockfile format of npm 5 and 6 is read one level deep only.
    A package nested in the [dependencies] of another is extracted, but what
    is nested in that package is not: its members that are objects, as
    [dependencies] and [requires] are, are taken for packages, and an object
    without a string member [version] is passed over with all it holds. *)
Theorem nested_dependencies_are_read_one_level_deep
  (filePath k version : string) (nested : list (string * JSON)) :
  versionMember nested = version ->
  Str.isEmpty version = false ->
  (forall k' members', In (k', JObject members') nested ->
     versionMember members' = EmptyString) ->
  nestedPackages filePath k (JObject nested)
  = [mkResolvedPackage k version filePath].
Proof.
  intros Hv Hne Hobj. rewrite nestedPackages_object, Hv, Hne. f_equal.
  clear Hv. induction nested as [|[k' v'] l IH]; [reflexivity |].
  cbn [flat_map]. rewrite IH by (intros; eapply Hobj; right; eassumption).
  rewrite app_nil_r. destruct v' as [| | | | |members']; try reflexivity.
  rewrite nestedPackages_object, (Hobj k' members') by (left; reflexivity).
  reflexivity.
Qed.

Lemma nested_dependencies_are_read_one_level_deep_witness :
  nestedPackages "package-lock.json" "b"
    (JObject [("version", JString "1.0.0");
              ("dependencies",
               JObject [("c", JObject [("version", JString "2.0.0")])])])
  = [mkResolvedPackage "b" "1.0.0" "package-lock.json"].
Proof.
  apply (nested_dependencies_are_read_one_level_deep "package-lock.json" "b"
           "1.0.0").
  - reflexivity.
  - reflexivity.
  - intros k' members' [H | [H | []]]; [discriminate |].
    injection H as _ <-. reflexivity.
Defined.

Lemma nestedPackages_versions (v : JSON) :
  forall filePath k pkg,
    In pkg (nestedPackages filePath k v) ->
    Version pkg <> EmptyString /\ LockfilePath pkg = filePath.
Proof.
  revert v. fix IH 1. intros [| | | | |nested] filePath k pkg;
    try (intros H; destruct H).
  rewrite nestedPackages_object.
  destruct (Str.isEmpty (versionMember nested)) eqn:E; [intros H; destruct H |].
  intros [<- | Hin].
  - cbn. split; [| reflexivity]. intros E'. rewrite E' in E. discriminate.
  - clear E. revert Hin. induction nested as [|[k' v'] l IHl];
      [intros H; destruct H |].
    cbn [flat_map]. rewrite in_app_iff. intros [H | H].
    + exact (IH v' _ _ _ H).
    + exact (IHl H).
Qed.

(** X23. Every package extracted from a lockfile of npm, in either format,
    has a version that is not empty and carries the path of the lockfile. *)
Theorem ExtractResolvedPackages_versions (lockfile : Lockfile)
  (filePath : string) (pkg : ResolvedPackage) :
  In pkg (ExtractResolvedPackages lockfile filePath) ->
  Version pkg <> EmptyString /\ LockfilePath pkg = filePath.
Proof.
  unfold ExtractResolvedPackages.
  destruct (negb (size (Packages lockfile) =? 0)%nat).
  - rewrite in_flat_map. intros ([pkgPath info] & _ & H).
    destruct (Str.isEmpty pkgPath || String.eqb pkgPath "."); [destruct H |].
    destruct (InfoVersion info) as [|a v] eqn:Hv; [destruct H |].
    destruct H as [<- | []]. cbn. split; [discriminate | reflexivity].
  - destruct (negb (size (Dependencies lockfile) =? 0)%nat);
      [| intros H; destruct H].
    unfold extractDepsRecursive. rewrite in_flat_map.
    intros ([name info] & _ & H).
    destruct (InfoVersion info) as [|a v] eqn:Hv; [destruct H |].
    cbn [Str.isEmpty] in H. destruct H as [<- | H].
    + cbn. split; [discriminate | reflexivity].
    + apply in_flat_map in H. destruct H as ([k v'] & _ & H).
      exact (nestedPackages_versions _ _ _ _ H).
Qed.

Lemma ExtractResolvedPackages_versions_witness :
  Version (mkResolvedPackage "b" "1.0.0" "package-lock.json") <> EmptyString
  /\ LockfilePath (mkResolvedPackage "b" "1.0.0" "package-lock.json")
     = "package-lock.json".
Proof.
  apply (ExtractResolvedPackages_versions
           (mkLockfile 1 ∅
              {[ "a" := mkPackageInfo "0.1.0"
                          [("b", JObject [("version", JString "1.0.0")])] ]})
           "package-lock.json").
  vm_compute. right. left. reflexivity.
Defined.

End GoLockfileFacts.


(** ** The yarn.lock parser and the scanner of the Go implementation *)

Module GoYarnFacts.

Import GoStrings GoLockfile GoScanner Shape.

Lemma length_append (a b : string) :
  String.length (a +:+ b) = (String.length a + String.length b)%nat.
Proof.
  induction a as [|c a IH]; [reflexivity |].
  rewrite StrFacts.append_cons. cbn [String.length]. rewrite IH. reflexivity.
Qed.

Lemma take_append (a b : string) : take (String.length a) (a +:+ b) = a.
Proof.
  induction a as [|c a IH]; [destruct b; reflexivity |].
  rewrite StrFacts.append_cons. cbn [String.length take]. rewrite IH.
  reflexivity.
Qed.

Lemma take_slice (n : nat) (s : string) : take n s +:+ Str.slice n s = s.
Proof.
  revert s. induction n as [|n IH]; intros s; [destruct s; reflexivity |].
  destruct s as [|c s]; [reflexivity |].
  cbn [take Str.slice]. rewrite StrFacts.append_cons, IH. reflexivity.
Qed.

(** [strings.HasSuffix] as the code computes it, by lengths and a slice. *)
Lemma HasSuffix_iff (s suffix : string) :
  HasSuffix s suffix = true <-> exists pre, s = pre +:+ suffix.
Proof.
  unfold HasSuffix. rewrite andb_true_iff, Nat.leb_le, String.eqb_eq. split.
  - intros [_ H]. exists (take (String.length s - String.length suffix) s).
    pose proof (take_slice (String.length s - String.length suffix) s) as E.
    rewrite H in E. symmetry. exact E.
  - intros [pre ->]. rewrite length_append. split; [lia |].
    replace (String.length pre + String.length suffix - String.length suffix)%nat
      with (String.length pre) by lia.
    apply GoMatcherMore.slice_append.
Qed.

Lemma TrimSuffix_append (pre suffix : string) :
  TrimSuffix (pre +:+ suffix) suffix = pre.
Proof.
  unfold TrimSuffix.
  replace (HasSuffix (pre +:+ suffix) suffix) with true
    by (symmetry; apply HasSuffix_iff; eauto).
  rewrite length_append.
  replace (String.length pre + String.length suffix - String.length suffix)%nat
    with (String.length pre) by lia.
  apply take_append.
Qed.

(** X24. [isYarnLockfile] holds of the paths that end in [yarn.lock], and
    of no other: the test is on the last nine bytes of the path, so
    [package-lock.json] is never taken for a yarn.lock file, and a file
    called [my-yarn.lock] is. *)
Theorem isYarnLockfile_iff_suffix (path : string) :
  isYarnLockfile path = true <-> exists dir, path = dir +:+ "yarn.lock".
Proof. exact (HasSuffix_iff path "yarn.lock"). Qed.

Lemma existsb_weaken (p q : ascii -> bool) (s : string) :
  (forall c, q c = true -> p c = true) ->
  Str.existsb p s = false -> Str.existsb q s = false.
Proof.
  intros Hpq. induction s as [|c s IH]; [reflexivity |].
  cbn [Str.existsb]. rewrite !orb_false_iff. intros [Hc Hs].
  split; [| exact (IH Hs)].
  destruct (q c) eqn:E; [| reflexivity]. rewrite (Hpq c E) in Hc. discriminate.
Qed.

Lemma LastIndexByte_none (s : string) (b : ascii) :
  Str.existsb (Ascii.eqb b) s = false -> LastIndexByte s b = None.
Proof.
  induction s as [|c s IH]; [reflexivity |].
  cbn [Str.existsb LastIndexByte]. rewrite orb_false_iff. intros [Hc Hs].
  rewrite (IH Hs), Ascii.eqb_sym, Hc. reflexivity.
Qed.

Lemma LastIndexByte_append (a s : string) (b : ascii) :
  LastIndexByte s b = None ->
  LastIndexByte (a +:+ String b s) b = Some (String.length a).
Proof.
  intros Hs. induction a as [|c a IH].
  - change (EmptyString +:+ String b s) with (String b s).
    cbn [LastIndexByte]. rewrite Hs, Ascii.eqb_refl. reflexivity.
  - rewrite StrFacts.append_cons. cbn [LastIndexByte]. rewrite IH. reflexivity.
Qed.

Lemma plainHeaderText_append (a b : string) :
  plainHeaderText a -> plainHeaderText b -> plainHeaderText (a +:+ b).
Proof.
  unfold plainHeaderText. intros Ha Hb.
  rewrite IocFacts.existsb_append, Ha, Hb. reflexivity.
Qed.

(** The name taken from a header of ASCII characters without white space,
    double quote and comma is what is before its last [@]. *)
Lemma extractPackageName_before_last_at (header : string) :
  plainHeaderText header ->
  extractPackageName (header +:+ ":") =
  match LastIndexByte header "@" with
  | None => EmptyString
  | Some O => EmptyString
  | Some lastAtIndex => take lastAtIndex header
  end.
Proof.
  intros Hplain. unfold extractPackageName. rewrite TrimSuffix_append.
  replace (GoIoc.TrimSpace header) with header.
  2: { symmetry. apply GoTrimFacts.TrimSpace_plain.
       refine (existsb_weaken _ _ _ _ Hplain). intros c ->. reflexivity. }
  replace (Trim header (String quote EmptyString)) with header.
  2: { symmetry. apply StrMore.trimWith_none.
       refine (existsb_weaken _ _ _ _ Hplain). intros c.
       cbn [Str.existsb]. unfold isQuote. rewrite orb_false_r.
       intros ->. rewrite orb_true_r. reflexivity. }
  replace (ContainsByte header ",") with false; [reflexivity |].
  symmetry. unfold ContainsByte.
  refine (existsb_weaken _ _ _ _ Hplain). intros c.
  rewrite Ascii.eqb_sym. intros ->. apply orb_true_r.
Qed.

Lemma plain_header (name spec : string) :
  plainHeaderText name -> plainHeaderText spec ->
  plainHeaderText (name +:+ String "@" spec).
Proof.
  intros Hname Hspec. apply plainHeaderText_append; [exact Hname |].
  apply (plainHeaderText_append "@"); [reflexivity | exact Hspec].
Qed.

Lemma take_last_at (name spec : string) :
  name <> EmptyString ->
  without "@" spec ->
  match LastIndexByte (name +:+ String "@" spec) "@" with
  | None => EmptyString
  | Some O => EmptyString
  | Some lastAtIndex => take lastAtIndex (name +:+ String "@" spec)
  end = name.
Proof.
  intros Hne Hat.
  rewrite (LastIndexByte_append _ _ _ (LastIndexByte_none _ _ Hat)).
  destruct name as [|c name]; [contradiction |].
  cbn [String.length]. change (S (String.length name))
    with (String.length (String c name)).
  apply take_append.
Qed.

(** X25. The package name of a yarn.lock header.  From the header
    [name@spec:] the name is returned, also when it is scoped and begins
    with [@] itself: for every name that is not empty and every specifier
    without [@], both of ASCII characters and without white space, double
    quote and comma. *)
Theorem extractPackageName_of_header (name spec : string) :
  name <> EmptyString ->
  plainHeaderText name ->
  plainHeaderText spec ->
  without "@" spec ->
  extractPackageName (name +:+ "@" +:+ spec +:+ ":") = name.
Proof.
  intros Hne Hname Hspec Hat.
  replace (name +:+ "@" +:+ spec +:+ ":") with ((name +:+ String "@" spec) +:+ ":")
    by (rewrite (StrFacts.append_assoc name (String "@" spec) ":");
        reflexivity).
  rewrite (extractPackageName_before_last_at _ (plain_header _ _ Hname Hspec)).
  exact (take_last_at _ _ Hne Hat).
Qed.

Lemma extractPackageName_of_header_witness :
  extractPackageName ("@scope/package" +:+ "@" +:+ "^1.0.0" +:+ ":")
  = "@scope/package".
Proof.
  apply (extractPackageName_of_header "@scope/package" "^1.0.0");
    [discriminate | reflexivity | reflexivity | reflexivity].
Defined.

Lemma append_inj (pre a b : string) : pre +:+ a = pre +:+ b -> a = b.
Proof.
  induction pre as [|c pre IH]; [exact (fun H => H) |].
  rewrite !StrFacts.append_cons. intros [= H]. exact (IH H).
Qed.

Lemma convertYarnToLockfile_lookup (resolvedPackages : list ResolvedPackage)
  (packages : gmap string PackageInfo) (found : option string) (name : string) :
  packages !! ("node_modules/" +:+ name)
  = (fun v => mkPackageInfo v []) <$> found ->
  fold_left (fun packages pkg =>
     <["node_modules/" +:+ Name pkg := mkPackageInfo (Version pkg) []]> packages)
    resolvedPackages packages !! ("node_modules/" +:+ name)
  = (fun v => mkPackageInfo v [])
    <$> fold_left (fun found pkg =>
          if String.eqb (Name pkg) name then Some (Version pkg) else found)
          resolvedPackages found.
Proof.
  revert packages found.
  induction resolvedPackages as [|pkg rest IH]; intros packages found H;
    [exact H |].
  cbn [fold_left]. apply IH.
  destruct (String.eqb_spec (Name pkg) name) as [-> | Hne].
  - rewrite lookup_insert_eq. reflexivity.
  - rewrite lookup_insert_ne; [exact H |].
    intros E. apply Hne. exact (append_inj _ _ _ E).
Qed.

Lemma convertYarnToLockfile_keys (resolvedPackages : list ResolvedPackage)
  (packages : gmap string PackageInfo) :
  (forall k info, packages !! k = Some info ->
     exists name, k = "node_modules/" +:+ name) ->
  forall k info,
    fold_left (fun packages pkg =>
       <["node_modules/" +:+ Name pkg := mkPackageInfo (Version pkg) []]> packages)
      resolvedPackages packages !! k = Some info ->
    exists name, k = "node_modules/" +:+ name.
Proof.
  revert packages.
  induction resolvedPackages as [|pkg rest IH]; intros packages H; [exact H |].
  cbn [fold_left]. apply IH. intros k info.
  rewrite lookup_insert. case_decide as E; [| apply H].
  intros _. exists (Name pkg). symmetry. exact E.
Qed.

Lemma convertYarnToLockfile_packages (resolvedPackages : list ResolvedPackage)
  (pkgPath : string) (info : PackageInfo) :
  Packages (convertYarnToLockfile resolvedPackages) !! pkgPath = Some info <->
  exists name v,
    pkgPath = "node_modules/" +:+ name
    /\ lastVersion name resolvedPackages = Some v
    /\ info = mkPackageInfo v [].
Proof.
  unfold convertYarnToLockfile. cbn [Packages]. split.
  - intros H.
    destruct (convertYarnToLockfile_keys resolvedPackages ∅) with (2 := H)
      as [name ->].
    { intros k i. rewrite lookup_empty. discriminate. }
    rewrite (convertYarnToLockfile_lookup _ ∅ None name) in H
      by apply lookup_empty.
    exists name. fold (lastVersion name resolvedPackages) in H.
    destruct (lastVersion name resolvedPackages) as [v|]; [| discriminate].
    exists v. injection H as <-. auto.
  - intros (name & v & -> & Hlast & ->).
    rewrite (convertYarnToLockfile_lookup _ ∅ None name) by apply lookup_empty.
    fold (lastVersion name resolvedPackages). rewrite Hlast. reflexivity.
Qed.

(** X26. What is checked of a yarn.lock file.  The packages read from the
    file are put in a table keyed by their name before they are matched, so
    of the entries of one name only the last one is checked: the TRANSITIVE
    findings are those of the names whose last version in the file, cleaned,
    is listed in the database.  An earlier entry of the same name with a
    listed version gives no finding. *)
Theorem yarnTransitiveMatches_iff (yarnPackages : list ResolvedPackage)
  (iocDB : GoIoc.Database) (lockfilePath : string) (m : GoMatcher.Match) :
  In m (yarnTransitiveMatches yarnPackages iocDB lockfilePath) <->
  exists name v,
    lastVersion name yarnPackages = Some v
    /\ v <> EmptyString
    /\ GoIoc.Lookup iocDB name (GoMatcher.cleanVersionSpec v) = true
    /\ m = GoMatcher.mkMatch name (GoMatcher.cleanVersionSpec v)
             GoMatcher.SeverityTransitive lockfilePath EmptyString.
Proof.
  unfold yarnTransitiveMatches, GoMatcher.MatchTransitive.
  rewrite in_flat_map. split.
  - intros (pkg & Hpkg & Hm).
    destruct (Nat.eq_dec (size (Packages (convertYarnToLockfile yarnPackages)))
                0%nat) as [Hzero | Hsize].
    { unfold ExtractResolvedPackages in Hpkg. rewrite Hzero in Hpkg.
      destruct Hpkg. }
    apply (GoMatcherMore.ExtractResolvedPackages_packages _ _ _ Hsize) in Hpkg.
    destruct Hpkg as (pkgPath & info & Hin & _ & _ & Hv & ->).
    apply convertYarnToLockfile_packages in Hin.
    destruct Hin as (name & v & -> & Hlast & ->).
    rewrite GoMatcherMore.trimPrefix_append in Hm.
    cbn [Name Version LockfilePath InfoVersion] in Hm, Hv.
    destruct (GoIoc.Lookup iocDB name (GoMatcher.cleanVersionSpec v)) eqn:Hlook;
      [| destruct Hm].
    destruct Hm as [<- | []]. exists name, v. auto.
  - intros (name & v & Hlast & Hv & Hlook & ->).
    assert (Hin : Packages (convertYarnToLockfile yarnPackages)
                    !! ("node_modules/" +:+ name) = Some (mkPackageInfo v [])).
    { apply convertYarnToLockfile_packages. eauto. }
    assert (Hsize : size (Packages (convertYarnToLockfile yarnPackages)) <> 0%nat).
    { intros E. apply map_size_empty_iff in E. rewrite E, lookup_empty in Hin.
      discriminate. }
    exists (mkResolvedPackage name v lockfilePath). split.
    + apply (GoMatcherMore.ExtractResolvedPackages_packages _ _ _ Hsize).
      exists ("node_modules/" +:+ name), (mkPackageInfo v []).
      split; [exact Hin |]. split; [discriminate |]. split; [discriminate |].
      split; [exact Hv |]. rewrite GoMatcherMore.trimPrefix_append. reflexivity.
    + cbn [Name Version LockfilePath]. rewrite Hlook. left. reflexivity.
Qed.

(** Two entries of one name, the first with a listed version: no finding. *)
Example yarn_earlier_version_is_not_checked :
  yarnTransitiveMatches
    [mkResolvedPackage "02-echo" "0.0.7" "yarn.lock";
     mkResolvedPackage "02-echo" "0.0.8" "yarn.lock"]
    (GoIoc.mkDatabase {[ "02-echo" := ["0.0.7"] ]}) "yarn.lock" = [].
Proof. vm_compute. reflexivity. Qed.

Lemma isSpaceRE_isSpaceGo (c : ascii) :
  isSpaceRE c = true -> Str.isSpaceGo c = true.
Proof.
  destruct c as [[] [] [] [] [] [] [] []]; try reflexivity; discriminate.
Qed.

Lemma existsb_slice (p : ascii -> bool) (n : nat) (s : string) :
  Str.existsb p s = false -> Str.existsb p (Str.slice n s) = false.
Proof.
  revert s. induction n as [|n IH]; intros s; [exact (fun H => H) |].
  destruct s as [|c s]; [reflexivity |].
  cbn [Str.existsb Str.slice]. rewrite orb_false_iff. intros [_ H].
  exact (IH _ H).
Qed.

Lemma span_none (p : ascii -> bool) (s : string) :
  Str.existsb p s = false -> Str.span p s = (EmptyString, s).
Proof.
  destruct s as [|c s]; [reflexivity |].
  cbn [Str.existsb Str.span]. rewrite orb_false_iff. intros [-> _].
  reflexivity.
Qed.

(** A line without white space has no version. *)
Lemma versionSubmatch_plain (line : string) :
  Str.existsb Str.isSpaceGo line = false -> versionSubmatch line = None.
Proof.
  intros Hgo.
  assert (Hre : Str.existsb isSpaceRE line = false)
    by exact (existsb_weaken _ _ _ isSpaceRE_isSpaceGo Hgo).
  unfold versionSubmatch. rewrite (StrMore.dropWhile_none _ _ Hre).
  destruct (Str.startsWith "version" line); [| reflexivity].
  rewrite (span_none _ _ (existsb_slice _ 7 _ Hre)). reflexivity.
Qed.

(** The line [  version "v"], whatever follows it, has the version [v]. *)
Lemma versionSubmatch_version (version rest : string) :
  version <> EmptyString ->
  without quote version ->
  versionSubmatch
    ("  version " +:+ String quote (version +:+ String quote rest))
  = Some version.
Proof.
  intros Hne Hq. unfold versionSubmatch.
  change (Str.dropWhile isSpaceRE
            ("  version " +:+ String quote (version +:+ String quote rest)))
    with ("version" +:+ String " " (String quote (version +:+ String quote rest))).
  rewrite GoMatcherMore.startsWith_append.
  change 7%nat with (String.length "version").
  rewrite GoMatcherMore.slice_append.
  change (Str.span isSpaceRE
            (String " " (String quote (version +:+ String quote rest))))
    with (" ", String quote (version +:+ String quote rest)).
  cbn [Str.isEmpty]. change (isQuote quote) with true. cbv iota.
  assert (Hspan : Str.span (fun x => negb (isQuote x)) version
                  = (version, EmptyString)).
  { apply SemverMore.span_all.
    refine (existsb_weaken _ _ _ _ Hq). intros c.
    rewrite negb_involutive. unfold isQuote. rewrite Ascii.eqb_sym.
    exact (fun H => H). }
  rewrite (SemverMore.span_append _ _ _ _ quote rest Hspan eq_refl).
  destruct version; [contradiction | reflexivity].
Qed.

Lemma splitChar_prefix (sep : ascii) (a b : string) :
  without sep a ->
  exists more lines, Str.splitChar sep (a +:+ b) = (a +:+ more) :: lines.
Proof.
  unfold without. induction a as [|c a IH]; intros Ha.
  - destruct (StrMore.splitChar_cons sep b) as (h & t & E).
    exists h, t. exact E.
  - cbn [Str.existsb] in Ha. rewrite orb_false_iff in Ha.
    destruct Ha as [Hc Ha]. destruct (IH Ha) as (more & lines & E).
    exists more, lines. rewrite !StrFacts.append_cons. cbn [Str.splitChar].
    rewrite Ascii.eqb_sym, Hc, E. reflexivity.
Qed.

Lemma startsWith_before_at (pre a b : string) :
  without "@" pre ->
  Str.startsWith pre a = false ->
  Str.startsWith pre (a +:+ String "@" b) = false.
Proof.
  unfold without. revert a.
  induction pre as [|p pre IH]; intros a Hpre; [discriminate |].
  cbn [Str.existsb] in Hpre. rewrite orb_false_iff in Hpre.
  destruct Hpre as [Hp Hpre]. destruct a as [|c a].
  - intros _. change (EmptyString +:+ String "@" b) with (String "@" b).
    cbn [Str.startsWith]. rewrite Ascii.eqb_sym, Hp. reflexivity.
  - rewrite StrFacts.append_cons. cbn [Str.startsWith].
    destruct (Ascii.eqb p c); [apply (IH a Hpre) | reflexivity].
Qed.

Lemma version_line_assoc (version rest : string) :
  ("  version " +:+ String quote (version +:+ String quote EmptyString)) +:+ rest
  = "  version " +:+ String quote (version +:+ String quote rest).
Proof.
  rewrite StrFacts.append_assoc. f_equal.
  rewrite StrFacts.append_cons, StrFacts.append_assoc. reflexivity.
Qed.

Lemma header_assoc (name spec : string) :
  name +:+ "@" +:+ spec +:+ ":" = (name +:+ String "@" spec) +:+ ":".
Proof.
  rewrite (StrFacts.append_assoc name (String "@" spec) ":"). reflexivity.
Qed.

(** X27. An entry of a yarn.lock file gives its package.  An entry that
    reads, white space around it apart, [name@spec:] on its first line and
    [  version "v"] at the beginning of its second gives the one resolved
    package of name [name] and version [v], with the path of the file; the
    name is not empty, does not begin as a comment or as [__metadata] does,
    and is with the specifier made of ASCII characters, without white space,
    double quote or comma; the specifier has no [@]; the version is not empty
    and has no double quote and no line break. *)
Theorem yarnEntry_of_entry (path rawEntry name spec version rest : string) :
  GoIoc.TrimSpace rawEntry
  = (name +:+ "@" +:+ spec +:+ ":")
    +:+ String newline
          ("  version " +:+ String quote (version +:+ String quote rest)) ->
  name <> EmptyString ->
  plainHeaderText name ->
  plainHeaderText spec ->
  without "@" spec ->
  Str.startsWith "#" name = false ->
  Str.startsWith "__metadata" name = false ->
  version <> EmptyString ->
  without quote version ->
  without newline version ->
  yarnEntry path rawEntry = [mkResolvedPackage name version path].
Proof.
  intros Hentry Hne Hname Hspec Hat Hhash Hmeta Hv Hq Hnl.
  assert (Hplain := plain_header _ _ Hname Hspec).
  assert (Hheader : plainHeaderText (name +:+ "@" +:+ spec +:+ ":")).
  { rewrite header_assoc.
    apply plainHeaderText_append; [exact Hplain | reflexivity]. }
  assert (Hgo : Str.existsb Str.isSpaceGo (name +:+ "@" +:+ spec +:+ ":")
                = false).
  { refine (existsb_weaken _ _ _ _ Hheader). intros c H.
    unfold isSpaceOrHighByte. rewrite H. reflexivity. }
  assert (Hline : without newline (name +:+ "@" +:+ spec +:+ ":")).
  { refine (existsb_weaken _ _ _ _ Hgo). intros c H.
    apply Ascii.eqb_eq in H. subst c. reflexivity. }
  assert (Hlines : exists more lines,
            Str.splitChar newline (GoIoc.TrimSpace rawEntry)
            = (name +:+ "@" +:+ spec +:+ ":")
              :: ("  version " +:+ String quote (version +:+ String quote more))
              :: lines).
  { rewrite Hentry, StrMore.splitChar_append, (StrMore.splitChar_none _ _ Hline).
    cbn [app]. rewrite <- version_line_assoc.
    destruct (splitChar_prefix newline
                ("  version " +:+ String quote (version +:+ String quote EmptyString))
                rest) as (more & lines & E).
    { unfold without. rewrite IocFacts.existsb_append. cbn [Str.existsb].
      rewrite IocFacts.existsb_append, Hnl. reflexivity. }
    exists more, lines. rewrite E, version_line_assoc. reflexivity. }
  destruct Hlines as (more & lines & Hlines).
  assert (Hfirst : Str.isEmpty (GoIoc.TrimSpace rawEntry) = false).
  { rewrite Hentry. destruct name as [|c name]; [contradiction |]. reflexivity. }
  unfold yarnEntry. rewrite Hfirst, Hlines. cbn [hd].
  change (name +:+ "@" +:+ spec +:+ ":")
    with (name +:+ String "@" (spec +:+ ":")) at 1 2.
  rewrite (startsWith_before_at "#" _ _ eq_refl Hhash).
  rewrite (startsWith_before_at "__metadata" _ _ eq_refl Hmeta).
  cbn [orb extractVersionFromEntry].
  rewrite (versionSubmatch_plain _ Hgo), (versionSubmatch_version _ _ Hv Hq).
  rewrite header_assoc.
  rewrite (extractPackageName_before_last_at _ Hplain), (take_last_at _ _ Hne Hat).
  replace (Str.isEmpty name) with false
    by (destruct name; [contradiction | reflexivity]).
  replace (Str.isEmpty version) with false
    by (destruct version; [contradiction | reflexivity]).
  reflexivity.
Qed.

Lemma yarnEntry_of_entry_witness :
  yarnEntry "yarn.lock"
    (("@scope/package" +:+ "@" +:+ "^1.0.0" +:+ ":")
     +:+ String newline
           ("  version " +:+ String quote
              ("1.0.5" +:+ String quote
                 (String newline "  resolved https://registry.example/p.tgz"))))
  = [mkResolvedPackage "@scope/package" "1.0.5" "yarn.lock"].
Proof.
  apply (yarnEntry_of_entry "yarn.lock" _ "@scope/package" "^1.0.0" "1.0.5"
           (String newline "  resolved https://registry.example/p.tgz"));
    try reflexivity; discriminate.
Defined.

End GoYarnFacts.


(** ** The bulk mode *)

Module BulkFacts.

Import GoStrings Shape.

Lemma existsb_mapBytes (p : ascii -> bool) (f : ascii -> ascii) (s : string) :
  Str.existsb p (mapBytes f s) = Str.existsb (fun c => p (f c)) s.
Proof.
  induction s as [|c s IH]; [reflexivity |].
  cbn [mapBytes Str.existsb]. rewrite IH. reflexivity.
Qed.

Lemma existsb_never (p : ascii -> bool) (s : string) :
  (forall c, p c = false) -> Str.existsb p s = false.
Proof.
  intros H. induction s as [|c s IH]; [reflexivity |].
  cbn [Str.existsb]. rewrite H, IH. reflexivity.
Qed.

Lemma existsb_dropWhile (p q : ascii -> bool) (s : string) :
  Str.existsb p s = false -> Str.existsb p (Str.dropWhile q s) = false.
Proof.
  induction s as [|c s IH]; [reflexivity |].
  cbn [Str.dropWhile]. destruct (q c); [| exact (fun H => H)].
  cbn [Str.existsb]. rewrite orb_false_iff. intros [_ H]. exact (IH H).
Qed.

Lemma existsb_dropWhileEnd (p q : ascii -> bool) (s : string) :
  Str.existsb p s = false -> Str.existsb p (Str.dropWhileEnd q s) = false.
Proof.
  induction s as [|c s IH]; [reflexivity |].
  cbn [Str.existsb Str.dropWhileEnd]. rewrite orb_false_iff. intros [Hc Hs].
  destruct (Str.isEmpty (Str.dropWhileEnd q s) && q c); [reflexivity |].
  cbn [Str.existsb]. rewrite Hc. exact (IH Hs).
Qed.

Lemma existsb_trimWith (p q : ascii -> bool) (s : string) :
  Str.existsb p s = false -> Str.existsb p (Str.trimWith q s) = false.
Proof.
  intros H. apply existsb_dropWhileEnd, existsb_dropWhile, H.
Qed.

(** X28. The file name that the Go bulk mode makes of a path is never
    empty and holds no slash, no backslash and no space, whatever the
    path. *)
Theorem sanitizePath_is_a_file_name (path : string) :
  GoBulk.sanitizePath path <> EmptyString
  /\ without "/" (GoBulk.sanitizePath path)
  /\ without "\" (GoBulk.sanitizePath path)
  /\ without " " (GoBulk.sanitizePath path).
Proof.
  unfold GoBulk.sanitizePath, without.
  set (replaced := ReplaceAllByte
                     (ReplaceAllByte (ReplaceAllByte path "/" "-") "\" "-")
                     " " "_").
  assert (Hnone : forall b, In b ["/"; "\"; " "]%char ->
            Str.existsb (Ascii.eqb b) replaced = false).
  { intros b Hb. unfold replaced, ReplaceAllByte.
    rewrite !existsb_mapBytes. apply existsb_never. intros c.
    cbn [In] in Hb.
    destruct Hb as [<- | [<- | [<- | []]]];
      destruct c as [[] [] [] [] [] [] [] []]; reflexivity. }
  assert (Htrim : forall b, In b ["/"; "\"; " "]%char ->
            Str.existsb (Ascii.eqb b) (Trim replaced "-") = false).
  { intros b Hb. apply existsb_trimWith, Hnone, Hb. }
  destruct (Trim replaced "-") as [|c s] eqn:E; cbn [Str.isEmpty].
  - repeat split; try reflexivity. discriminate.
  - repeat split; [discriminate | | |]; apply Htrim; cbn [In]; auto.
Qed.

Import NodeBulk.

Lemma collapseHyphens_existsb (p : ascii -> bool) (s : string) :
  Str.existsb p s = false -> Str.existsb p (collapseHyphens s) = false.
Proof.
  induction s as [|c s IH]; [reflexivity |].
  intros H. pose proof H as H'. cbn [Str.existsb] in H'.
  apply orb_false_iff in H'. destruct H' as [Hc Hs]. specialize (IH Hs).
  cbn [collapseHyphens].
  destruct (isHyphen c).
  - destruct s as [|c' s']; [exact H |].
    destruct (isHyphen c'); [exact IH |].
    cbn [Str.existsb]. rewrite Hc. exact IH.
  - cbn [Str.existsb]. rewrite Hc. exact IH.
Qed.

Lemma collapseHyphens_head (c : ascii) (s : string) :
  isHyphen c = false ->
  collapseHyphens (String c s) = String c (collapseHyphens s).
Proof. intros H. cbn [collapseHyphens]. rewrite H. reflexivity. Qed.

Lemma noDoubleHyphen_cons (c c' : ascii) (t : string) :
  noDoubleHyphen (String c (String c' t))
  = negb (isHyphen c && isHyphen c') && noDoubleHyphen (String c' t).
Proof. reflexivity. Qed.

Lemma collapseHyphens_noDoubleHyphen (s : string) :
  noDoubleHyphen (collapseHyphens s) = true
  /\ (forall c s', collapseHyphens s = String c s' ->
        exists t, s = String c t).
Proof.
  induction s as [|c s [IH1 IH2]]; [split; [reflexivity | discriminate] |].
  destruct (isHyphen c) eqn:Hc.
  - destruct s as [|c' s'].
    + cbn [collapseHyphens]. rewrite Hc. split; [reflexivity |].
      intros c0 s0 [= <- <-]. eauto.
    + destruct (isHyphen c') eqn:Hc'.
      * assert (E : collapseHyphens (String c (String c' s'))
                    = collapseHyphens (String c' s')).
        { cbn [collapseHyphens]. rewrite Hc, Hc'. reflexivity. }
        rewrite E. split; [exact IH1 |].
        intros c0 s0 H0. destruct (IH2 _ _ H0) as [t Ht].
        injection Ht as <- <-.
        assert (c = c') as ->.
        { unfold isHyphen in Hc, Hc'. apply Ascii.eqb_eq in Hc, Hc'.
          congruence. }
        eauto.
      * assert (E : collapseHyphens (String c (String c' s'))
                    = String c (collapseHyphens (String c' s'))).
        { cbn [collapseHyphens]. rewrite Hc, Hc'. reflexivity. }
        rewrite E. split; [| intros c0 s0 [= <- <-]; eauto].
        rewrite (collapseHyphens_head _ _ Hc') in *.
        rewrite noDoubleHyphen_cons, Hc', andb_false_r. exact IH1.
  - rewrite (collapseHyphens_head _ _ Hc).
    split; [| intros c0 s0 [= <- <-]; eauto].
    destruct (collapseHyphens s) as [|c1 t]; [reflexivity |].
    rewrite noDoubleHyphen_cons, Hc. exact IH1.
Qed.

Lemma toLower_hyphen (c : ascii) : isHyphen (toLower c) = isHyphen c.
Proof. destruct c as [[] [] [] [] [] [] [] []]; reflexivity. Qed.

Lemma toLower_name (c : ascii) :
  isNameChar c = true -> isLowerNameChar (toLower c) = true.
Proof.
  destruct c as [[] [] [] [] [] [] [] []]; try reflexivity; discriminate.
Qed.

Lemma mapBytes_noDoubleHyphen (s : string) :
  noDoubleHyphen (mapBytes toLower s) = noDoubleHyphen s.
Proof.
  induction s as [|c s IH]; [reflexivity |].
  destruct s as [|c' s']; [reflexivity |].
  cbn [mapBytes]. rewrite !noDoubleHyphen_cons, !toLower_hyphen. f_equal.
  exact IH.
Qed.

(** X29. The directory name that the Node.js bulk mode makes of a path
    holds only characters of [a-z], [0-9], hyphen, underscore and full stop,
    and never two hyphens in a row, whatever the path. *)
Theorem sanitizePathForDirectory_is_a_directory_name (fullPath : string) :
  Str.existsb (fun c => negb (isLowerNameChar c))
    (sanitizePathForDirectory fullPath) = false
  /\ noDoubleHyphen (sanitizePathForDirectory fullPath) = true.
Proof.
  unfold sanitizePathForDirectory. split.
  - rewrite existsb_mapBytes.
    apply (collapseHyphens_existsb (fun c => negb (isLowerNameChar (toLower c)))).
    rewrite existsb_mapBytes. apply existsb_never. intros c.
    apply negb_false_iff, toLower_name.
    destruct (isNameChar c) eqn:E; [exact E | reflexivity].
  - rewrite mapBytes_noDoubleHyphen.
    apply collapseHyphens_noDoubleHyphen.
Qed.

(** X30. The paths that the Go bulk mode reads from its file: a line gives
    a path when, white space around it apart, it is not empty and does not
    begin with [#]; the path is the line without that white space, so no
    path is empty, is a comment, or has white space at its ends. *)
Theorem readPathsFile_paths (lines : list string) (path : string) :
  In path (GoBulk.readPathsFile lines) <->
  (exists text, In text lines /\ path = GoIoc.TrimSpace text)
  /\ path <> EmptyString
  /\ Str.startsWith "#" path = false
  /\ GoIoc.TrimSpace path = path.
Proof.
  unfold GoBulk.readPathsFile. rewrite in_flat_map. split.
  - intros (text & Hin & Hpath).
    destruct (Str.isEmpty (GoIoc.TrimSpace text)) eqn:E; [destruct Hpath |].
    destruct (Str.startsWith "#" (GoIoc.TrimSpace text)) eqn:Hc;
      [destruct Hpath |].
    destruct Hpath as [<- | []].
    split; [eauto |]. split; [intros H; rewrite H in E; discriminate |].
    split; [exact Hc | apply GoTrimFacts.TrimSpace_idem].
  - intros ((text & Hin & ->) & Hne & Hc & _).
    exists text. split; [exact Hin |]. rewrite Hc.
    destruct (GoIoc.TrimSpace text); [contradiction |]. left. reflexivity.
Qed.

End BulkFacts.


(** ** The two implementations side by side *)

Module SiblingFacts.

Section GoLibrary.

Context {SemVersion : Type} {Constraints : Type}.
Variable NewVersion : string -> option SemVersion.
Variable NewConstraint : string -> option Constraints.
Variable Validate : Constraints -> SemVersion -> bool * list string.

(** The Go classifier fails closed: a specifier that the semver library
    does not read as a constraint gives no POTENTIAL finding, whatever is
    listed for the package. *)
Lemma Go_rejected_constraint_fails_closed
  (iocDB : GoIoc.Database) (dep : GoMatcher.Dependency) :
  NewConstraint (GoIoc.TrimSpace (GoMatcher.VersionSpec dep)) = None ->
  GoMatcher.potentialMatches NewVersion NewConstraint Validate iocDB dep = [].
Proof.
  intros H. apply MatcherFacts.potentialMatches_not_a_range.
  unfold GoMatcher.isSemverRange. rewrite H.
  destruct (_ || _); reflexivity.
Qed.


End GoLibrary.

End SiblingFacts.
